(** * TRADE: market data store, metrics analyzer and signal strategy

    A shallow embedding of the Go packages [pkg/types], [pkg/market],
    [pkg/analyzer] and [pkg/strategy] and of the tick callback of the
    manager, with the properties the specification states about them.

    Numbers.  Go's [float64] is read in two ways.  The packages are
    embedded over the real numbers [R]: arithmetic is exact and there is no
    NaN, no infinity and no rounding error; every comparison of the source
    is a boolean test on [R].  A property proved there is a property of the
    computation in exact arithmetic; where rounding, or a quotient by zero,
    makes the program depart from it, the property says so.  The arithmetic
    of the analyzer is embedded a second time in [f64], over the binary64
    numbers of the kernel, operation by operation; the inputs on which the
    program departs from the exact reading are evaluated there.  Go's [int]
    is [Z], slices are lists, [time.Time] is a count of nanoseconds.

    Effects.  A method that mutates its receiver takes the receiver's state
    and returns the new one.  A slice or index expression out of range
    panics in Go; a function that contains one returns an [option], [None]
    being the panic.  Logging is left out.  The mutexes of the analyzer and
    of the strategy are taken and released within one call and are left out;
    the mutex of the store is held across the tick callback and is modelled
    in [manager], where a call can also block.

    The first part holds the definitions, package by package, the second
    the properties. *)

From Stdlib Require Import Reals Lra Lia ZArith List String Bool Sorted.
From Stdlib Require Floats.
Import ListNotations.
Local Open Scope R_scope.

(** ** Boolean comparisons on [float64] values *)

Definition Rltb (x y : R) : bool := if Rlt_dec x y then true else false.
Definition Rleb (x y : R) : bool := if Rle_dec x y then true else false.
Definition Rgtb (x y : R) : bool := Rltb y x.
Definition Rgeb (x y : R) : bool := Rleb y x.
Definition Reqb (x y : R) : bool := if Req_dec_T x y then true else false.

(** ** Package [time]: the part of Go's standard library the strategy uses *)

Module time.

(** A [time.Time] without monotonic reading, as produced by parsing: the
    nanoseconds elapsed since the zero time (January 1, year 1, UTC). *)
Definition Time := Z.

(** A [time.Duration] is an [int64] count of nanoseconds. *)
Definition Duration := Z.

Definition minDuration : Duration := (- 2 ^ 63)%Z.
Definition maxDuration : Duration := (2 ^ 63 - 1)%Z.
Definition Hour : Duration := (60 * 60 * 1000000000)%Z.

Definition IsZero (t : Time) : bool := (t =? 0)%Z.

(** [t.Sub(u)]: the difference, saturated to the range of a Duration. *)
Definition Sub (t u : Time) : Duration :=
  let d := (t - u)%Z in
  if (d <? minDuration)%Z then minDuration
  else if (maxDuration <? d)%Z then maxDuration
  else d.

(** [d.Hours()]: whole hours plus the fraction of the remainder. *)
Definition Hours (d : Duration) : R :=
  let hour := Z.quot d Hour in
  let nsec := Z.rem d Hour in
  IZR hour + IZR nsec / (60 * 60 * 1e9).

End time.

(** ** Package [types] *)

Module types.

Record MarketMetrics := {
  RealizedVolatility : R;
  ATR : R;
  RelativeStrength : R;
  OrderImbalance : R;
  TrendStrength : R;
  AvgTrendStrength : R;
  MarketEfficiencyRatio : R
}.

Definition NewMarketMetrics : MarketMetrics := {|
  RealizedVolatility := 0.0;
  ATR := 0.0;
  RelativeStrength := 0.5;
  OrderImbalance := 0.5;
  TrendStrength := 0.0;
  AvgTrendStrength := 0.0;
  MarketEfficiencyRatio := 0.0
|}.

Record TickData := {
  Price : R;
  Volume : R;
  IsAsk : bool;
  Timestamp : time.Time
}.

Record TradeData := {
  Active : bool;
  Direction : string;
  EntryPrice : R;
  EntryTime : time.Time;
  HighestPrice : R;
  LowestPrice : R;
  StopLoss : R;
  CurrentPnL : R
}.

(** Every field but [Active] has Go's zero value. *)
Definition NewTradeData : TradeData := {|
  Active := false;
  Direction := "";
  EntryPrice := 0;
  EntryTime := 0%Z;
  HighestPrice := 0;
  LowestPrice := 0;
  StopLoss := 0;
  CurrentPnL := 0
|}.

Record Signal := {
  Action : string;
  Side : string;
  SignalPrice : R;
  SignalTime : time.Time;
  Reason : string;
  ProfitPercent : R;
  UpdatedStopLoss : R;
  Metrics : option MarketMetrics
}.

Definition NewBuySignal (price : R) (timestamp : time.Time)
    (metrics : MarketMetrics) : Signal := {|
  Action := "BUY";
  Side := "buy";
  SignalPrice := price;
  SignalTime := timestamp;
  Reason := "";
  ProfitPercent := 0;
  UpdatedStopLoss := 0;
  Metrics := Some metrics
|}.

Definition NewSellSignal (price : R) (timestamp : time.Time)
    (reason : string) (profitPercent stopLoss : R) : Signal := {|
  Action := "CLOSE";
  Side := "";
  SignalPrice := price;
  SignalTime := timestamp;
  Reason := reason;
  ProfitPercent := profitPercent;
  UpdatedStopLoss := stopLoss;
  Metrics := None
|}.

End types.

(** ** Go slices and the error of an out-of-range slice expression *)

(** A computation that may panic: [None] is the run-time panic. *)
Notation "x <- e ;; k" :=
  (match e with Some x => k | None => None end)
  (at level 61, e at next level, right associativity).

Notation "' pat <- e ;; k" :=
  (match e with Some pat => k | None => None end)
  (at level 61, pat pattern, e at next level, right associativity).

Definition len {A : Type} (s : list A) : Z := Z.of_nat (List.length s).

(** [s[lo:hi]] on a slice whose capacity is its length: it panics unless
    [0 <= lo <= hi <= len(s)]. *)
Definition slice {A : Type} (s : list A) (lo hi : Z) : option (list A) :=
  if ((0 <=? lo) && (lo <=? hi) && (hi <=? len s))%Z
  then Some (firstn (Z.to_nat (hi - lo)) (skipn (Z.to_nat lo) s))
  else None.

(** [s[i]], which panics out of range. *)
Definition index {A : Type} (s : list A) (i : Z) : option A :=
  if ((0 <=? i) && (i <? len s))%Z then nth_error s (Z.to_nat i) else None.

(** The loop [sum := 0.0; for _, v := range s { sum += v }]. *)
Definition sumLoop (s : list R) : R := fold_left Rplus s 0.

(** The last [n] elements of a list, in order: what is left of it after
    the oldest elements have been dropped from the front. *)
Definition lastN {A : Type} (n : nat) (s : list A) : list A :=
  skipn (List.length s - n) s.

(** ** Package [math] and the formatting of a price *)

Module math.

(** [math.Round]: to the nearest integer, halves away from zero. *)
Definition Round (x : R) : R :=
  if Rleb 0 x then IZR (Zfloor (x + 0.5)) else - IZR (Zfloor (- x + 0.5)).

(** [math.Pow(10, float64(n))] for an integer [n]. *)
Definition Pow10 (n : Z) : R := powerRZ 10 n.

End math.

Module fmt.

(** Nearest integer, halves to the even one: the rounding of a decimal
    rendering. *)
Definition roundHalfEven (x : R) : Z :=
  let f := Zfloor x in
  let d := x - IZR f in
  if Rltb d 0.5 then f
  else if Rgtb d 0.5 then (f + 1)%Z
  else if Z.even f then f else (f + 1)%Z.

(** The number of decimal digits of a natural number ([0] has one). *)
Definition nbDigits (n : Z) : Z :=
  Z.of_nat (Decimal.nb_digits (N.to_uint (Z.to_N n))).

(** [len(strings.Split(fmt.Sprintf("%f", x), ".")[0])]: the rendering has
    six decimals, so what stands before the point is an optional minus sign
    and the digits of the integer part of [x] rounded to six decimals.  A
    rendering always has a point: the branch of [AddTick] for a rendering
    without one (NaN and the infinities) has no counterpart here. *)
Definition integerPartLen (x : R) : Z :=
  let scaled := roundHalfEven (Rabs x * 1e6) in
  ((if Rltb x 0 then 1 else 0) + nbDigits (scaled / 1000000))%Z.

End fmt.

(** ** Package [market]: the bounded history store *)

Module market.
Import types.

(** The histories and the configuration of the store.  The websocket
    connection, the symbols and the logger are left out.  The mutex and the
    tick callback, which [AddTick] calls after the histories are updated
    and before it releases the mutex, are modelled in [manager]: the
    functions of this module are the methods of a store whose mutex is free
    and that has no callback. *)
Record MarketData := {
  priceHistory : list R;
  volumeHistory : list R;
  bidVolume : list R;
  askVolume : list R;
  timeStamps : list time.Time;
  highPrices : list R;
  lowPrices : list R;
  maxSize : Z;
  roundNum : Z;
  prevPrice : R
}.

Definition NewMarketData : MarketData := {|
  priceHistory := [];
  volumeHistory := [];
  bidVolume := [];
  askVolume := [];
  timeStamps := [];
  highPrices := [];
  lowPrices := [];
  maxSize := 1000;
  roundNum := 0;
  prevPrice := 0
|}.

(** [addToLimitedSlice] for either element type of the type switch. *)
Definition addToLimitedSlice {A : Type} (maxSize : Z) (s : list A) (value : A)
    : option (list A) :=
  if (len s >=? maxSize)%Z then
    rest <- slice s 1 (len s) ;;
    Some (rest ++ [value])
  else Some (s ++ [value]).

(** [md.round] at precision [roundNum]. *)
Definition round (roundNum : Z) (num : R) : R :=
  let shift := math.Pow10 roundNum in
  math.Round (num * shift) / shift.

(** [s[len(s)-1]], read only where the slice is known not to be empty. *)
Definition lastOf (s : list R) : R := last s 0.

(** [AddTick].  The precision is inferred while [roundNum] is 0; the
    conversions between [int] and [float64] around [math.Max] and
    [math.Min] are exact, so the clamp is taken on integers.  The
    sequences are extended in the order of the source; a panic of one
    insertion ends the call. *)
Definition AddTick (md : MarketData) (tick : TickData) : option MarketData :=
  let price := Price tick in
  let volume := Volume tick in
  let isAsk := IsAsk tick in
  let timestamp := Timestamp tick in
  let '(roundNum', prevPrice') :=
    if (roundNum md =? 0)%Z then
      let n := (6 - fmt.integerPartLen price)%Z in
      let n := Z.max 1 (Z.min 8 n) in
      (n, round n price)
    else (roundNum md, prevPrice md) in
  let price := round roundNum' price in
  priceHistory' <- addToLimitedSlice (maxSize md) (priceHistory md) price ;;
  volumeHistory' <- addToLimitedSlice (maxSize md) (volumeHistory md) volume ;;
  timeStamps' <- addToLimitedSlice (maxSize md) (timeStamps md) timestamp ;;
  highPrices' <-
    (if (len (highPrices md) =? 0)%Z || Rgtb price (lastOf (highPrices md))
     then addToLimitedSlice (maxSize md) (highPrices md) price
     else addToLimitedSlice (maxSize md) (highPrices md)
            (lastOf (highPrices md))) ;;
  lowPrices' <-
    (if (len (lowPrices md) =? 0)%Z || Rltb price (lastOf (lowPrices md))
     then addToLimitedSlice (maxSize md) (lowPrices md) price
     else addToLimitedSlice (maxSize md) (lowPrices md)
            (lastOf (lowPrices md))) ;;
  askVolume' <-
    (if isAsk then addToLimitedSlice (maxSize md) (askVolume md) volume
     else Some (askVolume md)) ;;
  bidVolume' <-
    (if isAsk then Some (bidVolume md)
     else addToLimitedSlice (maxSize md) (bidVolume md) volume) ;;
  Some {|
    priceHistory := priceHistory';
    volumeHistory := volumeHistory';
    bidVolume := bidVolume';
    askVolume := askVolume';
    timeStamps := timeStamps';
    highPrices := highPrices';
    lowPrices := lowPrices';
    maxSize := maxSize md;
    roundNum := roundNum';
    prevPrice := prevPrice'
  |}.

Definition GetCurrentPrice (md : MarketData) : R :=
  if (len (priceHistory md) =? 0)%Z then 0 else lastOf (priceHistory md).

(** The accessors return copies; a list is its own copy. *)
Definition GetPriceArray (md : MarketData) : list R := priceHistory md.
Definition GetVolumeArray (md : MarketData) : list R := volumeHistory md.
Definition GetBidVolumeArray (md : MarketData) : list R := bidVolume md.
Definition GetAskVolumeArray (md : MarketData) : list R := askVolume md.
Definition GetHighPricesArray (md : MarketData) : list R := highPrices md.
Definition GetLowPricesArray (md : MarketData) : list R := lowPrices md.

Definition HasMinimumData (md : MarketData) (minTicks : Z) : bool :=
  (len (priceHistory md) >=? minTicks)%Z.

Definition Reset (md : MarketData) : MarketData := {|
  priceHistory := [];
  volumeHistory := [];
  bidVolume := [];
  askVolume := [];
  timeStamps := [];
  highPrices := [];
  lowPrices := [];
  maxSize := maxSize md;
  roundNum := 0;
  prevPrice := 0
|}.

(** A sequence of [AddTick] calls. *)
Fixpoint AddTicks (md : MarketData) (ticks : list TickData)
    : option MarketData :=
  match ticks with
  | [] => Some md
  | tick :: rest => md <- AddTick md tick ;; AddTicks md rest
  end.

(** Every history sequence is within the capacity of the store. *)
Definition withinCapacity (md : MarketData) : Prop :=
  (len (priceHistory md) <= maxSize md
   /\ len (volumeHistory md) <= maxSize md
   /\ len (timeStamps md) <= maxSize md
   /\ len (highPrices md) <= maxSize md
   /\ len (lowPrices md) <= maxSize md
   /\ len (bidVolume md) <= maxSize md
   /\ len (askVolume md) <= maxSize md)%Z.

(** [s'] is [s] after the insertion of [value] into a sequence of
    capacity [maxSize]: below capacity the value is appended; at capacity
    the single oldest element is removed, the others keep their order, and
    the value is appended. *)
Definition inserted {A : Type} (maxSize : Z) (s : list A) (value : A)
    (s' : list A) : Prop :=
  ((len s < maxSize)%Z -> s' = s ++ [value])
  /\ (len s = maxSize ->
      exists oldest rest, s = oldest :: rest /\ s' = rest ++ [value]).

(** The running highs never fall, the running lows never rise, and index
    by index the low is at most the price and the price at most the high. *)
Definition extremesKept (md : MarketData) : Prop :=
  Sorted Rle (highPrices md)
  /\ Sorted Rge (lowPrices md)
  /\ Forall2 Rle (priceHistory md) (highPrices md)
  /\ Forall2 Rle (lowPrices md) (priceHistory md).

End market.

(** ** Package [stats] (github.com/montanaflynn/stats)

    The two functions of the library the analyzer calls.  On an empty input
    the library returns NaN with an error that the callers drop; the callers
    below pass at least one element. *)

Module stats.

Definition Sum (input : list R) : R := sumLoop input.

Definition Mean (input : list R) : R := Sum input / IZR (len input).

(** The population variance: the mean of the squared deviations. *)
Definition PopulationVariance (input : list R) : R :=
  let m := Mean input in
  fold_left (fun variance n => variance + (n - m) * (n - m)) input 0
  / IZR (len input).

Definition StandardDeviation (input : list R) : R :=
  sqrt (PopulationVariance input).

End stats.

(** ** Package [analyzer] *)

Module analyzer.
Import types.

(** The analyzer reads the store through a pointer it shares with the
    caller; here every function takes the current store as an argument. *)
Record Analyzer := {
  metrics : MarketMetrics;
  trendStrengthWindow : list R;
  warmupTicks : Z;
  warmupComplete : bool
}.

Definition NewAnalyzer : Analyzer := {|
  metrics := NewMarketMetrics;
  trendStrengthWindow := [];
  warmupTicks := 300;
  warmupComplete := false
|}.

Definition SetWarmupTicks (a : Analyzer) (ticks : Z) : Analyzer := {|
  metrics := metrics a;
  trendStrengthWindow := trendStrengthWindow a;
  warmupTicks := ticks;
  warmupComplete := warmupComplete a
|}.

Definition HasSufficientData (a : Analyzer) : bool := warmupComplete a.

Definition GetMetrics (a : Analyzer) : MarketMetrics := {|
  RealizedVolatility := RealizedVolatility (metrics a);
  ATR := ATR (metrics a);
  RelativeStrength := RelativeStrength (metrics a);
  OrderImbalance := OrderImbalance (metrics a);
  TrendStrength := TrendStrength (metrics a);
  AvgTrendStrength := AvgTrendStrength (metrics a);
  MarketEfficiencyRatio := MarketEfficiencyRatio (metrics a)
|}.

(** [returns[i-1] = prices[i]/prices[i-1] - 1] for [i] from 1.  Over the
    reals the quotient by a zero price is a number, where the source
    computes an infinity or NaN: a statement below about the value of a
    return is made for a history without a zero price, and
    [f64.returnsOf] is the same loop in binary64. *)
Fixpoint returnsOf (prices : list R) : list R :=
  match prices with
  | p0 :: (p1 :: _) as rest => (p1 / p0 - 1) :: returnsOf rest
  | _ => []
  end.

(** The true ranges of [calculateATR], index by index. *)
Fixpoint trueRanges (highPrices lowPrices closes : list R) : list R :=
  match highPrices, lowPrices, closes with
  | h :: hs, l :: ls, c :: cs =>
      let tr1 := h - l in
      let tr2 := Rabs (h - c) in
      let tr3 := Rabs (l - c) in
      Rmax tr1 (Rmax tr2 tr3) :: trueRanges hs ls cs
  | _, _, _ => []
  end.

Definition calculateATR (a : Analyzer) (md : market.MarketData)
    (prices : list R) : option R :=
  let highPrices := market.GetHighPricesArray md in
  let lowPrices := market.GetLowPricesArray md in
  if ((len highPrices <? 14) || (len lowPrices <? 14) || (len prices <? 14))%Z
  then
    if (len prices >? 0)%Z then
      p <- index prices (len prices - 1) ;;
      Some (RealizedVolatility (metrics a) * p / 100)
    else Some 0
  else
    let period := 14%Z in
    highPrices <- slice highPrices (len highPrices - period) (len highPrices) ;;
    lowPrices <- slice lowPrices (len lowPrices - period) (len lowPrices) ;;
    closes <- slice prices (len prices - period - 1) (len prices - 1) ;;
    Some (sumLoop (trueRanges highPrices lowPrices closes) / IZR period).

(** The loop of [calculateRelativeStrength] over the window of returns:
    it returns (gains, losses). *)
Definition gainsAndLosses (windowReturns : list R) : R * R :=
  fold_left
    (fun '(gains, losses) ret =>
       if Rgtb ret 0 then (gains + ret, losses) else (gains, losses - ret))
    windowReturns (0.0, 0.0).

Definition calculateRelativeStrength (returns : list R) : R :=
  if (len returns <? 2)%Z then 0.5
  else
    let window := Z.min 500 (len returns) in
    let windowReturns := skipn (Z.to_nat (len returns - window)) returns in
    let '(gains, losses) := gainsAndLosses windowReturns in
    if Reqb (gains + losses) 0 then 0.5
    else gains / (gains + losses).

(** The sums and the ratio of [calculateOrderImbalance], on the two
    volume arrays it reads from the store. *)
Definition orderImbalanceOf (bidVolume askVolume : list R) : R :=
  let totalBidVol := sumLoop bidVolume in
  let totalAskVol := sumLoop askVolume in
  if Reqb (totalBidVol + totalAskVol) 0 then 0.5
  else totalBidVol / (totalBidVol + totalAskVol).

Definition calculateOrderImbalance (md : market.MarketData) : R :=
  orderImbalanceOf (market.GetBidVolumeArray md) (market.GetAskVolumeArray md).

(** [linearRegression] returns (slope, intercept, r).  The loop reads
    [y[i]] for each index of [x]; the two have the same length there.
    This is the computation in exact arithmetic; in binary64 the
    differences [n*sumXX - sumX*sumX] and [n*sumYY - sumY*sumY] are taken
    between rounded sums and can cancel to 0 or below, see
    [f64.linearRegression]. *)
Definition linearRegression (x y : list R) : R * R * R :=
  let n := IZR (len x) in
  if negb (Reqb n (IZR (len y))) || Rltb n 2 then (0, 0, 0)
  else
    let '(sumX, sumY, sumXY, sumXX, sumYY) :=
      fold_left
        (fun '(sumX, sumY, sumXY, sumXX, sumYY) '(xi, yi) =>
           (sumX + xi, sumY + yi, sumXY + xi * yi, sumXX + xi * xi,
            sumYY + yi * yi))
        (combine x y) (0, 0, 0, 0, 0) in
    let slope := (n * sumXY - sumX * sumY) / (n * sumXX - sumX * sumX) in
    let intercept := (sumY - slope * sumX) / n in
    let numerator := n * sumXY - sumX * sumY in
    let denominator :=
      sqrt ((n * sumXX - sumX * sumX) * (n * sumYY - sumY * sumY)) in
    let r := if Reqb denominator 0 then 0 else numerator / denominator in
    (slope, intercept, r).

(** [x[i] = float64(i)] for every index of a slice of length [n]. *)
Definition indices (n : nat) : list R := map INR (seq 0 n).

Definition calculateTrendStrength (prices : list R) : R :=
  if (len prices <? 30)%Z then 0.0
  else
    let windowPrices := skipn (Z.to_nat (len prices - 30)) prices in
    let x := indices (List.length windowPrices) in
    let '(slope, intercept, r) := linearRegression x windowPrices in
    let meanPrice := stats.Mean windowPrices in
    let trendStrength := slope * r * r * (30 / meanPrice) * 100000 in
    trendStrength.

Definition calculateMarketEfficiencyRatio (prices : list R) : R :=
  if (len prices <? 30)%Z then 0.5
  else
    let n := List.length prices in
    let netMovement := Rabs (nth (n - 1) prices 0 - nth (n - 30) prices 0) in
    let pathLength :=
      fold_left
        (fun pathLength i =>
           pathLength + Rabs (nth i prices 0 - nth (i - 1) prices 0))
        (seq (n - 29) 29) 0 in
    if Reqb pathLength 0 then 0.5
    else netMovement / pathLength.

Definition calculateMetrics (a : Analyzer) (md : market.MarketData)
    : option Analyzer :=
  let prices := market.GetPriceArray md in
  if (len prices <? 2)%Z then Some a
  else
    let returns := returnsOf prices in
    let stdDev := stats.StandardDeviation returns in
    let realizedVolatility := stdDev * sqrt (252 * 1440) * 100 in
    atr <- calculateATR a md prices ;;
    let relativeStrength := calculateRelativeStrength returns in
    let orderImbalance := calculateOrderImbalance md in
    let trendStrength := calculateTrendStrength prices in
    let window := trendStrengthWindow a in
    let window :=
      if (len window >=? 20)%Z then tl window else window in
    let window := window ++ [trendStrength] in
    let avgTrendStrength :=
      if (len window >=? 7)%Z then sumLoop window / IZR (len window)
      else 0.0 in
    let mer := calculateMarketEfficiencyRatio prices in
    Some {|
      metrics := {|
        RealizedVolatility := realizedVolatility;
        ATR := atr;
        RelativeStrength := relativeStrength;
        OrderImbalance := orderImbalance;
        TrendStrength := trendStrength;
        AvgTrendStrength := avgTrendStrength;
        MarketEfficiencyRatio := mer
      |};
      trendStrengthWindow := window;
      warmupTicks := warmupTicks a;
      warmupComplete := warmupComplete a
    |}.

Definition ProcessTick (a : Analyzer) (md : market.MarketData)
    (tick : TickData) : option (option MarketMetrics * Analyzer) :=
  if negb (market.HasMinimumData md 20) then Some (None, a)
  else
    a <- calculateMetrics a md ;;
    let a :=
      if negb (warmupComplete a) && market.HasMinimumData md (warmupTicks a)
      then {|
        metrics := metrics a;
        trendStrengthWindow := trendStrengthWindow a;
        warmupTicks := warmupTicks a;
        warmupComplete := true
      |}
      else a in
    Some (Some (GetMetrics a), a).

End analyzer.

(** ** Sums over price series

    The quantities in which the properties of the regression are stated. *)

Module series.

(** The sum of a list, and the sum of the products of two lists. *)
Fixpoint total (l : list R) : R :=
  match l with
  | [] => 0
  | v :: l' => v + total l'
  end.

Fixpoint dot (xs ys : list R) : R :=
  match xs, ys with
  | x :: xs', y :: ys' => x * y + dot xs' ys'
  | _, _ => 0
  end.

(** [n * sum(xy) - sum(x) * sum(y)]: the numerator of the slope; with
    twice the same list, a factor of the denominators. *)
Definition cov (xs ys : list R) : R :=
  IZR (len xs) * dot xs ys - total xs * total ys.

(** The sum of [(x_i - x) * (y_i - y)] over two lists. *)
Fixpoint cross (x y : R) (xs ys : list R) : R :=
  match xs, ys with
  | xi :: xs', yi :: ys' => (xi - x) * (yi - y) + cross x y xs' ys'
  | _, _ => 0
  end.

(** Two lists are aligned with sign [s] when, for every element and
    every later one, the differences on both sides have a product of sign
    [s]: two increasing lists with [s = 1], an increasing and a decreasing
    one with [s = -1]. *)
Inductive Aligned (s : R) : list R -> list R -> Prop :=
| Aligned_nil : Aligned s [] []
| Aligned_cons (x y : R) (xs ys : list R) :
    Forall2 (fun xi yi => 0 < s * ((xi - x) * (yi - y))) xs ys ->
    Aligned s xs ys ->
    Aligned s (x :: xs) (y :: ys).

End series.

(** ** The arithmetic of the analyzer in binary64

    The loops of [analyzer] that the properties below evaluate on concrete
    inputs, over the binary64 numbers of the kernel: each operation of the
    source is one correctly rounded operation here, in the order of the
    source and without fused multiply-add, as the compiler emits them for
    amd64.  A comparison with NaN is false, a quotient by zero is an
    infinity or NaN. *)

Module f64.
Import PrimFloat.
Local Open Scope float_scope.
#[local] Set Warnings "-inexact-float".

(** [float64(n)] for a length or an index. *)
Definition ofInt (n : Z) : float := of_uint63 (Uint63.of_Z n).

Definition sumLoop (s : list float) : float := fold_left add s 0.

(** [stats.Mean]: the sum over the length. *)
Definition Mean (input : list float) : float :=
  sumLoop input / ofInt (len input).

Fixpoint returnsOf (prices : list float) : list float :=
  match prices with
  | p0 :: (p1 :: _) as rest => (p1 / p0 - 1) :: returnsOf rest
  | _ => []
  end.

Definition gainsAndLosses (windowReturns : list float) : float * float :=
  fold_left
    (fun '(gains, losses) ret =>
       if 0 <? ret then (gains + ret, losses) else (gains, losses - ret))
    windowReturns (0, 0).

Definition calculateRelativeStrength (returns : list float) : float :=
  if (len returns <? 2)%Z then 0.5
  else
    let window := Z.min 500 (len returns) in
    let windowReturns := skipn (Z.to_nat (len returns - window)) returns in
    let '(gains, losses) := gainsAndLosses windowReturns in
    if gains + losses =? 0 then 0.5
    else gains / (gains + losses).

Definition linearRegression (x y : list float) : float * float * float :=
  let n := ofInt (len x) in
  if negb (n =? ofInt (len y)) || (n <? 2) then (0, 0, 0)
  else
    let '(sumX, sumY, sumXY, sumXX, sumYY) :=
      fold_left
        (fun '(sumX, sumY, sumXY, sumXX, sumYY) '(xi, yi) =>
           (sumX + xi, sumY + yi, sumXY + xi * yi, sumXX + xi * xi,
            sumYY + yi * yi))
        (combine x y) (0, 0, 0, 0, 0) in
    let slope := (n * sumXY - sumX * sumY) / (n * sumXX - sumX * sumX) in
    let intercept := (sumY - slope * sumX) / n in
    let numerator := n * sumXY - sumX * sumY in
    let denominator :=
      sqrt ((n * sumXX - sumX * sumX) * (n * sumYY - sumY * sumY)) in
    let r := if denominator =? 0 then 0 else numerator / denominator in
    (slope, intercept, r).

(** [x[i] = float64(i)] for every index of a slice of length [n]. *)
Definition indices (n : nat) : list float :=
  map (fun i => ofInt (Z.of_nat i)) (seq 0 n).

Definition calculateTrendStrength (prices : list float) : float :=
  if (len prices <? 30)%Z then 0
  else
    let windowPrices := skipn (Z.to_nat (len prices - 30)) prices in
    let x := indices (List.length windowPrices) in
    let '(slope, intercept, r) := linearRegression x windowPrices in
    let meanPrice := Mean windowPrices in
    let trendStrength := slope * r * r * (30 / meanPrice) * 100000 in
    trendStrength.

Definition calculateMarketEfficiencyRatio (prices : list float) : float :=
  if (len prices <? 30)%Z then 0.5
  else
    let n := List.length prices in
    let netMovement := abs (nth (n - 1) prices 0 - nth (n - 30) prices 0) in
    let pathLength :=
      fold_left
        (fun pathLength i =>
           pathLength + abs (nth i prices 0 - nth (i - 1) prices 0))
        (seq (n - 29) 29) 0 in
    if pathLength =? 0 then 0.5
    else netMovement / pathLength.

(** Every price is positive; each price is below the next. *)
Definition allPositive (prices : list float) : bool :=
  forallb (fun p => 0 <? p) prices.

Fixpoint strictlyIncreasing (prices : list float) : bool :=
  match prices with
  | p0 :: (p1 :: _) as rest => (p0 <? p1) && strictlyIncreasing rest
  | _ => true
  end.

(** *** Inputs *)

(** The thirty prices 1000000000, 1000000001, ..., 1000000029: each is a
    binary64 number. *)
Definition risingFromBillion : list float :=
  map (fun i => 1000000000 + i) (indices 30).


(** The thirty prices 0.38, 0.43, ..., 1.83, each the binary64 number
    nearest to its two decimals. *)
Definition risingByFiveCents : list float :=
  map (fun i => (38 + 5 * i) / 100) (indices 30).

(** A history that starts at the price 0. *)
Definition startingAtZero : list float := [0; 1; 2].

End f64.

(** ** Package [strategy] *)

Module strategy.
Import types.
Local Open Scope string_scope.

(** The strategy owns one trade record; the analyzer and the logger it
    also holds are not read by the functions below. *)
Record Strategy := { activeTrade : TradeData }.

Definition NewStrategy : Strategy := {| activeTrade := NewTradeData |}.

(** [checkBuyConditions]: the default thresholds are the values of the
    map literal of the source, looked up by their keys. *)
Definition checkBuyConditions (metrics : MarketMetrics) : bool :=
  let realized_volatility_hi := 0.70 in
  let realized_volatility_lo := 0.35 in
  let relative_strength_hi := 0.75 in
  let relative_strength_lo := 0.25 in
  let trend_strength := 5.0 in
  let avg_trend_strength := 3.0 in
  let order_imbalance := 0.65 in
  let market_efficiency_ratio := 0.93 in
  Rleb (RealizedVolatility metrics) realized_volatility_hi &&
  Rgeb (RealizedVolatility metrics) realized_volatility_lo &&
  Rleb (RelativeStrength metrics) relative_strength_hi &&
  Rgeb (RelativeStrength metrics) relative_strength_lo &&
  Rgeb (TrendStrength metrics) trend_strength &&
  Rgeb (AvgTrendStrength metrics) avg_trend_strength &&
  Rgtb (TrendStrength metrics) (AvgTrendStrength metrics) &&
  Rgeb (OrderImbalance metrics) order_imbalance &&
  Rgeb (MarketEfficiencyRatio metrics) market_efficiency_ratio.

(** [checkSellConditions] returns (stopTriggered, reason, stopLoss,
    profit).  The local variables [stopTriggered], [reason] and [stopLoss]
    are assigned in sequence, as in the source: each [if] without [else]
    rebinds them or leaves them as they are. *)
Definition checkSellConditions (entryTime : time.Time)
    (entryPrice highestPrice currentPrice : R) (timestamp : time.Time)
    (metrics : MarketMetrics) : bool * string * R * R :=
  let trailingStopActivation := 1.0 in
  let profitTargetMultiplier := 2.5 in
  let trailingStopDistance := 1.5 in
  let trendStrengthThreshold := - 7.0 in
  let minProfit := 0.3 in
  let profit := currentPrice / entryPrice - 1 in
  let stopTriggered := false in
  let reason := "" in
  let atr := ATR metrics in
  let atr :=
    if Rltb atr (currentPrice * 0.001) then currentPrice * 0.001 else atr in
  let stopDistance := trailingStopDistance * atr in
  let profitDistance := stopDistance * profitTargetMultiplier in
  let stopLoss := currentPrice - stopDistance in
  let takeProfit := currentPrice + profitDistance in
  let '(stopTriggered, reason) :=
    if Rleb currentPrice stopLoss then (true, "stop_loss")
    else (stopTriggered, reason) in
  let '(stopTriggered, reason) :=
    if Rgeb currentPrice takeProfit then (true, "take_profit")
    else (stopTriggered, reason) in
  let activationThreshold := trailingStopActivation / 100 in
  let stopLoss :=
    if Rgeb profit activationThreshold then
      let trailDistance :=
        trailingStopActivation * (ATR metrics / highestPrice) in
      let trailLevel := highestPrice * (1 - trailDistance) in
      if Rgtb trailLevel stopLoss then trailLevel else stopLoss
    else stopLoss in
  let '(stopTriggered, reason) :=
    if negb (time.IsZero entryTime) then
      let tradeDuration := time.Hours (time.Sub timestamp entryTime) in
      if Rgtb tradeDuration 4 && Rgeb profit (minProfit / 100)
      then (true, "time_exit")
      else (stopTriggered, reason)
    else (stopTriggered, reason) in
  let '(stopTriggered, reason) :=
    if Rltb (TrendStrength metrics) trendStrengthThreshold
       && Rgeb profit (minProfit / 100)
    then (true, "trend_reversal")
    else (stopTriggered, reason) in
  (stopTriggered, reason, stopLoss, profit).

Definition checkEntryConditions (s : Strategy) (price : R)
    (timestamp : time.Time) (metrics : MarketMetrics)
    : option Signal * Strategy :=
  if checkBuyConditions metrics then
    let t := activeTrade s in
    let t' := {|
      Active := true;
      Direction := "buy";
      EntryPrice := price;
      EntryTime := timestamp;
      HighestPrice := price;
      LowestPrice := price;
      StopLoss := StopLoss t;
      CurrentPnL := CurrentPnL t
    |} in
    (Some (NewBuySignal price timestamp metrics), {| activeTrade := t' |})
  else (None, s).

Definition setHighestPrice (t : TradeData) (v : R) : TradeData := {|
  Active := Active t; Direction := Direction t;
  EntryPrice := EntryPrice t; EntryTime := EntryTime t;
  HighestPrice := v; LowestPrice := LowestPrice t;
  StopLoss := StopLoss t; CurrentPnL := CurrentPnL t
|}.

Definition setLowestPrice (t : TradeData) (v : R) : TradeData := {|
  Active := Active t; Direction := Direction t;
  EntryPrice := EntryPrice t; EntryTime := EntryTime t;
  HighestPrice := HighestPrice t; LowestPrice := v;
  StopLoss := StopLoss t; CurrentPnL := CurrentPnL t
|}.

Definition setActive (t : TradeData) (v : bool) : TradeData := {|
  Active := v; Direction := Direction t;
  EntryPrice := EntryPrice t; EntryTime := EntryTime t;
  HighestPrice := HighestPrice t; LowestPrice := LowestPrice t;
  StopLoss := StopLoss t; CurrentPnL := CurrentPnL t
|}.

Definition setStopLoss (t : TradeData) (v : R) : TradeData := {|
  Active := Active t; Direction := Direction t;
  EntryPrice := EntryPrice t; EntryTime := EntryTime t;
  HighestPrice := HighestPrice t; LowestPrice := LowestPrice t;
  StopLoss := v; CurrentPnL := CurrentPnL t
|}.

Definition checkExitConditions (s : Strategy) (price : R)
    (timestamp : time.Time) (metrics : MarketMetrics)
    : option Signal * Strategy :=
  let t := activeTrade s in
  let t :=
    if Rgtb price (HighestPrice t) then setHighestPrice t price else t in
  let t :=
    if Rltb price (LowestPrice t) then setLowestPrice t price else t in
  let '(stopTriggered, reason, stopLoss, profit) :=
    checkSellConditions (EntryTime t) (EntryPrice t) (HighestPrice t)
      price timestamp metrics in
  if stopTriggered then
    let signal :=
      NewSellSignal price timestamp reason (profit * 100) stopLoss in
    (Some signal, {| activeTrade := setActive t false |})
  else (None, {| activeTrade := t |}).

Definition GenerateSignal (s : Strategy) (price : R)
    (timestamp : time.Time) (metrics : MarketMetrics)
    : option Signal * Strategy :=
  if Active (activeTrade s)
  then checkExitConditions s price timestamp metrics
  else checkEntryConditions s price timestamp metrics.

Definition IsActiveTrade (s : Strategy) : bool := Active (activeTrade s).

Definition UpdateStopLoss (s : Strategy) (newStopLoss : R) : Strategy :=
  if Active (activeTrade s) && Rgtb newStopLoss 0
  then {| activeTrade := setStopLoss (activeTrade s) newStopLoss |}
  else s.

(** *** The levels and exit predicates of one evaluation

    The names below are the sub-expressions of [checkSellConditions] the
    specification speaks about. *)

Definition profitOf (entryPrice currentPrice : R) : R :=
  currentPrice / entryPrice - 1.

Definition effectiveATR (currentPrice : R) (metrics : MarketMetrics) : R :=
  Rmax (ATR metrics) (0.001 * currentPrice).

Definition stopDistanceOf (currentPrice : R) (metrics : MarketMetrics) : R :=
  1.5 * effectiveATR currentPrice metrics.

Definition floatingStopLoss (currentPrice : R) (metrics : MarketMetrics) : R :=
  currentPrice - stopDistanceOf currentPrice metrics.

Definition floatingTakeProfit (currentPrice : R) (metrics : MarketMetrics)
    : R :=
  currentPrice + stopDistanceOf currentPrice metrics * 2.5.

Definition trailLevelOf (highestPrice : R) (metrics : MarketMetrics) : R :=
  highestPrice * (1 - 1.0 * (ATR metrics / highestPrice)).

Definition stopLossHit (currentPrice : R) (metrics : MarketMetrics) : bool :=
  Rleb currentPrice (floatingStopLoss currentPrice metrics).

Definition takeProfitHit (currentPrice : R) (metrics : MarketMetrics)
    : bool :=
  Rgeb currentPrice (floatingTakeProfit currentPrice metrics).

Definition timeExitDue (entryTime : time.Time) (entryPrice currentPrice : R)
    (timestamp : time.Time) : bool :=
  negb (time.IsZero entryTime)
  && (Rgtb (time.Hours (time.Sub timestamp entryTime)) 4
      && Rgeb (profitOf entryPrice currentPrice) (0.3 / 100)).

Definition trendReversed (entryPrice currentPrice : R)
    (metrics : MarketMetrics) : bool :=
  Rltb (TrendStrength metrics) (- 7.0)
  && Rgeb (profitOf entryPrice currentPrice) (0.3 / 100).

(** The stop-loss level an evaluation returns: the floating level, or
    the trailing level when the trailing stop is engaged and higher. *)
Definition returnedStopLoss (entryPrice highestPrice currentPrice : R)
    (metrics : MarketMetrics) : R :=
  if Rgeb (profitOf entryPrice currentPrice) (1.0 / 100)
     && Rgtb (trailLevelOf highestPrice metrics)
             (floatingStopLoss currentPrice metrics)
  then trailLevelOf highestPrice metrics
  else floatingStopLoss currentPrice metrics.

(** The reason left in the variable [reason] by assignments made in the
    order stop_loss, take_profit, time_exit, trend_reversal. *)
Definition lastTrueReason (sl tp te tr : bool) : string :=
  if tr then "trend_reversal"
  else if te then "time_exit"
  else if tp then "take_profit"
  else if sl then "stop_loss"
  else "".

(** The reason the specification names: the earliest true predicate. *)
Definition firstTrueReason (sl tp te tr : bool) : string :=
  if sl then "stop_loss"
  else if tp then "take_profit"
  else if te then "time_exit"
  else if tr then "trend_reversal"
  else "".

(** The highest price after the update at the head of
    [checkExitConditions]. *)
Definition newHighest (t : TradeData) (price : R) : R :=
  if Rgtb price (HighestPrice t) then price else HighestPrice t.

(** [GetActiveTradeData]: a copy of the trade record; the copy leaves
    [CurrentPnL] at its zero value and, for an active trade, sets it from the
    highest price, which the source uses in place of the current price. *)
Definition GetActiveTradeData (s : Strategy) : TradeData :=
  let tradeCopy := {|
    Active := Active (activeTrade s);
    Direction := Direction (activeTrade s);
    EntryPrice := EntryPrice (activeTrade s);
    EntryTime := EntryTime (activeTrade s);
    HighestPrice := HighestPrice (activeTrade s);
    LowestPrice := LowestPrice (activeTrade s);
    StopLoss := StopLoss (activeTrade s);
    CurrentPnL := 0
  |} in
  if Active tradeCopy then
    let currentPrice := HighestPrice (activeTrade s) in
    {|
      Active := Active tradeCopy;
      Direction := Direction tradeCopy;
      EntryPrice := EntryPrice tradeCopy;
      EntryTime := EntryTime tradeCopy;
      HighestPrice := HighestPrice tradeCopy;
      LowestPrice := LowestPrice tradeCopy;
      StopLoss := StopLoss tradeCopy;
      CurrentPnL := (currentPrice / EntryPrice (activeTrade s) - 1) * 100
    |}
  else tradeCopy.

(** The arguments of one [GenerateSignal] call. *)
Record Call := {
  callPrice : R;
  callTime : time.Time;
  callMetrics : MarketMetrics
}.

(** A sequence of [GenerateSignal] calls: what each returned, and the
    strategy after the last. *)
Fixpoint GenerateSignals (s : Strategy) (calls : list Call)
    : list (option Signal) * Strategy :=
  match calls with
  | [] => ([], s)
  | c :: rest =>
      let '(signal, s) :=
        GenerateSignal s (callPrice c) (callTime c) (callMetrics c) in
      let '(signals, s) := GenerateSignals s rest in
      (signal :: signals, s)
  end.

(** The actions of the signals emitted, in order. *)
Definition actionsOf (signals : list (option Signal)) : list string :=
  flat_map (fun o => match o with Some sig => [Action sig] | None => [] end)
    signals.

(** Actions that alternate, the first being [next]. *)
Fixpoint alternates (next : string) (actions : list string) : Prop :=
  match actions with
  | [] => True
  | a :: rest =>
      a = next
      /\ alternates (if String.eqb next "BUY" then "CLOSE" else "BUY") rest
  end.

(** The action of the next signal a strategy can emit. *)
Definition nextAction (s : Strategy) : string :=
  if Active (activeTrade s) then "CLOSE" else "BUY".

(** Two trade records that agree on every field but [StopLoss]. *)
Definition agreeExceptStopLoss (t1 t2 : TradeData) : Prop :=
  Active t1 = Active t2
  /\ Direction t1 = Direction t2
  /\ EntryPrice t1 = EntryPrice t2
  /\ EntryTime t1 = EntryTime t2
  /\ HighestPrice t1 = HighestPrice t2
  /\ LowestPrice t1 = LowestPrice t2
  /\ CurrentPnL t1 = CurrentPnL t2.

End strategy.

(** ** One tick through the store and the analyzer

    The analyzer reads the store it was constructed with.  A tick goes
    through both by the two public calls [md.AddTick(tick)] and
    [a.ProcessTick(tick)], in this order: it is the order in which the
    callback of the manager ([setupCallbacks]) means to run them.  Here the
    second call is made once the first has returned, on a store that has no
    tick callback.  The manager makes it from inside the first, where it
    waits for the mutex of the store: see [manager]. *)

Module pipeline.
Import types.

(** The state of a run: the store and the analyzer that reads it. *)
Record State := {
  store : market.MarketData;
  analysis : analyzer.Analyzer
}.

Definition initial : State := {|
  store := market.NewMarketData;
  analysis := analyzer.NewAnalyzer
|}.

(** [md.AddTick(tick)] followed by [a.ProcessTick(tick)], whose result
    is the metric snapshot of the tick. *)
Definition feed (st : State) (tick : TickData)
    : option (option MarketMetrics * State) :=
  md <- market.AddTick (store st) tick ;;
  '(snapshot, a) <- analyzer.ProcessTick (analysis st) md tick ;;
  Some (snapshot, {| store := md; analysis := a |}).

(** The snapshots of a tick sequence, tick for tick, and the final state. *)
Fixpoint run (st : State) (ticks : list TickData)
    : option (list (option MarketMetrics) * State) :=
  match ticks with
  | [] => Some ([], st)
  | tick :: rest =>
      '(snapshot, st) <- feed st tick ;;
      '(snapshots, st) <- run st rest ;;
      Some (snapshot :: snapshots, st)
  end.

(** [md.Reset()]: the only reset in the sources is that of the store; the
    analyzer has none and keeps its state. *)
Definition reset (st : State) : State := {|
  store := market.Reset (store st);
  analysis := analysis st
|}.

(** An operation on a running pipeline: a tick, or a [Reset()]. *)
Inductive Op :=
| Feed (tick : TickData)
| ResetStore.

(** A tick goes through [feed] and a reset through [reset]. *)
Definition step (st : State) (op : Op) : option State :=
  match op with
  | Feed tick => '(_, st) <- feed st tick ;; Some st
  | ResetStore => Some (reset st)
  end.

(** The states after each operation of a sequence, in order. *)
Fixpoint states (st : State) (ops : list Op) : option (list State) :=
  match ops with
  | [] => Some []
  | op :: rest =>
      st <- step st op ;;
      sts <- states st rest ;;
      Some (st :: sts)
  end.

(** The trend-strength window after [calculateMetrics] has put a value
    in, and the average it then reports. *)
Definition nextWindow (window : list R) (trendStrength : R) : list R :=
  (if (len window >=? 20)%Z then tl window else window) ++ [trendStrength].

Definition averageOf (window : list R) : R :=
  if (len window >=? 7)%Z then sumLoop window / IZR (len window) else 0.0.

(** The metrics [calculateMetrics] derives from the store alone, given
    the ATR and the average trend strength. *)
Definition storeMetrics (md : market.MarketData) (atr avg : R)
    : MarketMetrics :=
  let prices := market.GetPriceArray md in
  let returns := analyzer.returnsOf prices in
  {|
    RealizedVolatility :=
      stats.StandardDeviation returns * sqrt (252 * 1440) * 100;
    ATR := atr;
    RelativeStrength := analyzer.calculateRelativeStrength returns;
    OrderImbalance := analyzer.calculateOrderImbalance md;
    TrendStrength := analyzer.calculateTrendStrength prices;
    AvgTrendStrength := avg;
    MarketEfficiencyRatio := analyzer.calculateMarketEfficiencyRatio prices
  |}.

(** Two snapshots agree except, possibly, on the average trend strength. *)
Definition agreeExceptAverage (s1 s2 : option MarketMetrics) : Prop :=
  match s1, s2 with
  | None, None => True
  | Some m1, Some m2 =>
      RealizedVolatility m1 = RealizedVolatility m2
      /\ ATR m1 = ATR m2
      /\ RelativeStrength m1 = RelativeStrength m2
      /\ OrderImbalance m1 = OrderImbalance m2
      /\ TrendStrength m1 = TrendStrength m2
      /\ MarketEfficiencyRatio m1 = MarketEfficiencyRatio m2
  | _, _ => False
  end.

(** The price, high and low sequences of a store have one length. *)
Definition synchronized (md : market.MarketData) : Prop :=
  len (market.highPrices md) = len (market.priceHistory md)
  /\ len (market.lowPrices md) = len (market.priceHistory md).

End pipeline.

(** ** [sync.RWMutex]

    The mutex of the store, as one goroutine meets it.  [Lock] waits while
    the mutex is held by a writer or by readers, [RLock] while it is held by
    a writer; the mutex is not reentrant.  A call that has to wait is
    [None]. *)

Module sync.

Record RWMutex := {
  writer : bool;
  readers : nat
}.

Definition free : RWMutex := {| writer := false; readers := 0 |}.

Definition Lock (mu : RWMutex) : option RWMutex :=
  if writer mu || negb (Nat.eqb (readers mu) 0) then None
  else Some {| writer := true; readers := 0 |}.

Definition Unlock (mu : RWMutex) : RWMutex :=
  {| writer := false; readers := readers mu |}.

Definition RLock (mu : RWMutex) : option RWMutex :=
  if writer mu then None
  else Some {| writer := false; readers := S (readers mu) |}.

Definition RUnlock (mu : RWMutex) : RWMutex :=
  {| writer := writer mu; readers := Nat.pred (readers mu) |}.

End sync.

(** ** Package [manager]

    The manager wires the three components: [Initialize] constructs them
    and [setupCallbacks] sets the tick callback of the store.  [AddTick]
    takes the write lock of the store, updates the histories and calls the
    callback before the deferred [Unlock]; the callback runs the analyzer,
    which reads the store through its read lock, and, once there is a
    snapshot and the warmup is complete, the strategy.  [processSignal]
    only logs and is left out, as are the modes that open connections and
    files. *)

Module manager.
Import types.

(** What a call does: it returns, it panics, or it waits for a lock.  The
    locks below are held by the goroutine that waits, so a call that blocks
    does not return. *)
Inductive Outcome (A : Type) : Type :=
| Returns (a : A)
| Panics
| Blocks.

Arguments Returns {A} a.
Arguments Panics {A}.
Arguments Blocks {A}.

(** The store as the manager holds it, with its mutex [md.mutex] and
    whether [md.tickCallback] is set, the analyzer and the strategy. *)
Record Manager := {
  market : market.MarketData;
  mutex : sync.RWMutex;
  callback : bool;
  analyzer : analyzer.Analyzer;
  strategy : strategy.Strategy;
  running : bool
}.

(** The manager after [Initialize]: new components, the mutex free and
    the callback set. *)
Definition Initialize : Manager := {|
  market := market.NewMarketData;
  mutex := sync.free;
  callback := true;
  analyzer := analyzer.NewAnalyzer;
  strategy := strategy.NewStrategy;
  running := false
|}.

(** The store and the analyzer of a manager, as a pipeline state. *)
Definition stateOf (m : Manager) : pipeline.State := {|
  pipeline.store := market m;
  pipeline.analysis := analyzer m
|}.

(** A read accessor of the store ([HasMinimumData], [GetPriceArray], ...):
    [RLock], the read, [RUnlock]; the mutex is afterwards as before. *)
Definition reading {A : Type} (mu : sync.RWMutex) (value : A) : Outcome A :=
  match sync.RLock mu with
  | Some _ => Returns value
  | None => Blocks
  end.

(** [ProcessTick] on a store whose mutex is in state [mu].  Its first
    statement reads the store ([HasMinimumData(20)]); when that read goes
    through, so does every later one, the mutex being as before. *)
Definition ProcessTick (mu : sync.RWMutex) (a : analyzer.Analyzer)
    (md : market.MarketData) (tick : TickData)
    : Outcome (option MarketMetrics * analyzer.Analyzer) :=
  match reading mu (market.HasMinimumData md 20) with
  | Returns _ =>
      match analyzer.ProcessTick a md tick with
      | Some result => Returns result
      | None => Panics
      end
  | Panics => Panics
  | Blocks => Blocks
  end.

(** The callback of [setupCallbacks], called by [AddTick] with the
    histories updated and the mutex of the store in state [mu]: it returns
    the signal it passes to [processSignal], if any. *)
Definition tickCallback (mu : sync.RWMutex) (m : Manager) (tick : TickData)
    : Outcome (option Signal * Manager) :=
  match ProcessTick mu (analyzer m) (market m) tick with
  | Returns (metrics, a) =>
      match metrics with
      | Some metrics =>
          if analyzer.HasSufficientData a then
            let '(signal, s) :=
              strategy.GenerateSignal (strategy m) (Price tick)
                (Timestamp tick) metrics in
            Returns (signal,
                     {| market := market m; mutex := mutex m;
                        callback := callback m; analyzer := a;
                        strategy := s; running := running m |})
          else
            Returns (None,
                     {| market := market m; mutex := mutex m;
                        callback := callback m; analyzer := a;
                        strategy := strategy m; running := running m |})
      | None =>
          Returns (None,
                   {| market := market m; mutex := mutex m;
                      callback := callback m; analyzer := a;
                      strategy := strategy m; running := running m |})
      end
  | Panics => Panics
  | Blocks => Blocks
  end.

(** [AddTick] on the store of the manager: [Lock], the update of the
    histories, the callback if there is one, and the deferred [Unlock]. *)
Definition onTick (m : Manager) (tick : TickData)
    : Outcome (option Signal * Manager) :=
  match sync.Lock (mutex m) with
  | None => Blocks
  | Some held =>
      match market.AddTick (market m) tick with
      | None => Panics
      | Some md =>
          if callback m then
            match
              tickCallback held
                {| market := md; mutex := held; callback := callback m;
                   analyzer := analyzer m; strategy := strategy m;
                   running := running m |}
                tick
            with
            | Returns (signal, m') =>
                Returns (signal,
                         {| market := market m'; mutex := sync.Unlock held;
                            callback := callback m'; analyzer := analyzer m';
                            strategy := strategy m'; running := running m' |})
            | Panics => Panics
            | Blocks => Blocks
            end
          else
            Returns (None,
                     {| market := md; mutex := sync.Unlock held;
                        callback := callback m; analyzer := analyzer m;
                        strategy := strategy m; running := running m |})
      end
  end.

(** The signals of a tick sequence, tick for tick, and the manager after
    the last. *)
Fixpoint onTicks (m : Manager) (ticks : list TickData)
    : Outcome (list (option Signal) * Manager) :=
  match ticks with
  | [] => Returns ([], m)
  | tick :: rest =>
      match onTick m tick with
      | Returns (signal, m) =>
          match onTicks m rest with
          | Returns (signals, m) => Returns (signal :: signals, m)
          | Panics => Panics
          | Blocks => Blocks
          end
      | Panics => Panics
      | Blocks => Blocks
      end
  end.

End manager.

(** ** Concrete inputs used by the examples below *)

Module scenario.
Import types strategy.
Local Open Scope string_scope.

(** Metrics that meet every buy condition, with ATR = 1. *)
Definition entryMetrics : MarketMetrics := {|
  RealizedVolatility := 0.5; ATR := 1; RelativeStrength := 0.5;
  OrderImbalance := 0.7; TrendStrength := 6; AvgTrendStrength := 4;
  MarketEfficiencyRatio := 0.95
|}.

(** Metrics of a reversed trend, with ATR = 1. *)
Definition reversalMetrics : MarketMetrics := {|
  RealizedVolatility := 0.5; ATR := 1; RelativeStrength := 0.5;
  OrderImbalance := 0.5; TrendStrength := - 8; AvgTrendStrength := 0;
  MarketEfficiencyRatio := 0.5
|}.

(** One second after the zero time, and the seconds and hours after it. *)
Definition t0 : time.Time := 1000000000%Z.
Definition t1 : time.Time := 2000000000%Z.
Definition t2 : time.Time := 3000000000%Z.
Definition t3 : time.Time := 4000000000%Z.
Definition fiveHoursAfter_t0 : time.Time := 18001000000000%Z.

(** The position opened at price 100 at [t0]. *)
Definition enteredAt100 : Strategy := {| activeTrade := {|
  Active := true; Direction := "buy"; EntryPrice := 100; EntryTime := t0;
  HighestPrice := 100; LowestPrice := 100; StopLoss := 0; CurrentPnL := 0
|} |}.

(** The same position after the price has been at 102. *)
Definition risenTo102 : Strategy := {| activeTrade := {|
  Active := true; Direction := "buy"; EntryPrice := 100; EntryTime := t0;
  HighestPrice := 102; LowestPrice := 100; StopLoss := 0; CurrentPnL := 0
|} |}.

(** Thirty rising and thirty falling prices. *)
Definition risingPrices : list R :=
  [100; 101; 102; 103; 104; 105; 106; 107; 108; 109;
   110; 111; 112; 113; 114; 115; 116; 117; 118; 119;
   120; 121; 122; 123; 124; 125; 126; 127; 128; 129].

Definition fallingPrices : list R := rev risingPrices.

(** A bid of volume -1 and an ask of volume 2, both at price 100. *)
Definition negativeBid : TickData :=
  {| Price := 100; Volume := - 1; IsAsk := false; Timestamp := t0 |}.

Definition positiveAsk : TickData :=
  {| Price := 100; Volume := 2; IsAsk := true; Timestamp := t1 |}.

(** Thirty ticks at the rising prices, all bids of volume 1. *)
Definition tickAt (p : R) : TickData :=
  {| Price := p; Volume := 1; IsAsk := false; Timestamp := t0 |}.

Definition risingTicks : list TickData := map tickAt risingPrices.

(** A store filled to its capacity of 1000 by ticks at price 100 and
    volume 1, asks and bids, with three decimals. *)
Definition fullStore : market.MarketData := {|
  market.priceHistory := repeat 100 1000;
  market.volumeHistory := repeat 1 1000;
  market.bidVolume := repeat 1 1000;
  market.askVolume := repeat 1 1000;
  market.timeStamps := repeat t0 1000;
  market.highPrices := repeat 100 1000;
  market.lowPrices := repeat 100 1000;
  market.maxSize := 1000;
  market.roundNum := 3;
  market.prevPrice := 100
|}.

(** An ask of volume 2 at price 101. *)
Definition askAt101 : TickData :=
  {| Price := 101; Volume := 2; IsAsk := true; Timestamp := t1 |}.

(** A new analyzer on a store that holds 299 bids at price 100: one tick
    short of the default warmup threshold. *)
Definition oneTickShort : pipeline.State := {|
  pipeline.store := {|
    market.priceHistory := repeat 100 299;
    market.volumeHistory := repeat 1 299;
    market.bidVolume := repeat 1 299;
    market.askVolume := [];
    market.timeStamps := repeat t0 299;
    market.highPrices := repeat 100 299;
    market.lowPrices := repeat 100 299;
    market.maxSize := 1000;
    market.roundNum := 3;
    market.prevPrice := 100
  |};
  pipeline.analysis := analyzer.NewAnalyzer
|}.

(** A store that holds twenty bids at price 100. *)
Definition twentyPrices : market.MarketData := {|
  market.priceHistory := repeat 100 20;
  market.volumeHistory := repeat 1 20;
  market.bidVolume := repeat 1 20;
  market.askVolume := [];
  market.timeStamps := repeat t0 20;
  market.highPrices := repeat 100 20;
  market.lowPrices := repeat 100 20;
  market.maxSize := 1000;
  market.roundNum := 3;
  market.prevPrice := 100
|}.

(** New components wired without the tick callback: the store is fed and
    the analyzer called one after the other. *)
Definition withoutCallback : manager.Manager := {|
  manager.market := market.NewMarketData;
  manager.mutex := sync.free;
  manager.callback := false;
  manager.analyzer := analyzer.NewAnalyzer;
  manager.strategy := strategy.NewStrategy;
  manager.running := false
|}.


(** An analyzer configured with a warmup of 5 ticks, on a new store. *)
Definition shortWarmup : pipeline.State := {|
  pipeline.store := market.NewMarketData;
  pipeline.analysis := analyzer.SetWarmupTicks analyzer.NewAnalyzer 5
|}.

End scenario.

(** * Properties *)

(** ** Comparisons *)

Lemma Rltb_true (x y : R) : Rltb x y = true <-> x < y.
Proof. unfold Rltb; destruct (Rlt_dec x y); split; intros; try easy. Qed.

Lemma Rltb_false (x y : R) : Rltb x y = false <-> y <= x.
Proof.
  unfold Rltb; destruct (Rlt_dec x y); split; intros; try easy; lra.
Qed.

Lemma Rleb_true (x y : R) : Rleb x y = true <-> x <= y.
Proof. unfold Rleb; destruct (Rle_dec x y); split; intros; try easy. Qed.

Lemma Rleb_false (x y : R) : Rleb x y = false <-> y < x.
Proof.
  unfold Rleb; destruct (Rle_dec x y); split; intros; try easy; lra.
Qed.

Lemma Rgtb_true (x y : R) : Rgtb x y = true <-> x > y.
Proof. unfold Rgtb; rewrite Rltb_true; lra. Qed.

Lemma Rgtb_false (x y : R) : Rgtb x y = false <-> x <= y.
Proof. unfold Rgtb; rewrite Rltb_false; lra. Qed.

Lemma Rgeb_true (x y : R) : Rgeb x y = true <-> x >= y.
Proof. unfold Rgeb; rewrite Rleb_true; lra. Qed.

Lemma Rgeb_false (x y : R) : Rgeb x y = false <-> x < y.
Proof. unfold Rgeb; rewrite Rleb_false; lra. Qed.

Lemma Reqb_true (x y : R) : Reqb x y = true <-> x = y.
Proof. unfold Reqb; destruct (Req_dec_T x y); split; intros; try easy. Qed.

Lemma Reqb_false (x y : R) : Reqb x y = false <-> x <> y.
Proof. unfold Reqb; destruct (Req_dec_T x y); split; intros; try easy. Qed.

(** [decide_cmp] settles every comparison of the goal whose operands are
    given numbers, by linear arithmetic. *)
Ltac decide_cmp :=
  repeat match goal with
  | |- context [Rltb ?x ?y] =>
      first [ replace (Rltb x y) with true by (symmetry; apply Rltb_true; lra)
            | replace (Rltb x y) with false by (symmetry; apply Rltb_false; lra) ]
  | |- context [Rleb ?x ?y] =>
      first [ replace (Rleb x y) with true by (symmetry; apply Rleb_true; lra)
            | replace (Rleb x y) with false by (symmetry; apply Rleb_false; lra) ]
  | |- context [Rgtb ?x ?y] =>
      first [ replace (Rgtb x y) with true by (symmetry; apply Rgtb_true; lra)
            | replace (Rgtb x y) with false by (symmetry; apply Rgtb_false; lra) ]
  | |- context [Rgeb ?x ?y] =>
      first [ replace (Rgeb x y) with true by (symmetry; apply Rgeb_true; lra)
            | replace (Rgeb x y) with false by (symmetry; apply Rgeb_false; lra) ]
  end.

Ltac eval_rmax :=
  repeat match goal with
  | |- context [Rmax ?x ?y] =>
      first [ rewrite (Rmax_left x y) by lra
            | rewrite (Rmax_right x y) by lra ]
  end.

(** ** Durations *)

Lemma Hours_exact (d : time.Duration) :
  time.Hours d = IZR d / 3600000000000.
Proof.
  unfold time.Hours. cbv zeta.
  rewrite (Z.quot_rem' d time.Hour) at 3.
  rewrite plus_IZR, mult_IZR. unfold time.Hour.
  replace (IZR (60 * 60 * 1000000000)) with 3600000000000
    by (change (60 * 60 * 1000000000)%Z with 3600000000000%Z; reflexivity).
  lra.
Qed.

Lemma Sub_in_range (t u : time.Time) :
  (time.minDuration <= t - u <= time.maxDuration)%Z ->
  time.Sub t u = (t - u)%Z.
Proof.
  intros H. unfold time.Sub. cbv zeta.
  destruct (Z.ltb_spec (t - u) time.minDuration); [lia|].
  destruct (Z.ltb_spec time.maxDuration (t - u)); [lia|reflexivity].
Qed.

(** ** The exit decision of the strategy *)

Section ExitDecision.
Import types strategy.
Local Open Scope string_scope.

Lemma atr_floor_max (a p : R) :
  (if Rltb a (p * 0.001) then p * 0.001 else a) = Rmax a (0.001 * p).
Proof.
  unfold Rltb, Rmax.
  destruct (Rlt_dec a (p * 0.001)), (Rle_dec a (0.001 * p)); lra.
Qed.

(** [checkSellConditions] in terms of the four exit predicates: the flag is
    their disjunction and the reason is the one assigned last. *)
Lemma checkSellConditions_spec (entryTime : time.Time)
    (entryPrice highestPrice currentPrice : R) (timestamp : time.Time)
    (metrics : MarketMetrics) :
  checkSellConditions entryTime entryPrice highestPrice currentPrice
    timestamp metrics =
  (stopLossHit currentPrice metrics || takeProfitHit currentPrice metrics
   || timeExitDue entryTime entryPrice currentPrice timestamp
   || trendReversed entryPrice currentPrice metrics,
   lastTrueReason (stopLossHit currentPrice metrics)
     (takeProfitHit currentPrice metrics)
     (timeExitDue entryTime entryPrice currentPrice timestamp)
     (trendReversed entryPrice currentPrice metrics),
   returnedStopLoss entryPrice highestPrice currentPrice metrics,
   profitOf entryPrice currentPrice).
Proof.
  unfold checkSellConditions, stopLossHit, takeProfitHit, timeExitDue,
    trendReversed, returnedStopLoss, lastTrueReason, floatingStopLoss,
    floatingTakeProfit, trailLevelOf, stopDistanceOf, effectiveATR, profitOf.
  cbv zeta. rewrite atr_floor_max.
  destruct (Rleb _ _); destruct (Rgeb currentPrice _);
    destruct (Rgeb _ (1.0 / 100)); destruct (Rgtb (highestPrice * _) _);
    destruct (negb _); destruct (Rgtb (time.Hours _) _);
    destruct (Rgeb _ (0.3 / 100)); destruct (Rltb _ _);
    reflexivity.
Qed.

(** On an open position [GenerateSignal] is [checkExitConditions], whose
    outcome is decided by the four exit predicates. *)
Lemma GenerateSignal_open (s : Strategy) (price : R) (timestamp : time.Time)
    (metrics : MarketMetrics) :
  Active (activeTrade s) = true ->
  let t := activeTrade s in
  let t1 :=
    if Rgtb price (HighestPrice t) then setHighestPrice t price else t in
  let t2 :=
    if Rltb price (LowestPrice t1) then setLowestPrice t1 price else t1 in
  let sl := stopLossHit price metrics in
  let tp := takeProfitHit price metrics in
  let te := timeExitDue (EntryTime t) (EntryPrice t) price timestamp in
  let tr := trendReversed (EntryPrice t) price metrics in
  GenerateSignal s price timestamp metrics =
  if sl || tp || te || tr then
    (Some (NewSellSignal price timestamp (lastTrueReason sl tp te tr)
             (profitOf (EntryPrice t) price * 100)
             (returnedStopLoss (EntryPrice t) (newHighest t price) price
                metrics)),
     {| activeTrade := setActive t2 false |})
  else (None, {| activeTrade := t2 |}).
Proof.
  intros Hact. cbv zeta.
  unfold GenerateSignal. rewrite Hact.
  unfold checkExitConditions. cbv zeta.
  rewrite checkSellConditions_spec.
  unfold newHighest.
  destruct (Rgtb price (HighestPrice (activeTrade s)));
    destruct (Rltb price _); reflexivity.
Qed.

(** With a positive price the stop distance is positive, so the price is
    strictly between the two floating levels. *)
Lemma stopDistance_pos (price : R) (metrics : MarketMetrics) :
  0 < price -> 0 < stopDistanceOf price metrics.
Proof.
  intros Hp. unfold stopDistanceOf, effectiveATR.
  pose proof (Rmax_r (ATR metrics) (0.001 * price)). lra.
Qed.

Lemma stopLossHit_positive_price (price : R) (metrics : MarketMetrics) :
  0 < price -> stopLossHit price metrics = false.
Proof.
  intros Hp. unfold stopLossHit, floatingStopLoss.
  pose proof (stopDistance_pos price metrics Hp).
  apply Rleb_false. lra.
Qed.

Lemma takeProfitHit_positive_price (price : R) (metrics : MarketMetrics) :
  0 < price -> takeProfitHit price metrics = false.
Proof.
  intros Hp. unfold takeProfitHit, floatingTakeProfit.
  pose proof (stopDistance_pos price metrics Hp).
  apply Rgeb_false. lra.
Qed.

(** Neither branch of [GenerateSignal] writes the [StopLoss] field. *)
Lemma GenerateSignal_keeps_StopLoss (s : Strategy) (price : R)
    (timestamp : time.Time) (metrics : MarketMetrics) :
  StopLoss (activeTrade (snd (GenerateSignal s price timestamp metrics)))
  = StopLoss (activeTrade s).
Proof.
  unfold GenerateSignal, checkExitConditions, checkEntryConditions.
  cbv zeta.
  destruct (Active (activeTrade s)).
  - destruct (Rgtb price _); destruct (Rltb price _);
      destruct (checkSellConditions _ _ _ _ _ _) as [[[[] ?] ?] ?];
      reflexivity.
  - destruct (checkBuyConditions metrics); reflexivity.
Qed.

End ExitDecision.

(** ** Claims about the exit decision *)

Section ExitClaims.
Import types strategy scenario.
Local Open Scope string_scope.

(** Evaluation of the predicates on given numbers. *)
Ltac eval_levels :=
  unfold stopLossHit, takeProfitHit, trendReversed, returnedStopLoss,
    floatingStopLoss, floatingTakeProfit, trailLevelOf, stopDistanceOf,
    effectiveATR, profitOf, newHighest;
  simpl; eval_rmax; decide_cmp; simpl.

Ltac eval_elapsed :=
  unfold timeExitDue, profitOf;
  rewrite Hours_exact, Sub_in_range by (vm_compute; split; discriminate);
  match goal with
  | |- context [IZR (?a - ?b)] =>
      let d := eval vm_compute in (a - b)%Z in
      change (a - b)%Z with d
  end;
  simpl; decide_cmp; simpl.

Lemma no_time_exit_within_the_hour (price : R) (t : time.Time) :
  In t [t1; t2; t3] -> timeExitDue t0 100 price t = false.
Proof.
  intros Ht. unfold timeExitDue.
  assert (H : Rgtb (time.Hours (time.Sub t t0)) 4 = false).
  { simpl in Ht.
    destruct Ht as [<-|[<-|[<-|[]]]];
      rewrite Hours_exact, Sub_in_range by (vm_compute; split; discriminate);
      match goal with
      | |- context [IZR (?a - ?b)] =>
          let d := eval vm_compute in (a - b)%Z in
          change (a - b)%Z with d
      end; decide_cmp; reflexivity. }
  rewrite H. destruct (negb _); reflexivity.
Qed.

(** C1 (amended): on an open position a CLOSE signal is emitted exactly
    when one of the four exit predicates is true, and it carries the reason
    of the last true predicate in the order stop_loss, take_profit,
    time_exit, trend_reversal. *)
Theorem close_reason_is_last_true (s : Strategy) (price : R)
    (timestamp : time.Time) (metrics : MarketMetrics) :
  Active (activeTrade s) = true ->
  let t := activeTrade s in
  let sl := stopLossHit price metrics in
  let tp := takeProfitHit price metrics in
  let te := timeExitDue (EntryTime t) (EntryPrice t) price timestamp in
  let tr := trendReversed (EntryPrice t) price metrics in
  match fst (GenerateSignal s price timestamp metrics) with
  | Some signal =>
      Action signal = "CLOSE"
      /\ sl || tp || te || tr = true
      /\ Reason signal = lastTrueReason sl tp te tr
  | None => sl || tp || te || tr = false
  end.
Proof.
  intros Hact. cbv zeta.
  rewrite (GenerateSignal_open s price timestamp metrics Hact). cbv zeta.
  destruct (_ || _ || _ || _) eqn:E; simpl; auto.
Qed.

Lemma close_reason_is_last_true_witness :
  Active (activeTrade enteredAt100) = true
  /\ let t := activeTrade enteredAt100 in
     let sl := stopLossHit 101 reversalMetrics in
     let tp := takeProfitHit 101 reversalMetrics in
     let te :=
       timeExitDue (EntryTime t) (EntryPrice t) 101 fiveHoursAfter_t0 in
     let tr := trendReversed (EntryPrice t) 101 reversalMetrics in
     match fst (GenerateSignal enteredAt100 101 fiveHoursAfter_t0
                  reversalMetrics) with
     | Some signal =>
         Action signal = "CLOSE"
         /\ sl || tp || te || tr = true
         /\ Reason signal = lastTrueReason sl tp te tr
     | None => sl || tp || te || tr = false
     end.
Proof.
  split.
  - reflexivity.
  - exact (close_reason_is_last_true enteredAt100 101 fiveHoursAfter_t0
             reversalMetrics eq_refl).
Defined.

(** C1 (as stated, refuted): five hours after entry, at a profit of 1% and
    a trend strength of -8, both time_exit and trend_reversal are true; the
    earliest true predicate is time_exit, and the CLOSE signal carries
    trend_reversal. *)
Lemma close_reason_is_not_first_true :
  let t := activeTrade enteredAt100 in
  let sl := stopLossHit 101 reversalMetrics in
  let tp := takeProfitHit 101 reversalMetrics in
  let te := timeExitDue (EntryTime t) (EntryPrice t) 101 fiveHoursAfter_t0 in
  let tr := trendReversed (EntryPrice t) 101 reversalMetrics in
  te = true /\ tr = true
  /\ firstTrueReason sl tp te tr = "time_exit"
  /\ option_map Reason
       (fst (GenerateSignal enteredAt100 101 fiveHoursAfter_t0
               reversalMetrics))
     = Some "trend_reversal"
  /\ option_map Reason
       (fst (GenerateSignal enteredAt100 101 fiveHoursAfter_t0
               reversalMetrics))
     <> Some (firstTrueReason sl tp te tr).
Proof.
  cbv zeta.
  assert (Hsl : stopLossHit 101 reversalMetrics = false)
    by (apply stopLossHit_positive_price; lra).
  assert (Htp : takeProfitHit 101 reversalMetrics = false)
    by (apply takeProfitHit_positive_price; lra).
  assert (Hte : timeExitDue (EntryTime (activeTrade enteredAt100))
                  (EntryPrice (activeTrade enteredAt100)) 101
                  fiveHoursAfter_t0 = true).
  { simpl. eval_elapsed. reflexivity. }
  assert (Htr : trendReversed (EntryPrice (activeTrade enteredAt100)) 101
                  reversalMetrics = true).
  { eval_levels. reflexivity. }
  rewrite (GenerateSignal_open enteredAt100 101 fiveHoursAfter_t0
             reversalMetrics eq_refl).
  cbv zeta. rewrite Hsl, Htp, Hte, Htr. simpl.
  repeat split; try reflexivity. discriminate.
Qed.

(** C4: on every tick evaluated on an open position at a positive price,
    the stop distance 1.5 * max(ATR, 0.001 * price) is positive, the
    stop-loss and take-profit levels are taken from the current price, the
    predicates price <= stopLoss and price >= takeProfit are both false,
    and a signal that is emitted carries time_exit or trend_reversal, never
    stop_loss or take_profit. *)
Theorem stop_loss_and_take_profit_never_emitted (s : Strategy) (price : R)
    (timestamp : time.Time) (metrics : MarketMetrics) :
  Active (activeTrade s) = true ->
  0 < price ->
  let stopDistance := 1.5 * Rmax (ATR metrics) (0.001 * price) in
  let stopLoss := price - stopDistance in
  let takeProfit := price + 2.5 * stopDistance in
  0 < stopDistance
  /\ stopDistanceOf price metrics = stopDistance
  /\ floatingStopLoss price metrics = stopLoss
  /\ floatingTakeProfit price metrics = takeProfit
  /\ Rleb price stopLoss = false
  /\ Rgeb price takeProfit = false
  /\ (forall entryTime entryPrice highestPrice,
        let reason :=
          snd (fst (fst (checkSellConditions entryTime entryPrice
                           highestPrice price timestamp metrics))) in
        reason <> "stop_loss" /\ reason <> "take_profit")
  /\ (forall signal,
        fst (GenerateSignal s price timestamp metrics) = Some signal ->
        Action signal = "CLOSE"
        /\ (Reason signal = "time_exit" \/ Reason signal = "trend_reversal")).
Proof.
  intros Hact Hp. cbv zeta.
  pose proof (stopDistance_pos price metrics Hp) as Hd.
  pose proof (stopLossHit_positive_price price metrics Hp) as Hsl.
  pose proof (takeProfitHit_positive_price price metrics Hp) as Htp.
  assert (Hlast : forall te tr,
            lastTrueReason false false te tr <> "stop_loss"
            /\ lastTrueReason false false te tr <> "take_profit")
    by (intros [] []; split; discriminate).
  repeat match goal with |- _ /\ _ => split end.
  - exact Hd.
  - reflexivity.
  - reflexivity.
  - unfold floatingTakeProfit, stopDistanceOf, effectiveATR. lra.
  - exact Hsl.
  - unfold takeProfitHit, floatingTakeProfit, stopDistanceOf, effectiveATR
      in Htp.
    rewrite <- Htp. f_equal. lra.
  - intros entryTime entryPrice highestPrice. cbv zeta.
    rewrite checkSellConditions_spec. simpl. rewrite Hsl, Htp.
    apply Hlast.
  - intros signal H.
    rewrite (GenerateSignal_open s price timestamp metrics Hact) in H.
    cbv zeta in H. rewrite Hsl, Htp in H. simpl in H.
    destruct (timeExitDue _ _ _ _) eqn:Ete;
      destruct (trendReversed _ _ _) eqn:Etr; simpl in H;
      try discriminate; injection H as <-; simpl; auto.
Qed.

Lemma stop_loss_and_take_profit_never_emitted_witness :
  Active (activeTrade enteredAt100) = true
  /\ 0 < 101
  /\ (forall signal,
        fst (GenerateSignal enteredAt100 101 fiveHoursAfter_t0
               reversalMetrics) = Some signal ->
        Action signal = "CLOSE"
        /\ (Reason signal = "time_exit" \/ Reason signal = "trend_reversal")).
Proof.
  split; [reflexivity|]. split; [lra|].
  apply (stop_loss_and_take_profit_never_emitted enteredAt100 101
           fiveHoursAfter_t0 reversalMetrics eq_refl).
  lra.
Defined.

(** Within the first seconds of the position of the scenario no exit
    predicate is true at a positive price: no signal is emitted and only
    the price extremes of the trade record may change. *)
Lemma scenario_tick_is_silent (s : Strategy) (price : R) (t : time.Time) :
  Active (activeTrade s) = true ->
  EntryTime (activeTrade s) = t0 ->
  EntryPrice (activeTrade s) = 100 ->
  In t [t1; t2; t3] ->
  0 < price ->
  fst (GenerateSignal s price t entryMetrics) = None.
Proof.
  intros Hact Ht He Hin Hp.
  rewrite (GenerateSignal_open s price t entryMetrics Hact). cbv zeta.
  rewrite Ht, He.
  rewrite (stopLossHit_positive_price price entryMetrics Hp).
  rewrite (takeProfitHit_positive_price price entryMetrics Hp).
  rewrite (no_time_exit_within_the_hour price t Hin).
  replace (trendReversed 100 price entryMetrics) with false; [reflexivity|].
  symmetry. unfold trendReversed. simpl.
  replace (Rltb 6 (- 7.0)) with false
    by (symmetry; apply Rltb_false; lra).
  reflexivity.
Qed.

Lemma scenario_tick (s : Strategy) (price : R) (t : time.Time)
    (s' : Strategy) :
  Active (activeTrade s) = true ->
  EntryTime (activeTrade s) = t0 ->
  EntryPrice (activeTrade s) = 100 ->
  In t [t1; t2; t3] ->
  0 < price ->
  (let tr := activeTrade s in
   let tr1 :=
     if Rgtb price (HighestPrice tr) then setHighestPrice tr price else tr in
   if Rltb price (LowestPrice tr1) then setLowestPrice tr1 price else tr1)
  = activeTrade s' ->
  GenerateSignal s price t entryMetrics = (None, s').
Proof.
  intros Hact Ht He Hin Hp Hs'.
  pose proof (scenario_tick_is_silent s price t Hact Ht He Hin Hp) as Hn.
  rewrite (GenerateSignal_open s price t entryMetrics Hact) in Hn |- *.
  cbv zeta in Hn, Hs' |- *.
  destruct (_ || _ || _ || _); [discriminate Hn|].
  rewrite Hs'. destruct s'; reflexivity.
Qed.

(** C2 (the code at the failing input): on the position entered at 100
    with ATR = 1, the tick at 102 engages the trailing stop and evaluates
    the stop-loss level 101; it emits nothing and leaves the StopLoss field
    of the trade at 0.  The next tick, at 100.5, evaluates the stop-loss
    level 99, below the level of the tick before, and the field is still
    0: the raised level is not kept. *)
Theorem trailing_stop_is_not_kept :
  let level1 :=
    snd (fst (checkSellConditions t0 100 102 102 t1 entryMetrics)) in
  let level2 :=
    snd (fst (checkSellConditions t0 100 102 100.5 t2 entryMetrics)) in
  level1 = trailLevelOf 102 entryMetrics
  /\ level1 = 101
  /\ GenerateSignal enteredAt100 102 t1 entryMetrics = (None, risenTo102)
  /\ StopLoss (activeTrade risenTo102) = 0
  /\ level2 = 99
  /\ level2 < level1
  /\ GenerateSignal risenTo102 100.5 t2 entryMetrics = (None, risenTo102)
  /\ (forall s price timestamp metrics,
        StopLoss (activeTrade (snd (GenerateSignal s price timestamp metrics)))
        = StopLoss (activeTrade s)).
Proof.
  cbv zeta. rewrite !checkSellConditions_spec. simpl.
  assert (H1 : returnedStopLoss 100 102 102 entryMetrics
               = trailLevelOf 102 entryMetrics) by (eval_levels; reflexivity).
  assert (H2 : trailLevelOf 102 entryMetrics = 101)
    by (unfold trailLevelOf; simpl; lra).
  assert (H3 : returnedStopLoss 100 102 100.5 entryMetrics = 99)
    by (eval_levels; lra).
  assert (S1 : GenerateSignal enteredAt100 102 t1 entryMetrics
               = (None, risenTo102)).
  { apply scenario_tick; try reflexivity; [simpl; auto | lra |].
    repeat (progress (simpl; decide_cmp)). reflexivity. }
  assert (S2 : GenerateSignal risenTo102 100.5 t2 entryMetrics
               = (None, risenTo102)).
  { apply scenario_tick; try reflexivity; [simpl; auto | lra |].
    repeat (progress (simpl; decide_cmp)). reflexivity. }
  rewrite H1, H2, H3.
  repeat split; try reflexivity; try assumption; try lra.
  apply GenerateSignal_keeps_StopLoss.
Qed.

(** C3 (the code at the failing input): from a fresh strategy, metrics
    with ATR = 1 that meet the buy conditions open a position at 100.  The
    tick at 100 has stopDistance 1.5, stopLoss 98.5 and takeProfit 103.75.
    The tick at 102 has a profit of 2%, engages the trailing stop and
    returns the stop-loss level 101 = highest * (1 - 1.0 * ATR / highest),
    above the floating level 100.5.  The tick at that level, 101, emits no
    signal: the position stays open. *)
Theorem scenario_no_close_at_raised_stop :
  GenerateSignal NewStrategy 100 t0 entryMetrics
  = (Some (NewBuySignal 100 t0 entryMetrics), enteredAt100)
  /\ stopDistanceOf 100 entryMetrics = 1.5
  /\ floatingStopLoss 100 entryMetrics = 98.5
  /\ floatingTakeProfit 100 entryMetrics = 103.75
  /\ GenerateSignal enteredAt100 100 t1 entryMetrics = (None, enteredAt100)
  /\ profitOf 100 102 = 0.02
  /\ floatingStopLoss 102 entryMetrics = 100.5
  /\ snd (fst (checkSellConditions t0 100 102 102 t2 entryMetrics))
     = trailLevelOf 102 entryMetrics
  /\ trailLevelOf 102 entryMetrics = 101
  /\ GenerateSignal enteredAt100 102 t2 entryMetrics = (None, risenTo102)
  /\ GenerateSignal risenTo102 101 t3 entryMetrics = (None, risenTo102)
  /\ Active (activeTrade risenTo102) = true.
Proof.
  repeat match goal with |- _ /\ _ => split end.
  - unfold GenerateSignal, checkEntryConditions, checkBuyConditions.
    simpl. decide_cmp. reflexivity.
  - eval_levels. lra.
  - eval_levels. lra.
  - eval_levels. lra.
  - apply scenario_tick; try reflexivity; [simpl; auto | lra |].
    repeat (progress (simpl; decide_cmp)). reflexivity.
  - unfold profitOf. lra.
  - eval_levels. lra.
  - rewrite checkSellConditions_spec. simpl. eval_levels. reflexivity.
  - unfold trailLevelOf. simpl. lra.
  - apply scenario_tick; try reflexivity; [simpl; auto | lra |].
    repeat (progress (simpl; decide_cmp)). reflexivity.
  - apply scenario_tick; try reflexivity; [simpl; auto | lra |].
    repeat (progress (simpl; decide_cmp)). reflexivity.
  - reflexivity.
Qed.

End ExitClaims.

(** ** The bounded histories of the store *)

Section StoreHistories.
Import types market.

Lemma len_app {A : Type} (s t : list A) : len (s ++ t) = (len s + len t)%Z.
Proof. unfold len. rewrite length_app. lia. Qed.

Lemma len_nonneg {A : Type} (s : list A) : (0 <= len s)%Z.
Proof. unfold len. lia. Qed.

Lemma len_repeat {A : Type} (x : A) (n : nat) :
  len (repeat x n) = Z.of_nat n.
Proof. unfold len. now rewrite repeat_length. Qed.

Lemma lastN_all {A : Type} (n : nat) (l : list A) :
  (List.length l <= n)%nat -> lastN n l = l.
Proof.
  intros H. unfold lastN. replace (List.length l - n)%nat with 0%nat by lia.
  reflexivity.
Qed.

Lemma length_lastN {A : Type} (n : nat) (l : list A) :
  List.length (lastN n l) = Nat.min n (List.length l).
Proof. unfold lastN. rewrite length_skipn. lia. Qed.

Lemma lastN_lastN_app {A : Type} (n : nat) (l l' : list A) :
  lastN n (lastN n l ++ l') = lastN n (l ++ l').
Proof.
  destruct (Nat.le_gt_cases (List.length l) n) as [H|H].
  - now rewrite (lastN_all n l H).
  - unfold lastN. rewrite !length_app, length_skipn.
    replace (List.length l - (List.length l - n) + List.length l' - n)%nat
      with (List.length l')%nat by lia.
    replace (List.length l + List.length l' - n)%nat
      with (List.length l' + (List.length l - n))%nat by lia.
    rewrite <- skipn_skipn. f_equal.
    rewrite skipn_app.
    replace (List.length l - n - List.length l)%nat with 0%nat by lia.
    reflexivity.
Qed.

Lemma lastN_app_long {A : Type} (n : nat) (p c : list A) :
  (n <= List.length c)%nat -> lastN n (p ++ c) = lastN n c.
Proof.
  intros H. unfold lastN. rewrite length_app, skipn_app.
  rewrite skipn_all2 by lia.
  replace (List.length p + List.length c - n - List.length p)%nat
    with (List.length c - n)%nat by lia.
  reflexivity.
Qed.

Lemma Forall2_nth_error {A B : Type} (P : A -> B -> Prop) (l1 : list A) :
  forall (l2 : list B) (i : nat) (a : A) (b : B),
  Forall2 P l1 l2 ->
  nth_error l1 i = Some a -> nth_error l2 i = Some b -> P a b.
Proof.
  induction l1 as [|x l1 IH]; intros l2 i a b H H1 H2.
  - destruct i; discriminate.
  - inversion H as [|? y ? l2' Hxy Hrest]; subst.
    destruct i as [|i]; simpl in H1, H2.
    + injection H1 as <-. injection H2 as <-. exact Hxy.
    + eapply IH; eauto.
Qed.

(** [s[1:]] drops the first element of a slice that has one. *)
Lemma slice_from_1 {A : Type} (x : A) (s : list A) :
  slice (x :: s) 1 (len (x :: s)) = Some s.
Proof.
  unfold slice, len. simpl List.length.
  replace ((0 <=? 1) && (1 <=? Z.of_nat (S (List.length s)))
           && (Z.of_nat (S (List.length s)) <=? Z.of_nat (S (List.length s))))%Z
    with true
    by (symmetry; rewrite !andb_true_iff, !Z.leb_le; lia).
  replace (Z.to_nat (Z.of_nat (S (List.length s)) - 1)) with (List.length s)
    by lia.
  change (Z.to_nat 1) with 1%nat. simpl skipn.
  now rewrite firstn_all.
Qed.

(** Below the capacity an insertion appends. *)
Lemma addToLimitedSlice_below {A : Type} (maxSize : Z) (s : list A)
    (value : A) :
  (len s < maxSize)%Z ->
  addToLimitedSlice maxSize s value = Some (s ++ [value]).
Proof.
  intros H. unfold addToLimitedSlice.
  destruct (Z.geb_spec (len s) maxSize); [lia|reflexivity].
Qed.

(** From the capacity on, an insertion drops the oldest element, keeps
    the others in their order and appends the new one. *)
Lemma addToLimitedSlice_full {A : Type} (maxSize : Z) (oldest : A)
    (s : list A) (value : A) :
  (maxSize <= len (oldest :: s))%Z ->
  addToLimitedSlice maxSize (oldest :: s) value = Some (s ++ [value]).
Proof.
  intros H. unfold addToLimitedSlice.
  destruct (Z.geb_spec (len (oldest :: s)) maxSize); [|lia].
  now rewrite slice_from_1.
Qed.

(** With a positive capacity an insertion never panics and keeps a
    sequence within the capacity. *)
Lemma addToLimitedSlice_bounded {A : Type} (maxSize : Z) (s : list A)
    (value : A) :
  (0 < maxSize)%Z ->
  (len s <= maxSize)%Z ->
  exists s',
    addToLimitedSlice maxSize s value = Some s'
    /\ (len s' <= maxSize)%Z
    /\ (exists older, s ++ [value] = older ++ s').
Proof.
  intros Hpos Hle.
  destruct (Z.lt_ge_cases (len s) maxSize) as [Hlt|Hge].
  - exists (s ++ [value]). rewrite addToLimitedSlice_below by assumption.
    split; [reflexivity|]. split.
    + rewrite len_app. unfold len at 2. simpl. lia.
    + now exists [].
  - destruct s as [|oldest s]; [unfold len in Hge; simpl in Hge; lia|].
    exists (s ++ [value]). rewrite addToLimitedSlice_full by assumption.
    split; [reflexivity|]. split.
    + rewrite len_app. unfold len in *. simpl in *. lia.
    + now exists [oldest].
Qed.

(** What one [AddTick] does to a store within its positive capacity. *)
Lemma AddTick_bounded (md : MarketData) (tick : TickData) :
  (0 < maxSize md)%Z ->
  withinCapacity md ->
  exists md',
    AddTick md tick = Some md'
    /\ maxSize md' = maxSize md
    /\ withinCapacity md'
    /\ roundNum md' =
       (if (roundNum md =? 0)%Z
        then Z.max 1 (Z.min 8 (6 - fmt.integerPartLen (Price tick)))
        else roundNum md)
    /\ (exists older,
          priceHistory md ++ [round (roundNum md') (Price tick)]
          = older ++ priceHistory md').
Proof.
  intros Hpos (Hp & Hv & Ht & Hh & Hl & Hb & Ha).
  unfold AddTick. cbv zeta.
  set (rp := if (roundNum md =? 0)%Z then _ else _).
  assert (Hrp : fst rp =
                if (roundNum md =? 0)%Z
                then Z.max 1 (Z.min 8 (6 - fmt.integerPartLen (Price tick)))
                else roundNum md)
    by (subst rp; destruct (roundNum md =? 0)%Z; reflexivity).
  destruct rp as [roundNum' prevPrice']. simpl in Hrp.
  destruct (addToLimitedSlice_bounded (maxSize md) (priceHistory md)
              (round roundNum' (Price tick)) Hpos Hp)
    as (ph & -> & Hph & Hsuf).
  destruct (addToLimitedSlice_bounded (maxSize md) (volumeHistory md)
              (Volume tick) Hpos Hv) as (vh & -> & Hvh & _).
  destruct (addToLimitedSlice_bounded (maxSize md) (timeStamps md)
              (Timestamp tick) Hpos Ht) as (ts & -> & Hts & _).
  assert (Hhp : exists hp,
            (if (len (highPrices md) =? 0)%Z
                || Rgtb (round roundNum' (Price tick)) (lastOf (highPrices md))
             then addToLimitedSlice (maxSize md) (highPrices md)
                    (round roundNum' (Price tick))
             else addToLimitedSlice (maxSize md) (highPrices md)
                    (lastOf (highPrices md))) = Some hp
            /\ (len hp <= maxSize md)%Z).
  { destruct (_ || _);
      [ destruct (addToLimitedSlice_bounded (maxSize md) (highPrices md)
                    (round roundNum' (Price tick)) Hpos Hh) as (hp & E & B & _)
      | destruct (addToLimitedSlice_bounded (maxSize md) (highPrices md)
                    (lastOf (highPrices md)) Hpos Hh) as (hp & E & B & _) ];
      exists hp; auto. }
  destruct Hhp as (hp & -> & Hhp).
  assert (Hlp : exists lp,
            (if (len (lowPrices md) =? 0)%Z
                || Rltb (round roundNum' (Price tick)) (lastOf (lowPrices md))
             then addToLimitedSlice (maxSize md) (lowPrices md)
                    (round roundNum' (Price tick))
             else addToLimitedSlice (maxSize md) (lowPrices md)
                    (lastOf (lowPrices md))) = Some lp
            /\ (len lp <= maxSize md)%Z).
  { destruct (_ || _);
      [ destruct (addToLimitedSlice_bounded (maxSize md) (lowPrices md)
                    (round roundNum' (Price tick)) Hpos Hl) as (lp & E & B & _)
      | destruct (addToLimitedSlice_bounded (maxSize md) (lowPrices md)
                    (lastOf (lowPrices md)) Hpos Hl) as (lp & E & B & _) ];
      exists lp; auto. }
  destruct Hlp as (lp & -> & Hlp).
  destruct (addToLimitedSlice_bounded (maxSize md) (askVolume md)
              (Volume tick) Hpos Ha) as (av & Eav & Hav & _).
  destruct (addToLimitedSlice_bounded (maxSize md) (bidVolume md)
              (Volume tick) Hpos Hb) as (bv & Ebv & Hbv & _).
  destruct (IsAsk tick); [rewrite Eav | rewrite Ebv];
    eexists; (split; [reflexivity|]); simpl;
    (split; [reflexivity|]);
    (split; [unfold withinCapacity; simpl; tauto|]);
    (split; [exact Hrp|]); exact Hsuf.
Qed.

Lemma addToLimitedSlice_len {A : Type} (maxSize : Z) (s : list A)
    (value : A) (s' : list A) :
  addToLimitedSlice maxSize s value = Some s' ->
  len s' = (if (len s <? maxSize)%Z then len s + 1 else len s)%Z.
Proof.
  unfold addToLimitedSlice.
  destruct (Z.geb_spec (len s) maxSize) as [Hge|Hlt];
    destruct (Z.ltb_spec (len s) maxSize); try lia.
  - destruct s as [|oldest rest].
    + unfold slice, len. simpl. discriminate.
    + rewrite slice_from_1. intros [= <-].
      rewrite len_app. unfold len. simpl. lia.
  - intros [= <-]. rewrite len_app. unfold len. simpl. lia.
Qed.

(** What a successful [AddTick] has done to the precision and to the
    price, high and low sequences. *)
Lemma AddTick_inv (md : MarketData) (tick : TickData) (md' : MarketData) :
  AddTick md tick = Some md' ->
  maxSize md' = maxSize md
  /\ addToLimitedSlice (maxSize md) (priceHistory md)
       (round (roundNum md') (Price tick)) = Some (priceHistory md')
  /\ (exists high,
        addToLimitedSlice (maxSize md) (highPrices md) high
        = Some (highPrices md'))
  /\ (exists low,
        addToLimitedSlice (maxSize md) (lowPrices md) low
        = Some (lowPrices md')).
Proof.
  unfold AddTick. cbv zeta.
  destruct (if (roundNum md =? 0)%Z then _ else _) as [rn pp].
  destruct (addToLimitedSlice _ (priceHistory md) _) eqn:Ep; [|discriminate].
  destruct (addToLimitedSlice _ (volumeHistory md) _); [|discriminate].
  destruct (addToLimitedSlice _ (timeStamps md) _); [|discriminate].
  destruct (if (len (highPrices md) =? 0)%Z || _ then _ else _) eqn:Eh;
    [|discriminate].
  destruct (if (len (lowPrices md) =? 0)%Z || _ then _ else _) eqn:El;
    [|discriminate].
  destruct (if IsAsk tick then _ else Some (askVolume md)); [|discriminate].
  destruct (if IsAsk tick then Some (bidVolume md) else _); [|discriminate].
  intros [= <-]. simpl.
  split; [reflexivity|]. split; [exact Ep|]. split.
  - destruct (_ || _) in Eh; eauto.
  - destruct (_ || _) in El; eauto.
Qed.

Lemma AddTick_len (md : MarketData) (tick : TickData) (md' : MarketData) :
  AddTick md tick = Some md' ->
  len (priceHistory md')
  = (if (len (priceHistory md) <? maxSize md)%Z
     then len (priceHistory md) + 1 else len (priceHistory md))%Z.
Proof.
  intros H. apply AddTick_inv in H as (_ & Hp & _).
  now apply addToLimitedSlice_len in Hp.
Qed.

Lemma AddTicks_bounded (ticks : list TickData) :
  forall md : MarketData,
  (0 < maxSize md)%Z ->
  withinCapacity md ->
  exists md',
    AddTicks md ticks = Some md'
    /\ maxSize md' = maxSize md
    /\ withinCapacity md'.
Proof.
  induction ticks as [|tick rest IH]; intros md Hpos Hcap.
  - exists md. simpl. auto.
  - destruct (AddTick_bounded md tick Hpos Hcap)
      as (md1 & E1 & Hmax1 & Hcap1 & _).
    destruct (IH md1) as (md' & E' & Hmax' & Hcap'); [lia|assumption|].
    exists md'. simpl. rewrite E1, E'.
    split; [reflexivity|]. split; [lia|assumption].
Qed.

(** Once the precision is set, further ticks keep it and every price
    they add is rounded to it. *)
Lemma AddTicks_fixed_precision (ticks : list TickData) :
  forall md : MarketData,
  roundNum md <> 0%Z ->
  (0 < maxSize md)%Z ->
  withinCapacity md ->
  exists md',
    AddTicks md ticks = Some md'
    /\ roundNum md' = roundNum md
    /\ maxSize md' = maxSize md
    /\ withinCapacity md'
    /\ (exists older,
          priceHistory md
          ++ map (fun t => round (roundNum md) (Price t)) ticks
          = older ++ priceHistory md').
Proof.
  induction ticks as [|tick rest IH]; intros md Hr Hpos Hcap.
  - exists md. simpl.
    split; [reflexivity|]. split; [reflexivity|]. split; [reflexivity|].
    split; [assumption|]. exists []. now rewrite app_nil_r.
  - destruct (AddTick_bounded md tick Hpos Hcap)
      as (md1 & E1 & Hmax1 & Hcap1 & Hr1 & (older1 & Hsuf1)).
    destruct (Z.eqb_spec (roundNum md) 0) as [|_]; [contradiction|].
    destruct (IH md1) as (md' & E' & Hr' & Hmax' & Hcap' & (older2 & Hsuf2));
      [congruence|lia|assumption|].
    exists md'. simpl. rewrite E1, E'.
    split; [reflexivity|]. split; [congruence|]. split; [congruence|].
    split; [assumption|].
    exists (older1 ++ older2).
    rewrite <- app_assoc, <- Hsuf2, Hr1.
    rewrite app_assoc, <- Hsuf1, <- app_assoc, Hr1. reflexivity.
Qed.

End StoreHistories.

(** ** Sums, covariance and the regression of the analyzer *)

Section Regression.
Import types analyzer series.

Lemma sumLoop_acc (l : list R) (acc : R) :
  fold_left Rplus l acc = acc + total l.
Proof.
  revert acc. induction l as [|v l IH]; intros acc; simpl.
  - lra.
  - rewrite IH. lra.
Qed.

Lemma sumLoop_total (l : list R) : sumLoop l = total l.
Proof. unfold sumLoop. rewrite sumLoop_acc. lra. Qed.

Lemma total_nonneg (l : list R) : Forall (fun v => 0 <= v) l -> 0 <= total l.
Proof.
  induction 1 as [|v l Hv _ IH]; simpl; lra.
Qed.

Lemma total_pos (l : list R) :
  l <> [] -> Forall (fun v => 0 < v) l -> 0 < total l.
Proof.
  intros Hne H. induction H as [|v l Hv Hl IH]; [contradiction|].
  simpl. destruct l as [|w l].
  - simpl. lra.
  - assert (0 < total (w :: l)) by (apply IH; discriminate). lra.
Qed.

(** The five sums of the loop of [linearRegression]. *)
Lemma regression_sums (xs : list R) :
  forall (ys : list R) (a b c d e : R),
  List.length xs = List.length ys ->
  fold_left
    (fun '(sumX, sumY, sumXY, sumXX, sumYY) '(xi, yi) =>
       (sumX + xi, sumY + yi, sumXY + xi * yi, sumXX + xi * xi,
        sumYY + yi * yi))
    (combine xs ys) (a, b, c, d, e)
  = (a + total xs, b + total ys, c + dot xs ys, d + dot xs xs,
     e + dot ys ys).
Proof.
  induction xs as [|x xs IH]; intros [|y ys] a b c d e Hlen;
    simpl in Hlen; try discriminate.
  - simpl. repeat apply (f_equal2 (@pair _ _)); lra.
  - simpl. rewrite IH by congruence.
    repeat apply (f_equal2 (@pair _ _)); lra.
Qed.

Lemma len_cons {A : Type} (x : A) (l : list A) :
  IZR (len (x :: l)) = IZR (len l) + 1.
Proof.
  unfold len. simpl List.length. rewrite Nat2Z.inj_succ, succ_IZR. lra.
Qed.

Lemma cross_expand (x y : R) (xs : list R) :
  forall ys : list R,
  List.length xs = List.length ys ->
  cross x y xs ys
  = dot xs ys - x * total ys - y * total xs + IZR (len xs) * x * y.
Proof.
  induction xs as [|xi xs IH]; intros [|yi ys] Hlen; simpl in Hlen;
    try discriminate.
  - simpl. unfold len. simpl. lra.
  - simpl cross. simpl dot. simpl total. rewrite len_cons.
    rewrite IH by congruence. lra.
Qed.

(** Adding a pair to both lists adds the cross sum around that pair. *)
Lemma cov_cons (x y : R) (xs ys : list R) :
  List.length xs = List.length ys ->
  cov (x :: xs) (y :: ys) = cov xs ys + cross x y xs ys.
Proof.
  intros Hlen. unfold cov. rewrite len_cons. simpl dot. simpl total.
  rewrite cross_expand by assumption. lra.
Qed.

Lemma Aligned_length (s : R) (xs ys : list R) :
  Aligned s xs ys -> List.length xs = List.length ys.
Proof.
  induction 1; simpl; congruence.
Qed.

Lemma cross_sign (s x y : R) (xs ys : list R) :
  Forall2 (fun xi yi => 0 < s * ((xi - x) * (yi - y))) xs ys ->
  0 <= s * cross x y xs ys /\ (xs <> [] -> 0 < s * cross x y xs ys).
Proof.
  induction 1 as [|xi yi xs ys Hi _ [IH _]]; simpl.
  - split; [lra|contradiction].
  - split; [nra|intros _; nra].
Qed.

Lemma cov_nil : cov [] [] = 0.
Proof. unfold cov, len. simpl. lra. Qed.

(** The covariance of aligned lists has the sign of the alignment. *)
Lemma cov_aligned (s : R) (xs ys : list R) :
  Aligned s xs ys ->
  0 <= s * cov xs ys /\ ((2 <= List.length xs)%nat -> 0 < s * cov xs ys).
Proof.
  induction 1 as [|x y xs ys Hc Ha [IH0 IH1]].
  - rewrite cov_nil. split; [lra|simpl; lia].
  - rewrite cov_cons by (eapply Aligned_length; eassumption).
    destruct (cross_sign s x y xs ys Hc) as [C0 C1].
    split; [nra|]. intros Hlen.
    assert (xs <> []) by (destruct xs; [simpl in Hlen; lia|discriminate]).
    specialize (C1 H). nra.
Qed.

Lemma sorted_aligned (s : R) (P Q : R -> R -> Prop) :
  (forall x xi y yi, P x xi -> Q y yi -> 0 < s * ((xi - x) * (yi - y))) ->
  forall xs ys,
  List.length xs = List.length ys ->
  StronglySorted P xs -> StronglySorted Q ys ->
  Aligned s xs ys.
Proof.
  intros Hs. induction xs as [|x xs IH]; intros [|y ys] Hlen Hx Hy;
    simpl in Hlen; try discriminate.
  - constructor.
  - apply StronglySorted_inv in Hx as [Hx Fx].
    apply StronglySorted_inv in Hy as [Hy Fy].
    constructor; [|apply IH; auto].
    clear IH Hx Hy. injection Hlen as Hlen.
    revert ys Hlen Fy. induction Fx as [|xi xs Hxi Fx IH];
      intros [|yi ys] Hlen Fy; simpl in Hlen; try discriminate.
    + constructor.
    + inversion Fy; subst. constructor; [apply Hs; assumption|].
      apply IH; auto.
Qed.

Lemma StronglySorted_skipn {A : Type} (P : A -> A -> Prop) (n : nat) :
  forall l : list A, StronglySorted P l -> StronglySorted P (skipn n l).
Proof.
  induction n as [|n IH]; intros l H; [exact H|].
  destruct l as [|a l]; [exact H|].
  simpl. apply IH. now apply StronglySorted_inv in H.
Qed.

Lemma Forall_skipn_keep {A : Type} (P : A -> Prop) (n : nat) :
  forall l : list A, Forall P l -> Forall P (skipn n l).
Proof.
  induction n as [|n IH]; intros l H; [exact H|].
  destruct l as [|a l]; [exact H|].
  simpl. apply IH. now inversion H.
Qed.

Lemma indices_sorted (n : nat) :
  forall k : nat, StronglySorted Rlt (map INR (seq k n)).
Proof.
  induction n as [|n IH]; intros k; simpl.
  - constructor.
  - constructor; [apply IH|].
    apply Forall_forall. intros v Hv.
    apply in_map_iff in Hv as (i & <- & Hi).
    apply in_seq in Hi. apply lt_INR. lia.
Qed.

(** [linearRegression] on two lists of one length, at least 2. *)
Lemma linearRegression_cov (xs ys : list R) :
  List.length xs = List.length ys ->
  (2 <= List.length xs)%nat ->
  linearRegression xs ys =
  (cov xs ys / cov xs xs,
   (total ys - cov xs ys / cov xs xs * total xs) / IZR (len xs),
   if Reqb (sqrt (cov xs xs * cov ys ys)) 0 then 0
   else cov xs ys / sqrt (cov xs xs * cov ys ys)).
Proof.
  intros Hlen H2. unfold linearRegression. cbv zeta.
  replace (Reqb (IZR (len xs)) (IZR (len ys))) with true
    by (symmetry; apply Reqb_true; unfold len; now rewrite Hlen).
  replace (Rltb (IZR (len xs)) 2) with false
    by (symmetry; apply Rltb_false; apply IZR_le; unfold len; lia).
  simpl negb. simpl orb. cbv iota.
  rewrite (regression_sums xs ys 0 0 0 0 0 Hlen).
  rewrite !Rplus_0_l. unfold cov.
  replace (len ys) with (len xs) by (unfold len; now rewrite Hlen).
  reflexivity.
Qed.

Lemma length_indices (n : nat) : List.length (indices n) = n.
Proof. unfold indices. now rewrite length_map, length_seq. Qed.

(** The last 30 prices of a history of at least 30. *)
Lemma length_last30 (prices : list R) :
  (30 <= len prices)%Z ->
  List.length (skipn (Z.to_nat (len prices - 30)) prices) = 30%nat.
Proof.
  intros H. rewrite length_skipn. unfold len in *. lia.
Qed.

(** The sign of the trend strength of an aligned window of positive
    prices is the sign of the alignment. *)
Lemma trend_sign_aligned (s : R) (prices : list R) :
  (30 <= len prices)%Z ->
  Forall (fun p => 0 < p) prices ->
  let window := skipn (Z.to_nat (len prices - 30)) prices in
  Aligned s (indices 30) window ->
  Aligned 1 window window ->
  0 < s * calculateTrendStrength prices.
Proof.
  intros H30 Hpos window Hcov Hvar.
  assert (Hw : List.length window = 30%nat) by (apply length_last30, H30).
  unfold calculateTrendStrength.
  destruct (Z.ltb_spec (len prices) 30) as [|_]; [lia|].
  cbv zeta. fold window. rewrite Hw.
  rewrite linearRegression_cov
    by (rewrite length_indices; first [symmetry; exact Hw | lia]).
  set (xs := indices 30).
  assert (Hdx : 0 < cov xs xs).
  { assert (A : Aligned 1 xs xs).
    { apply (sorted_aligned 1 Rlt Rlt); try apply indices_sorted; auto.
      intros; nra. }
    destruct (cov_aligned 1 xs xs A) as [_ P].
    subst xs. rewrite length_indices in P. specialize (P ltac:(lia)). lra. }
  assert (Hdy : 0 < cov window window).
  { destruct (cov_aligned 1 window window Hvar) as [_ P].
    rewrite Hw in P. specialize (P ltac:(lia)). lra. }
  assert (Hn : 0 < s * cov xs window).
  { destruct (cov_aligned s xs window Hcov) as [_ P].
    subst xs. rewrite length_indices in P. apply P. lia. }
  assert (Hsq : 0 < sqrt (cov xs xs * cov window window))
    by (apply sqrt_lt_R0, Rmult_lt_0_compat; assumption).
  replace (Reqb (sqrt (cov xs xs * cov window window)) 0) with false
    by (symmetry; apply Reqb_false; lra).
  assert (Hmean : 0 < stats.Mean window).
  { unfold stats.Mean, stats.Sum. rewrite sumLoop_total.
    apply Rdiv_lt_0_compat.
    - apply total_pos.
      + intros E. rewrite E in Hw. discriminate.
      + apply Forall_skipn_keep, Hpos.
    - apply IZR_lt. unfold len. lia. }
  set (sq := sqrt (cov xs xs * cov window window)) in *.
  set (n := cov xs window) in *.
  assert (Hslope : 0 < s * (n / cov xs xs)).
  { unfold Rdiv. rewrite <- Rmult_assoc.
    apply Rmult_lt_0_compat; [assumption|]. now apply Rinv_0_lt_compat. }
  assert (Hr : 0 < n / sq * (n / sq)).
  { assert (n / sq <> 0).
    { unfold Rdiv. apply Rmult_integral_contrapositive_currified.
      - intros E. rewrite E in Hn. lra.
      - apply Rinv_neq_0_compat. lra. }
    nra. }
  assert (Hc : 0 < 30 / stats.Mean window)
    by (apply Rdiv_lt_0_compat; lra).
  replace (s * (n / cov xs xs * (n / sq) * (n / sq)
                * (30 / stats.Mean window) * 100000))
    with (s * (n / cov xs xs) * (n / sq * (n / sq))
          * (30 / stats.Mean window) * 100000) by ring.
  apply Rmult_lt_0_compat; [|lra].
  apply Rmult_lt_0_compat; [|exact Hc].
  apply Rmult_lt_0_compat; [exact Hslope|exact Hr].
Qed.

Lemma trend_positive_increasing (prices : list R) :
  (30 <= len prices)%Z ->
  Forall (fun p => 0 < p) prices ->
  Sorted Rlt prices ->
  0 < calculateTrendStrength prices.
Proof.
  intros H30 Hpos Hs.
  assert (SS : StronglySorted Rlt
                 (skipn (Z.to_nat (len prices - 30)) prices)).
  { apply StronglySorted_skipn, Sorted_StronglySorted; [|exact Hs].
    intros x y z; apply Rlt_trans. }
  pose proof (trend_sign_aligned 1 prices H30 Hpos) as H. cbv zeta in H.
  rewrite Rmult_1_l in H. apply H.
  - apply (sorted_aligned 1 Rlt Rlt); auto using indices_sorted.
    + intros; nra.
    + now rewrite length_indices, length_last30.
    + apply indices_sorted.
  - apply (sorted_aligned 1 Rlt Rlt); auto. intros; nra.
Qed.

Lemma trend_negative_decreasing (prices : list R) :
  (30 <= len prices)%Z ->
  Forall (fun p => 0 < p) prices ->
  Sorted Rgt prices ->
  calculateTrendStrength prices < 0.
Proof.
  intros H30 Hpos Hs.
  assert (SS : StronglySorted Rgt
                 (skipn (Z.to_nat (len prices - 30)) prices)).
  { apply StronglySorted_skipn, Sorted_StronglySorted; [|exact Hs].
    intros x y z; unfold Rgt; intros; lra. }
  pose proof (trend_sign_aligned (-1) prices H30 Hpos) as H. cbv zeta in H.
  assert (0 < -1 * calculateTrendStrength prices); [|lra].
  apply H.
  - apply (sorted_aligned (-1) Rlt Rgt); auto using indices_sorted.
    + intros; nra.
    + now rewrite length_indices, length_last30.
    + apply indices_sorted.
  - apply (sorted_aligned 1 Rgt Rgt); auto. intros; nra.
Qed.

End Regression.

(** ** Claims about the metrics *)

Section MetricClaims.
Import types market analyzer series scenario.

(** C8 (amended): over exact reals, for every history of at least 30
    positive prices, the trend strength is
    slope * r * r * (30 / meanPrice) * 100000 for the regression of the last
    30 prices on the indices 0..29; it is strictly positive when the prices
    are strictly increasing and strictly negative when they are strictly
    decreasing. *)
Theorem trend_strength_sign (prices : list R) :
  (30 <= len prices)%Z ->
  Forall (fun p => 0 < p) prices ->
  let windowPrices := skipn (Z.to_nat (len prices - 30)) prices in
  calculateTrendStrength prices
  = (let '(slope, _, r) := linearRegression (indices 30) windowPrices in
     slope * r * r * (30 / stats.Mean windowPrices) * 100000)
  /\ (Sorted Rlt prices -> 0 < calculateTrendStrength prices)
  /\ (Sorted Rgt prices -> calculateTrendStrength prices < 0).
Proof.
  intros H30 Hpos. cbv zeta. split; [|split].
  - unfold calculateTrendStrength.
    destruct (Z.ltb_spec (len prices) 30) as [|_]; [lia|].
    cbv zeta. rewrite length_last30 by assumption. reflexivity.
  - now apply trend_positive_increasing.
  - now apply trend_negative_decreasing.
Qed.

Lemma trend_strength_sign_witness :
  (30 <= len risingPrices)%Z
  /\ Forall (fun p => 0 < p) risingPrices
  /\ Sorted Rlt risingPrices
  /\ 0 < calculateTrendStrength risingPrices.
Proof.
  assert (H30 : (30 <= len risingPrices)%Z) by (vm_compute; discriminate).
  assert (Hpos : Forall (fun p => 0 < p) risingPrices)
    by (unfold risingPrices; repeat constructor; lra).
  assert (Hs : Sorted Rlt risingPrices)
    by (unfold risingPrices; repeat constructor; lra).
  split; [exact H30|]. split; [exact Hpos|]. split; [exact Hs|].
  exact (proj1 (proj2 (trend_strength_sign risingPrices H30 Hpos)) Hs).
Defined.

(** C8 (as stated, refuted): in binary64, on the thirty positive and
    strictly increasing prices 1000000000, ..., 1000000029 the difference
    n * sumYY - sumY * sumY of the rounded sums is 0, so that the
    denominator of r is 0, r is 0 and the trend strength is 0 and not
    greater than 0. *)
Lemma trend_strength_zero_on_rising_prices :
  len f64.risingFromBillion = 30%Z
  /\ f64.allPositive f64.risingFromBillion = true
  /\ f64.strictlyIncreasing f64.risingFromBillion = true
  /\ snd (f64.linearRegression (f64.indices 30) f64.risingFromBillion)
     = PrimFloat.zero
  /\ f64.calculateTrendStrength f64.risingFromBillion = PrimFloat.zero
  /\ PrimFloat.ltb PrimFloat.zero
       (f64.calculateTrendStrength f64.risingFromBillion) = false.
Proof. vm_compute. repeat split. Qed.

(** The gains and the losses accumulated by the loop are not negative. *)
Lemma gainsAndLosses_acc (returns : list R) :
  forall gains losses : R,
  0 <= gains -> 0 <= losses ->
  let '(gains', losses') :=
    fold_left
      (fun '(gains, losses) ret =>
         if Rgtb ret 0 then (gains + ret, losses) else (gains, losses - ret))
      returns (gains, losses) in
  0 <= gains' /\ 0 <= losses'.
Proof.
  induction returns as [|ret returns IH]; intros gains losses Hg Hl; simpl.
  - auto.
  - destruct (Rgtb ret 0) eqn:E.
    + apply Rgtb_true in E. apply IH; lra.
    + apply Rgtb_false in E. apply IH; lra.
Qed.

Lemma gainsAndLosses_nonneg (returns : list R) :
  0 <= fst (gainsAndLosses returns) /\ 0 <= snd (gainsAndLosses returns).
Proof.
  unfold gainsAndLosses.
  pose proof (gainsAndLosses_acc returns 0.0 0.0) as H.
  destruct (fold_left _ returns _) as [g l]. simpl. apply H; lra.
Qed.

(** A part of a sum of two non-negative numbers is a fraction of it. *)
Lemma ratio_in_unit_interval (a b : R) :
  0 <= a -> 0 <= b -> a + b <> 0 -> 0 <= a / (a + b) <= 1.
Proof.
  intros Ha Hb Hab.
  assert (Hs : 0 < a + b) by lra.
  split.
  - apply Rmult_le_pos; [assumption|].
    apply Rlt_le, Rinv_0_lt_compat, Hs.
  - apply (Rmult_le_reg_r (a + b)); [assumption|].
    unfold Rdiv. rewrite Rmult_assoc, Rinv_l by assumption. lra.
Qed.

Lemma calculateRelativeStrength_range (returns : list R) :
  0 <= calculateRelativeStrength returns <= 1.
Proof.
  unfold calculateRelativeStrength.
  destruct (len returns <? 2)%Z; [lra|]. cbv zeta.
  pose proof (gainsAndLosses_nonneg
                (skipn (Z.to_nat (len returns - Z.min 500 (len returns)))
                   returns)) as [Hg Hl].
  destruct (gainsAndLosses _) as [gains losses]. simpl in Hg, Hl.
  destruct (Reqb (gains + losses) 0) eqn:E; [lra|].
  apply Reqb_false in E. now apply ratio_in_unit_interval.
Qed.

Lemma orderImbalanceOf_range (bid ask : list R) :
  Forall (fun v => 0 <= v) bid ->
  Forall (fun v => 0 <= v) ask ->
  0 <= orderImbalanceOf bid ask <= 1.
Proof.
  intros Hb Ha. unfold orderImbalanceOf. cbv zeta.
  rewrite !sumLoop_total.
  destruct (Reqb (total bid + total ask) 0) eqn:E; [lra|].
  apply Reqb_false in E.
  apply ratio_in_unit_interval; auto using total_nonneg.
Qed.

(** C9 (amended): over exact reals, for every list of returns, which as
    real numbers are finite, the relative strength lies in [0,1]; so it
    does for the returns of every history in which no price is zero.  It is
    0.5 when there are fewer than 2 returns or when gains plus losses is
    0.  The order imbalance is 0.5 when total bid plus ask volume is 0,
    whatever the volumes, and it lies in [0,1] for every store whose
    retained bid and ask volumes are not negative. *)
Theorem strength_and_imbalance_in_unit_interval (returns : list R)
    (md : MarketData) :
  0 <= calculateRelativeStrength returns <= 1
  /\ (forall prices : list R,
        Forall (fun p => p <> 0) prices ->
        0 <= calculateRelativeStrength (returnsOf prices) <= 1)
  /\ ((len returns < 2)%Z -> calculateRelativeStrength returns = 0.5)
  /\ (let window := Z.min 500 (len returns) in
      let windowReturns :=
        skipn (Z.to_nat (len returns - window)) returns in
      fst (gainsAndLosses windowReturns) + snd (gainsAndLosses windowReturns)
      = 0 ->
      calculateRelativeStrength returns = 0.5)
  /\ (Forall (fun v => 0 <= v) (bidVolume md) ->
      Forall (fun v => 0 <= v) (askVolume md) ->
      0 <= calculateOrderImbalance md <= 1)
  /\ (sumLoop (bidVolume md) + sumLoop (askVolume md) = 0 ->
      calculateOrderImbalance md = 0.5).
Proof.
  split; [|split; [|split; [|split; [|split]]]].
  - apply calculateRelativeStrength_range.
  - intros prices _. apply calculateRelativeStrength_range.
  - intros H. unfold calculateRelativeStrength.
    destruct (Z.ltb_spec (len returns) 2); [reflexivity|lia].
  - cbv zeta. intros H. unfold calculateRelativeStrength.
    destruct (len returns <? 2)%Z; [reflexivity|]. cbv zeta.
    destruct (gainsAndLosses _) as [gains losses]. simpl in H.
    replace (Reqb (gains + losses) 0) with true
      by (symmetry; now apply Reqb_true).
    reflexivity.
  - intros Hb Ha. now apply orderImbalanceOf_range.
  - intros H. unfold calculateOrderImbalance, orderImbalanceOf,
      GetBidVolumeArray, GetAskVolumeArray. cbv zeta.
    replace (Reqb _ 0) with true by (symmetry; now apply Reqb_true).
    reflexivity.
Qed.

Lemma strength_and_imbalance_in_unit_interval_witness :
  let md := {|
    priceHistory := [100; 101]; volumeHistory := [1; 3];
    bidVolume := [1]; askVolume := [3]; timeStamps := [t0; t1];
    highPrices := [100; 101]; lowPrices := [100; 100];
    maxSize := 1000; roundNum := 3; prevPrice := 100
  |} in
  let zeroVolumes := {|
    priceHistory := [100; 101]; volumeHistory := [- 1; 1];
    bidVolume := [- 1]; askVolume := [1]; timeStamps := [t0; t1];
    highPrices := [100; 101]; lowPrices := [100; 100];
    maxSize := 1000; roundNum := 3; prevPrice := 100
  |} in
  Forall (fun v => 0 <= v) (bidVolume md)
  /\ Forall (fun v => 0 <= v) (askVolume md)
  /\ 0 <= calculateRelativeStrength [0.01; - 0.02; 0.03] <= 1
  /\ 0 <= calculateOrderImbalance md <= 1
  /\ sumLoop (bidVolume zeroVolumes) + sumLoop (askVolume zeroVolumes) = 0
  /\ calculateOrderImbalance zeroVolumes = 0.5.
Proof.
  cbv zeta.
  assert (Hb : Forall (fun v => 0 <= v) [1]) by (repeat constructor; lra).
  assert (Ha : Forall (fun v => 0 <= v) [3]) by (repeat constructor; lra).
  assert (Hz : sumLoop [- 1] + sumLoop [1] = 0)
    by (unfold sumLoop; simpl; lra).
  split; [exact Hb|]. split; [exact Ha|].
  pose proof (strength_and_imbalance_in_unit_interval
                [0.01; - 0.02; 0.03]
                {| priceHistory := [100; 101]; volumeHistory := [1; 3];
                   bidVolume := [1]; askVolume := [3];
                   timeStamps := [t0; t1];
                   highPrices := [100; 101]; lowPrices := [100; 100];
                   maxSize := 1000; roundNum := 3; prevPrice := 100 |})
    as H.
  pose proof (strength_and_imbalance_in_unit_interval
                [0.01; - 0.02; 0.03]
                {| priceHistory := [100; 101]; volumeHistory := [- 1; 1];
                   bidVolume := [- 1]; askVolume := [1];
                   timeStamps := [t0; t1];
                   highPrices := [100; 101]; lowPrices := [100; 100];
                   maxSize := 1000; roundNum := 3; prevPrice := 100 |})
    as H0.
  split; [exact (proj1 H)|].
  split; [exact (proj1 (proj2 (proj2 (proj2 (proj2 H)))) Hb Ha)|].
  split; [exact Hz|].
  exact (proj2 (proj2 (proj2 (proj2 (proj2 H0)))) Hz).
Defined.

(** Which volume sequence an [AddTick] extends. *)
Lemma AddTick_volumes (md : MarketData) (tick : TickData)
    (md' : MarketData) :
  AddTick md tick = Some md' ->
  (if IsAsk tick
   then addToLimitedSlice (maxSize md) (askVolume md) (Volume tick)
   else Some (askVolume md)) = Some (askVolume md')
  /\ (if IsAsk tick
      then Some (bidVolume md)
      else addToLimitedSlice (maxSize md) (bidVolume md) (Volume tick))
     = Some (bidVolume md')
  /\ maxSize md' = maxSize md.
Proof.
  unfold AddTick. cbv zeta.
  destruct (if (roundNum md =? 0)%Z then _ else _) as [rn pp].
  repeat match goal with
  | |- context [match ?e with Some _ => _ | None => None end] =>
      destruct e eqn:?; [|discriminate]
  end.
  intros [= <-]. simpl. auto.
Qed.

(** C9 (as stated, refuted): a bid of volume -1 followed by an ask of
    volume 2 leaves a store whose order imbalance is -1, outside [0,1]. *)
Lemma order_imbalance_outside_unit_interval :
  exists md,
    AddTicks NewMarketData [negativeBid; positiveAsk] = Some md
    /\ calculateOrderImbalance md = - 1
    /\ ~ (0 <= calculateOrderImbalance md <= 1).
Proof.
  assert (Hpos : (0 < maxSize NewMarketData)%Z) by reflexivity.
  assert (Hcap : withinCapacity NewMarketData)
    by (unfold withinCapacity, len; simpl; lia).
  destruct (AddTick_bounded NewMarketData negativeBid Hpos Hcap)
    as (md1 & E1 & Hmax1 & Hcap1 & _).
  destruct (AddTick_bounded md1 positiveAsk) as (md2 & E2 & _);
    [lia|assumption|].
  destruct (AddTick_volumes _ _ _ E1) as (Ha1 & Hb1 & _).
  destruct (AddTick_volumes _ _ _ E2) as (Ha2 & Hb2 & _).
  simpl in Ha1, Hb1, Ha2, Hb2.
  injection Ha1 as Ha1. injection Hb2 as Hb2.
  rewrite addToLimitedSlice_below in Hb1
    by (unfold len; simpl; lia).
  injection Hb1 as Hb1.
  rewrite <- Ha1, Hmax1, addToLimitedSlice_below in Ha2
    by (unfold len; simpl; lia).
  injection Ha2 as Ha2.
  assert (Hoi : calculateOrderImbalance md2 = - 1).
  { unfold calculateOrderImbalance, GetBidVolumeArray, GetAskVolumeArray.
    rewrite <- Hb2, <- Hb1, <- Ha2. unfold orderImbalanceOf, sumLoop.
    simpl.
    replace (Reqb (0 + - 1 + (0 + 2)) 0) with false
      by (symmetry; apply Reqb_false; lra).
    lra. }
  exists md2. cbn [AddTicks]. rewrite E1, E2.
  split; [reflexivity|]. split; [exact Hoi|]. rewrite Hoi. lra.
Qed.

End MetricClaims.

(** ** The pipeline: store and analyzer together *)

Section Pipeline.
Import types market analyzer series pipeline.

Lemma len_cons_Z {A : Type} (x : A) (l : list A) :
  len (x :: l) = (len l + 1)%Z.
Proof. unfold len. simpl List.length. lia. Qed.

Lemma slice_in_range {A : Type} (s : list A) (lo hi : Z) :
  (0 <= lo <= hi)%Z -> (hi <= len s)%Z ->
  slice s lo hi
  = Some (firstn (Z.to_nat (hi - lo)) (skipn (Z.to_nat lo) s)).
Proof.
  intros [H0 H1] H2. unfold slice.
  replace ((0 <=? lo) && (lo <=? hi) && (hi <=? len s))%Z with true;
    [reflexivity|].
  symmetry. rewrite !andb_true_iff, !Z.leb_le. auto.
Qed.

Lemma index_in_range {A : Type} (s : list A) (i : Z) :
  (0 <= i < len s)%Z -> exists v, index s i = Some v.
Proof.
  intros [H0 H1]. unfold index.
  replace ((0 <=? i) && (i <? len s))%Z with true
    by (symmetry; rewrite andb_true_iff, Z.leb_le, Z.ltb_lt; auto).
  destruct (nth_error s (Z.to_nat i)) eqn:E; [eauto|].
  apply nth_error_None in E. unfold len in H1. lia.
Qed.

(** With 15 prices or more [calculateATR] does not panic, and with 14
    highs and lows it does not read the analyzer. *)
Lemma calculateATR_total (a : Analyzer) (md : MarketData) (prices : list R) :
  (15 <= len prices)%Z ->
  exists atr, calculateATR a md prices = Some atr.
Proof.
  intros H. unfold calculateATR. cbv zeta.
  destruct (_ || _ || _)%bool eqn:E.
  - destruct (Z.gtb_spec (len prices) 0); [|lia].
    destruct (index_in_range prices (len prices - 1)) as [v ->]; [lia|].
    eauto.
  - rewrite !orb_false_iff, !Z.ltb_ge in E. destruct E as [[Eh El] Ep].
    unfold GetHighPricesArray, GetLowPricesArray in *.
    rewrite !slice_in_range by lia. eauto.
Qed.

Lemma calculateATR_store (a1 a2 : Analyzer) (md : MarketData)
    (prices : list R) :
  (14 <= len (highPrices md))%Z ->
  (14 <= len (lowPrices md))%Z ->
  (14 <= len prices)%Z ->
  calculateATR a1 md prices = calculateATR a2 md prices.
Proof.
  intros Hh Hl Hp. unfold calculateATR. cbv zeta.
  unfold GetHighPricesArray, GetLowPricesArray.
  destruct (Z.ltb_spec (len (highPrices md)) 14); [lia|].
  destruct (Z.ltb_spec (len (lowPrices md)) 14); [lia|].
  destruct (Z.ltb_spec (len prices) 14); [lia|].
  reflexivity.
Qed.

(** [ProcessTick] below 20 prices: no snapshot, the analyzer as it was. *)
Lemma ProcessTick_low (a : Analyzer) (md : MarketData) (tick : TickData) :
  (len (priceHistory md) < 20)%Z ->
  ProcessTick a md tick = Some (None, a).
Proof.
  intros H. unfold ProcessTick, HasMinimumData.
  destruct (Z.geb_spec (len (priceHistory md)) 20); [lia|]. reflexivity.
Qed.

(** [ProcessTick] from 20 prices on: the snapshot, the new window and the
    latch of the warmup flag. *)
Lemma ProcessTick_high (a : Analyzer) (md : MarketData) (tick : TickData) :
  (20 <= len (priceHistory md))%Z ->
  exists atr,
    calculateATR a md (priceHistory md) = Some atr
    /\ let window' :=
         nextWindow (trendStrengthWindow a)
           (calculateTrendStrength (priceHistory md)) in
       let m := storeMetrics md atr (averageOf window') in
       ProcessTick a md tick
       = Some (Some m,
               {| metrics := m;
                  trendStrengthWindow := window';
                  warmupTicks := warmupTicks a;
                  warmupComplete :=
                    warmupComplete a
                    || HasMinimumData md (warmupTicks a) |}).
Proof.
  intros H.
  destruct (calculateATR_total a md (priceHistory md)) as [atr Hatr]; [lia|].
  exists atr. split; [exact Hatr|]. cbv zeta.
  unfold ProcessTick.
  replace (HasMinimumData md 20) with true
    by (symmetry; unfold HasMinimumData; apply Z.geb_le; lia).
  simpl negb. cbv iota.
  unfold calculateMetrics, GetPriceArray. cbv zeta.
  destruct (Z.ltb_spec (len (priceHistory md)) 2); [lia|].
  rewrite Hatr. cbn [warmupComplete warmupTicks metrics trendStrengthWindow].
  unfold GetMetrics, storeMetrics, nextWindow, averageOf, GetPriceArray.
  destruct (warmupComplete a); destruct (HasMinimumData md (warmupTicks a));
    reflexivity.
Qed.

Lemma AddTick_synchronized (md : MarketData) (tick : TickData)
    (md' : MarketData) :
  synchronized md -> AddTick md tick = Some md' -> synchronized md'.
Proof.
  intros [Hh Hl] H. apply AddTick_inv in H as (_ & Hp & [h Hhp] & [l Hlp]).
  apply addToLimitedSlice_len in Hp, Hhp, Hlp.
  unfold synchronized. rewrite Hp, Hhp, Hlp, Hh, Hl. auto.
Qed.

(** One tick through the pipeline, on a store within its capacity. *)
Lemma feed_spec (st : State) (tick : TickData) :
  (0 < maxSize (store st))%Z ->
  withinCapacity (store st) ->
  exists md',
    AddTick (store st) tick = Some md'
    /\ maxSize md' = maxSize (store st)
    /\ withinCapacity md'
    /\ ((len (priceHistory md') < 20)%Z
        /\ feed st tick
           = Some (None, {| store := md'; analysis := analysis st |})
        \/ (20 <= len (priceHistory md'))%Z
           /\ exists atr,
                calculateATR (analysis st) md' (priceHistory md') = Some atr
                /\ let a := analysis st in
                   let window' :=
                     nextWindow (trendStrengthWindow a)
                       (calculateTrendStrength (priceHistory md')) in
                   let m := storeMetrics md' atr (averageOf window') in
                   feed st tick
                   = Some (Some m,
                           {| store := md';
                              analysis :=
                                {| metrics := m;
                                   trendStrengthWindow := window';
                                   warmupTicks := warmupTicks a;
                                   warmupComplete :=
                                     warmupComplete a
                                     || HasMinimumData md' (warmupTicks a)
                                |} |})).
Proof.
  intros Hpos Hcap.
  destruct (AddTick_bounded (store st) tick Hpos Hcap)
    as (md' & E & Hmax & Hcap' & _).
  exists md'. split; [exact E|]. split; [exact Hmax|]. split; [exact Hcap'|].
  unfold feed. rewrite E.
  destruct (Z.lt_ge_cases (len (priceHistory md')) 20) as [Hlow|Hhigh].
  - left. split; [exact Hlow|]. now rewrite ProcessTick_low.
  - right. split; [exact Hhigh|].
    destruct (ProcessTick_high (analysis st) md' tick Hhigh)
      as (atr & Hatr & HP).
    exists atr. split; [exact Hatr|]. cbv zeta in HP |- *.
    now rewrite HP.
Qed.

Lemma reset_ready (st : State) :
  (0 < maxSize (store st))%Z ->
  (0 < maxSize (store (reset st)))%Z
  /\ withinCapacity (store (reset st))
  /\ synchronized (store (reset st)).
Proof.
  intros H. unfold reset, Reset, withinCapacity, synchronized, len. simpl.
  repeat split; lia.
Qed.

(** One operation: it succeeds, keeps the store within its capacity and
    the configured warmup, and sets the flag exactly when a tick leaves at
    least 20 and at least [warmupTicks] prices in the history. *)
Lemma step_flag (st : State) (op : Op) :
  (0 < maxSize (store st))%Z ->
  withinCapacity (store st) ->
  exists st',
    step st op = Some st'
    /\ (0 < maxSize (store st'))%Z
    /\ withinCapacity (store st')
    /\ warmupTicks (analysis st') = warmupTicks (analysis st)
    /\ HasSufficientData (analysis st')
       = HasSufficientData (analysis st)
         || match op with
            | Feed _ =>
                (20 <=? len (priceHistory (store st')))%Z
                && (warmupTicks (analysis st)
                    <=? len (priceHistory (store st')))%Z
            | ResetStore => false
            end.
Proof.
  intros Hpos Hcap. destruct op as [tick|].
  - destruct (feed_spec st tick Hpos Hcap)
      as (md' & _ & Hmax & Hcap' & [[Hlow F]|[Hhigh (atr & _ & F)]]);
      cbv zeta in F; unfold step; rewrite F; eexists;
      (split; [reflexivity|]); simpl;
      (split; [lia|]); (split; [exact Hcap'|]); (split; [reflexivity|]).
    + destruct (Z.leb_spec 20 (len (priceHistory md'))); [lia|].
      unfold HasSufficientData. now rewrite orb_false_r.
    + destruct (Z.leb_spec 20 (len (priceHistory md'))); [|lia].
      unfold HasSufficientData, HasMinimumData. simpl. f_equal.
      rewrite Z.geb_leb. reflexivity.
  - exists (reset st). destruct (reset_ready st Hpos) as (H1 & H2 & _).
    simpl. split; [reflexivity|]. split; [exact H1|]. split; [exact H2|].
    split; [reflexivity|]. now rewrite orb_false_r.
Qed.

End Pipeline.

(** ** Claims about the warmup flag and the replay after Reset *)

Section PipelineClaims.
Import types market analyzer series pipeline scenario.

(** Ticks that leave fewer than 20 prices do not touch the analyzer. *)
Lemma states_below_20 (ticks : list TickData) :
  forall st : State,
  (0 < maxSize (store st))%Z ->
  withinCapacity (store st) ->
  (len (priceHistory (store st)) + len ticks < 20)%Z ->
  (20 <= maxSize (store st))%Z ->
  exists sts,
    states st (map Feed ticks) = Some sts
    /\ forall i s,
         nth_error sts i = Some s ->
         analysis s = analysis st
         /\ len (priceHistory (store s))
            = (len (priceHistory (store st)) + Z.of_nat i + 1)%Z.
Proof.
  induction ticks as [|tick rest IH]; intros st Hpos Hcap Hlen Hmax.
  - exists []. split; [reflexivity|]. intros [|i] s H; discriminate.
  - rewrite len_cons_Z in Hlen.
    destruct (feed_spec st tick Hpos Hcap)
      as (md' & E & Hmax' & Hcap' & Hcase).
    pose proof (AddTick_len _ _ _ E) as Hl.
    destruct (Z.ltb_spec (len (priceHistory (store st))) (maxSize (store st)));
      [|pose proof (len_nonneg rest); lia].
    destruct Hcase as [[Hlow F]|[Hhigh _]];
      [|pose proof (len_nonneg rest); lia].
    destruct (IH {| store := md'; analysis := analysis st |})
      as (sts & Es & Hs); simpl; try lia; try assumption.
    exists ({| store := md'; analysis := analysis st |} :: sts).
    simpl. rewrite F, Es. split; [reflexivity|].
    intros [|i] s Hnth; simpl in Hnth.
    + injection Hnth as <-. simpl. split; [reflexivity|lia].
    + destruct (Hs i s Hnth) as [Ha Hp]. simpl in Ha, Hp.
      split; [exact Ha|]. lia.
Qed.

(** C7 (amended): in every sequence of ticks and resets on a store within
    its capacity, every operation succeeds and keeps the configured
    threshold, and the warmed-up flag of a state is true exactly when it
    was true at the start or some tick up to that state left at least
    max(20, threshold) prices in the history: the flag is false until then,
    true from then on, and stays true whatever follows, resets included. *)
Theorem warmup_flag_latch (ops : list Op) :
  forall st : State,
  (0 < maxSize (store st))%Z ->
  withinCapacity (store st) ->
  let w := warmupTicks (analysis st) in
  exists sts,
    states st ops = Some sts
    /\ List.length sts = List.length ops
    /\ forall i s,
         nth_error sts i = Some s ->
         warmupTicks (analysis s) = w
         /\ (HasSufficientData (analysis s) = true <->
             HasSufficientData (analysis st) = true
             \/ exists j tick sj,
                  (j <= i)%nat
                  /\ nth_error ops j = Some (Feed tick)
                  /\ nth_error sts j = Some sj
                  /\ (Z.max 20 w <= len (priceHistory (store sj)))%Z).
Proof.
  induction ops as [|op ops IH]; intros st Hpos Hcap w.
  - exists []. split; [reflexivity|]. split; [reflexivity|].
    intros [|i] s H; discriminate.
  - destruct (step_flag st op Hpos Hcap)
      as (st1 & E1 & Hpos1 & Hcap1 & Hw1 & Hflag1).
    destruct (IH st1 Hpos1 Hcap1) as (sts & Es & Hlen & Hs).
    exists (st1 :: sts). simpl. rewrite E1, Es.
    split; [reflexivity|]. split; [simpl; congruence|].
    assert (Hfirst : HasSufficientData (analysis st1) = true <->
                     HasSufficientData (analysis st) = true
                     \/ exists tick,
                          op = Feed tick
                          /\ (Z.max 20 w
                              <= len (priceHistory (store st1)))%Z).
    { rewrite Hflag1, orb_true_iff. fold w. split.
      - intros [H|H]; [now left|]. right. destruct op; [|discriminate].
        exists tick. split; [reflexivity|].
        apply andb_true_iff in H as [H20 Hw].
        apply Z.leb_le in H20, Hw. lia.
      - intros [H|(tick & -> & H)]; [now left|]. right.
        apply andb_true_iff. rewrite !Z.leb_le. lia. }
    intros [|i] s Hnth; simpl in Hnth.
    + injection Hnth as <-. split; [exact Hw1|].
      rewrite Hfirst. split.
      * intros [H|(tick & -> & H)]; [now left|]. right.
        exists 0%nat, tick, st1. simpl. auto.
      * intros [H|(j & tick & sj & Hj & Hop & Hsj & H)]; [now left|]. right.
        assert (j = 0)%nat by lia. subst j. simpl in Hop, Hsj.
        injection Hop as ->. injection Hsj as <-. eauto.
    + destruct (Hs i s Hnth) as [Hw Hiff]. rewrite Hw1 in Hw, Hiff.
      fold w in Hiff. split; [exact Hw|].
      rewrite Hiff, Hfirst. split.
      * intros [[H0|(tick & -> & H0)]|(j & tick & sj & Hj & Hop & Hsj & H0)].
        -- now left.
        -- right. exists 0%nat, tick, st1. simpl. repeat split; auto. lia.
        -- right. exists (S j), tick, sj. simpl. repeat split; auto. lia.
      * intros [H0|(j & tick & sj & Hj & Hop & Hsj & H0)]; [left; now left|].
        destruct j as [|j]; simpl in Hop, Hsj.
        -- injection Hop as ->. injection Hsj as <-. left. right. eauto.
        -- right. exists j, tick, sj. repeat split; auto. lia.
Qed.

(** What one operation does to the store. *)
Lemma step_store (st : State) (op : Op) (st' : State) :
  step st op = Some st' ->
  match op with
  | Feed tick => AddTick (store st) tick = Some (store st')
  | ResetStore => store st' = Reset (store st)
  end.
Proof.
  destruct op as [tick|]; unfold step, feed, reset.
  - destruct (AddTick (store st) tick) as [md|]; [|discriminate].
    destruct (ProcessTick (analysis st) md tick) as [[snap a]|];
      [|discriminate].
    now intros [= <-].
  - now intros [= <-].
Qed.

Lemma warmup_flag_latch_witness :
  let ops := [Feed (tickAt 100); ResetStore; Feed (tickAt 100)] in
  (0 < maxSize (store oneTickShort))%Z
  /\ withinCapacity (store oneTickShort)
  /\ len (priceHistory (store oneTickShort)) = 299%Z
  /\ HasSufficientData (analysis oneTickShort) = false
  /\ exists s0 s1 s2,
       states oneTickShort ops = Some [s0; s1; s2]
       /\ len (priceHistory (store s0)) = 300%Z
       /\ HasSufficientData (analysis s0) = true
       /\ len (priceHistory (store s1)) = 0%Z
       /\ HasSufficientData (analysis s1) = true
       /\ len (priceHistory (store s2)) = 1%Z
       /\ HasSufficientData (analysis s2) = true.
Proof.
  cbv zeta.
  assert (Hpos : (0 < maxSize (store oneTickShort))%Z) by reflexivity.
  assert (Hcap : withinCapacity (store oneTickShort)).
  { unfold withinCapacity, oneTickShort.
    cbn [store priceHistory volumeHistory timeStamps highPrices lowPrices
         bidVolume askVolume maxSize].
    rewrite !len_repeat. unfold len. simpl List.length. lia. }
  assert (H299 : len (priceHistory (store oneTickShort)) = 299%Z)
    by (unfold oneTickShort; cbn [store priceHistory]; apply len_repeat).
  split; [exact Hpos|]. split; [exact Hcap|]. split; [exact H299|].
  split; [reflexivity|].
  destruct (warmup_flag_latch
              [Feed (tickAt 100); ResetStore; Feed (tickAt 100)]
              oneTickShort Hpos Hcap) as (sts & E & Hlen & Hflag).
  cbv zeta in Hflag.
  destruct sts as [|s0 [|s1 [|s2 [|]]]]; try discriminate.
  exists s0, s1, s2. split; [exact E|].
  cbn [states] in E.
  destruct (step oneTickShort (Feed (tickAt 100))) as [x0|] eqn:S0;
    [|discriminate].
  destruct (step x0 ResetStore) as [x1|] eqn:S1; [|discriminate].
  destruct (step x1 (Feed (tickAt 100))) as [x2|] eqn:S2; [|discriminate].
  injection E as -> -> ->.
  apply step_store in S0, S1, S2.
  pose proof (AddTick_len _ _ _ S0) as L0.
  pose proof (AddTick_len _ _ _ S2) as L2.
  destruct (AddTick_inv _ _ _ S0) as (M0 & _).
  rewrite H299 in L0. change (maxSize (store oneTickShort)) with 1000%Z in *.
  change (299 <? 1000)%Z with true in L0. cbv iota in L0.
  rewrite S1 in L2. cbn [Reset priceHistory maxSize] in L2.
  change (@len R []) with 0%Z in L2. rewrite M0 in L2.
  change (0 <? 1000)%Z with true in L2. cbv iota in L2.
  assert (Hlatch : forall i s,
            nth_error [s0; s1; s2] i = Some s ->
            HasSufficientData (analysis s) = true).
  { intros i s Hs. apply (Hflag i s Hs). right.
    exists 0%nat, (tickAt 100), s0.
    split; [lia|]. split; [reflexivity|]. split; [reflexivity|].
    rewrite L0. change (warmupTicks (analysis oneTickShort)) with 300%Z.
    lia. }
  split; [exact L0|]. split; [exact (Hlatch 0%nat s0 eq_refl)|].
  split; [rewrite S1; reflexivity|].
  split; [exact (Hlatch 1%nat s1 eq_refl)|].
  split; [exact L2 | exact (Hlatch 2%nat s2 eq_refl)].
Defined.

(** C7 (as stated, refuted): with a threshold of 5, the fifth tick leaves
    5 prices in the history, the threshold is reached during ProcessTick,
    and the flag is still false. *)
Lemma warmup_flag_unset_at_short_threshold :
  exists sts s,
    states shortWarmup (map Feed (firstn 5 risingTicks)) = Some sts
    /\ nth_error sts 4 = Some s
    /\ warmupTicks (analysis s) = 5%Z
    /\ len (priceHistory (store s)) = 5%Z
    /\ (warmupTicks (analysis s) <= len (priceHistory (store s)))%Z
    /\ HasSufficientData (analysis s) = false.
Proof.
  destruct (states_below_20 (firstn 5 risingTicks) shortWarmup)
    as (sts & E & Hs).
  - reflexivity.
  - unfold withinCapacity, len; simpl; lia.
  - vm_compute. reflexivity.
  - vm_compute. discriminate.
  - assert (Hn : List.length sts = 5%nat).
    { clear Hs. revert E. generalize shortWarmup.
      unfold risingTicks, risingPrices. simpl firstn. simpl map.
      intros st E. cbn [states] in E.
      repeat match type of E with
      | context [step ?s ?o] => destruct (step s o); [|discriminate]
      end.
      now injection E as <-. }
    destruct (nth_error sts 4) as [s|] eqn:E4;
      [|apply nth_error_None in E4; lia].
    destruct (Hs 4%nat s E4) as [Ha Hp].
    exists sts, s. split; [exact E|]. split; [exact E4|].
    rewrite Ha, Hp. simpl. repeat split; try reflexivity.
Qed.

End PipelineClaims.

Section Replay.
Import types market analyzer series pipeline scenario.

Lemma run_app (ticks1 ticks2 : list TickData) :
  forall (st : State) snaps1 st1 snaps2 st2,
  run st ticks1 = Some (snaps1, st1) ->
  run st1 ticks2 = Some (snaps2, st2) ->
  run st (ticks1 ++ ticks2) = Some (snaps1 ++ snaps2, st2).
Proof.
  induction ticks1 as [|tick rest IH]; intros st snaps1 st1 snaps2 st2 H1 H2.
  - simpl in H1. injection H1 as <- <-. exact H2.
  - simpl in H1 |- *.
    destruct (feed st tick) as [[snap st']|]; [|discriminate].
    destruct (run st' rest) as [[snaps st'']|] eqn:E; [|discriminate].
    injection H1 as <- <-.
    now rewrite (IH st' snaps st'' snaps2 st2 E H2).
Qed.

(** The store of a run is the store of the [AddTick] calls alone. *)
Lemma run_store (ticks : list TickData) :
  forall (st : State) snaps st',
  run st ticks = Some (snaps, st') ->
  AddTicks (store st) ticks = Some (store st')
  /\ List.length snaps = List.length ticks.
Proof.
  induction ticks as [|tick rest IH]; intros st snaps st' H; simpl in H |- *.
  - injection H as <- <-. auto.
  - unfold feed in H.
    destruct (AddTick (store st) tick) as [md|]; [|discriminate].
    destruct (ProcessTick (analysis st) md tick) as [[snap a]|];
      [|discriminate].
    destruct (run _ rest) as [[snaps' st'']|] eqn:E; [|discriminate].
    injection H as <- <-. destruct (IH _ _ _ E) as [HA HL]. simpl in HA.
    split; [exact HA|]. simpl. congruence.
Qed.

(** Two runs of the same ticks on the same store, whatever the analyzers:
    both succeed, end on the same store, and their snapshots agree tick for
    tick except on the average trend strength. *)
Lemma run_agree (ticks : list TickData) :
  forall st1 st2 : State,
  store st1 = store st2 ->
  (0 < maxSize (store st1))%Z ->
  withinCapacity (store st1) ->
  synchronized (store st1) ->
  exists snaps1 st1' snaps2 st2',
    run st1 ticks = Some (snaps1, st1')
    /\ run st2 ticks = Some (snaps2, st2')
    /\ store st1' = store st2'
    /\ maxSize (store st1') = maxSize (store st1)
    /\ Forall2 agreeExceptAverage snaps1 snaps2.
Proof.
  induction ticks as [|tick rest IH]; intros st1 st2 Heq Hpos Hcap Hsync.
  - exists [], st1, [], st2. simpl. auto.
  - assert (Hpos2 : (0 < maxSize (store st2))%Z) by now rewrite <- Heq.
    assert (Hcap2 : withinCapacity (store st2)) by now rewrite <- Heq.
    destruct (feed_spec st1 tick Hpos Hcap)
      as (md & E1 & Hmax & Hcap' & Hcase1).
    destruct (feed_spec st2 tick Hpos2 Hcap2)
      as (md2 & E2 & _ & _ & Hcase2).
    rewrite <- Heq, E1 in E2. injection E2 as <-.
    pose proof (AddTick_synchronized _ _ _ Hsync E1) as Hsync'.
    destruct Hcase1 as [[Hlow F1]|[Hhigh (atr1 & Hatr1 & F1)]];
      destruct Hcase2 as [[Hlow2 F2]|[Hhigh2 (atr2 & Hatr2 & F2)]];
      try lia; cbv zeta in F1, F2.
    + destruct (IH {| store := md; analysis := analysis st1 |}
                   {| store := md; analysis := analysis st2 |})
        as (snaps1 & st1' & snaps2 & st2' & R1 & R2 & Hst & Hm & Hag);
        simpl; auto; try lia.
      exists (None :: snaps1), st1', (None :: snaps2), st2'.
      simpl. rewrite F1, F2, R1, R2.
      repeat split; auto; [simpl in Hm; lia|].
      constructor; [exact I|exact Hag].
    + assert (atr1 = atr2).
      { destruct Hsync' as [Hh Hl].
        rewrite (calculateATR_store (analysis st1) (analysis st2)) in Hatr1
          by lia.
        congruence. }
      subst atr2.
      match type of F1 with
      | _ = Some (_, {| store := _; analysis := ?a |}) => set (a1 := a) in *
      end.
      match type of F2 with
      | _ = Some (_, {| store := _; analysis := ?a |}) => set (a2 := a) in *
      end.
      destruct (IH {| store := md; analysis := a1 |}
                   {| store := md; analysis := a2 |})
        as (snaps1 & st1' & snaps2 & st2' & R1 & R2 & Hst & Hm & Hag);
        simpl; auto; try lia.
      eexists (_ :: snaps1), st1', (_ :: snaps2), st2'.
      simpl. rewrite F1, F2, R1, R2.
      repeat split; auto; [simpl in Hm; lia|].
      constructor; [|exact Hag].
      simpl. repeat split; reflexivity.
Qed.

Lemma run_total (ticks : list TickData) :
  forall st : State,
  (0 < maxSize (store st))%Z ->
  withinCapacity (store st) ->
  exists snaps st', run st ticks = Some (snaps, st').
Proof.
  induction ticks as [|tick rest IH]; intros st Hpos Hcap.
  - exists [], st. reflexivity.
  - destruct (feed_spec st tick Hpos Hcap)
      as (md & _ & Hmax & Hcap' & [[_ F]|[_ (atr & _ & F)]]);
      cbv zeta in F; simpl; rewrite F;
      match goal with
      | |- context [run ?s rest] =>
          destruct (IH s) as (snaps & st' & ->); simpl; try lia; auto
      end; eauto.
Qed.

(** Ticks that leave fewer than 20 prices give no snapshot and do not
    touch the analyzer. *)
Lemma run_quiet (ticks : list TickData) :
  forall st : State,
  (0 < maxSize (store st))%Z ->
  withinCapacity (store st) ->
  (len (priceHistory (store st)) + len ticks < 20)%Z ->
  (20 <= maxSize (store st))%Z ->
  exists st',
    run st ticks = Some (map (fun _ => None) ticks, st')
    /\ analysis st' = analysis st
    /\ maxSize (store st') = maxSize (store st)
    /\ withinCapacity (store st')
    /\ len (priceHistory (store st'))
       = (len (priceHistory (store st)) + len ticks)%Z.
Proof.
  induction ticks as [|tick rest IH]; intros st Hpos Hcap Hlen Hmax.
  - exists st. simpl.
    split; [reflexivity|]. split; [reflexivity|]. split; [reflexivity|].
    split; [assumption|]. unfold len. simpl. lia.
  - rewrite len_cons_Z in Hlen |- *. pose proof (len_nonneg rest) as Hr.
    destruct (feed_spec st tick Hpos Hcap)
      as (md' & E & Hmax' & Hcap' & Hcase).
    pose proof (AddTick_len _ _ _ E) as Hl.
    destruct (Z.ltb_spec (len (priceHistory (store st))) (maxSize (store st)));
      [|lia].
    destruct Hcase as [[Hlow F]|[Hhigh _]]; [|lia].
    destruct (IH {| store := md'; analysis := analysis st |})
      as (st' & R & Ha & Hm & Hc & Hp); simpl; try lia; try assumption.
    exists st'. simpl in *. rewrite F, R.
    split; [reflexivity|]. split; [exact Ha|]. split; [lia|].
    split; [exact Hc|]. lia.
Qed.

Lemma calculateTrendStrength_short (prices : list R) :
  (len prices < 30)%Z -> calculateTrendStrength prices = 0.0.
Proof.
  intros H. unfold calculateTrendStrength.
  destruct (Z.ltb_spec (len prices) 30); [reflexivity|lia].
Qed.

(** A tick that leaves at least 20 prices, on a window that is not full:
    a snapshot is given, and the window gets the trend strength. *)
Lemma feed_mid (st : State) (tick : TickData) :
  (0 < maxSize (store st))%Z ->
  withinCapacity (store st) ->
  (19 <= len (priceHistory (store st)) < maxSize (store st))%Z ->
  (len (trendStrengthWindow (analysis st)) < 20)%Z ->
  exists m st',
    feed st tick = Some (Some m, st')
    /\ maxSize (store st') = maxSize (store st)
    /\ withinCapacity (store st')
    /\ len (priceHistory (store st'))
       = (len (priceHistory (store st)) + 1)%Z
    /\ trendStrengthWindow (analysis st')
       = trendStrengthWindow (analysis st)
         ++ [calculateTrendStrength (priceHistory (store st'))]
    /\ AvgTrendStrength m
       = averageOf (trendStrengthWindow (analysis st')).
Proof.
  intros Hpos Hcap Hlen Hwin.
  destruct (feed_spec st tick Hpos Hcap)
    as (md' & E & Hmax' & Hcap' & Hcase).
  pose proof (AddTick_len _ _ _ E) as Hl.
  destruct (Z.ltb_spec (len (priceHistory (store st))) (maxSize (store st)));
    [|lia].
  destruct Hcase as [[Hlow _]|[_ (atr & _ & F)]]; [lia|].
  cbv zeta in F. rewrite F. eexists _, _. split; [reflexivity|]. simpl.
  unfold nextWindow.
  destruct (Z.geb_spec (len (trendStrengthWindow (analysis st))) 20); [lia|].
  split; [exact Hmax'|]. split; [exact Hcap'|]. split; [lia|].
  split; reflexivity.
Qed.

Lemma sumLoop_snoc (l : list R) (v : R) : sumLoop (l ++ [v]) = sumLoop l + v.
Proof.
  unfold sumLoop. rewrite fold_left_app. reflexivity.
Qed.

(** Ticks that leave between 20 and 29 prices add zeros to a window that
    has room for them. *)
Lemma run_grow (ticks : list TickData) :
  forall st : State,
  (0 < maxSize (store st))%Z ->
  withinCapacity (store st) ->
  (19 <= len (priceHistory (store st)))%Z ->
  (len (priceHistory (store st)) + len ticks < 30)%Z ->
  (30 <= maxSize (store st))%Z ->
  (len (trendStrengthWindow (analysis st)) + len ticks <= 20)%Z ->
  exists snaps st',
    run st ticks = Some (snaps, st')
    /\ maxSize (store st') = maxSize (store st)
    /\ withinCapacity (store st')
    /\ len (priceHistory (store st'))
       = (len (priceHistory (store st)) + len ticks)%Z
    /\ len (trendStrengthWindow (analysis st'))
       = (len (trendStrengthWindow (analysis st)) + len ticks)%Z
    /\ sumLoop (trendStrengthWindow (analysis st'))
       = sumLoop (trendStrengthWindow (analysis st)).
Proof.
  induction ticks as [|tick rest IH]; intros st Hpos Hcap H19 H30 Hmax Hwin.
  - exists [], st. simpl.
    split; [reflexivity|]. split; [reflexivity|]. split; [assumption|].
    unfold len. simpl. repeat split; lia.
  - rewrite len_cons_Z in *. pose proof (len_nonneg rest) as Hr.
    destruct (feed_mid st tick Hpos Hcap)
      as (m & st1 & F & Hm1 & Hc1 & Hp1 & Hw1 & _); [lia|lia|].
    rewrite calculateTrendStrength_short in Hw1 by lia.
    assert (Hlw : len (trendStrengthWindow (analysis st1))
                  = (len (trendStrengthWindow (analysis st)) + 1)%Z).
    { rewrite Hw1, len_app. unfold len at 2. simpl. lia. }
    destruct (IH st1) as (snaps & st' & R & Hm & Hc & Hp & Hw & Hs);
      try lia; try assumption.
    exists (Some m :: snaps), st'. simpl. rewrite F, R.
    split; [reflexivity|]. split; [lia|]. split; [exact Hc|].
    split; [lia|]. split; [lia|].
    rewrite Hs, Hw1, sumLoop_snoc. lra.
Qed.

Lemma run_single (st : State) (tick : TickData) snap st' :
  feed st tick = Some (snap, st') -> run st [tick] = Some ([snap], st').
Proof. intros H. simpl. now rewrite H. Qed.

Lemma Round_IZR (z : Z) : math.Round (IZR z) = IZR z.
Proof.
  unfold math.Round. destruct (Rleb 0 (IZR z)).
  - f_equal. apply Zfloor_eq. lra.
  - replace (- IZR z + 0.5) with (IZR (- z) + 0.5)
      by (rewrite opp_IZR; lra).
    rewrite (Zfloor_eq (- z)) by lra. rewrite opp_IZR. lra.
Qed.

(** Rounding to 1..8 decimals leaves an integer price as it is. *)
Lemma round_IZR (n k : Z) : (1 <= n <= 8)%Z -> round n (IZR k) = IZR k.
Proof.
  intros Hn. unfold round, math.Pow10. cbv zeta.
  assert (Hp : exists p : Z, powerRZ 10 n = IZR p /\ (0 < p)%Z).
  { assert (n = 1 \/ n = 2 \/ n = 3 \/ n = 4 \/ n = 5 \/ n = 6 \/ n = 7
            \/ n = 8)%Z as Hc by lia.
    repeat destruct Hc as [->|Hc]; try subst n;
      [exists 10%Z | exists 100%Z | exists 1000%Z | exists 10000%Z
      | exists 100000%Z | exists 1000000%Z | exists 10000000%Z
      | exists 100000000%Z];
      (split; [simpl; lra|lia]). }
  destruct Hp as (p & -> & Hp).
  rewrite <- mult_IZR, Round_IZR, mult_IZR.
  assert (0 < IZR p) by (apply IZR_lt; lia). field. lra.
Qed.

(** The prices a store holds after ticks at integer prices, when none
    was dropped: the prices themselves. *)
Lemma AddTicks_integer_prices (ticks : list TickData) (md' : MarketData) :
  ticks <> [] ->
  AddTicks NewMarketData ticks = Some md' ->
  len (priceHistory md') = len ticks ->
  Forall (fun t => exists k, Price t = IZR k) ticks ->
  priceHistory md' = map Price ticks.
Proof.
  intros Hne E Hlen Hint.
  destruct ticks as [|first rest]; [contradiction|].
  assert (Hpos : (0 < maxSize NewMarketData)%Z) by reflexivity.
  assert (Hcap : withinCapacity NewMarketData)
    by (unfold withinCapacity, len; simpl; lia).
  destruct (AddTick_bounded NewMarketData first Hpos Hcap)
    as (md1 & E1 & Hmax1 & Hcap1 & Hr1 & (older1 & Hsuf1)).
  simpl in Hr1, Hsuf1.
  destruct (AddTicks_fixed_precision rest md1)
    as (md2 & E2 & Hr2 & _ & _ & (older2 & Hsuf2));
    [lia|lia|assumption|].
  simpl in E. rewrite E1, E2 in E. injection E as ->.
  assert (Hround : forall l, Forall (fun t => exists k, Price t = IZR k) l ->
            map (fun t => round (roundNum md1) (Price t)) l = map Price l).
  { induction 1 as [|t l [k Hk] _ IH]; simpl; [reflexivity|].
    rewrite IH, Hk, round_IZR by lia. reflexivity. }
  inversion Hint as [|? ? [k Hk] Hrest]; subst.
  rewrite Hround in Hsuf2 by assumption.
  rewrite Hk, round_IZR in Hsuf1 by lia.
  assert (Hall : IZR k :: map Price rest
                 = (older1 ++ older2) ++ priceHistory md').
  { rewrite <- app_assoc, <- Hsuf2, app_assoc, <- Hsuf1. reflexivity. }
  assert (Hl : List.length (older1 ++ older2) = 0%nat).
  { apply (f_equal (@List.length R)) in Hall.
    rewrite length_app in Hall. simpl in Hall. rewrite length_map in Hall.
    unfold len in Hlen. simpl in Hlen. lia. }
  apply length_zero_iff_nil in Hl. rewrite Hl in Hall. simpl in Hall.
  simpl. rewrite Hk. now rewrite Hall.
Qed.

(** The trend-strength window after a value has been put in: the last 20
    values. *)
Lemma nextWindow_lastN (window : list R) (trendStrength : R) :
  (List.length window <= 20)%nat ->
  nextWindow window trendStrength = lastN 20 (window ++ [trendStrength]).
Proof.
  intros H. unfold nextWindow.
  destruct (Z.geb_spec (len window) 20) as [Hge|Hlt].
  - unfold lastN. rewrite length_app. simpl List.length.
    unfold len in Hge.
    replace (List.length window + 1 - 20)%nat with 1%nat by lia.
    destruct window as [|x w]; [simpl in Hge; lia | reflexivity].
  - symmetry. apply lastN_all. rewrite length_app. simpl.
    unfold len in Hlt. lia.
Qed.

(** Two runs over one store whose trend-strength windows end with the
    same values [c]: the windows keep a common end, which grows by one
    value with every snapshot, and once it holds 20 values the two
    averages are equal. *)
Lemma run_replay (ticks : list TickData) :
  forall (st1 st2 : State) (p1 p2 c : list R),
  store st1 = store st2 ->
  (0 < maxSize (store st1))%Z ->
  withinCapacity (store st1) ->
  trendStrengthWindow (analysis st1) = lastN 20 (p1 ++ c) ->
  trendStrengthWindow (analysis st2) = lastN 20 (p2 ++ c) ->
  (len (priceHistory (store st1)) <= len c + 19)%Z ->
  exists snaps1 st1' snaps2 st2' c',
    run st1 ticks = Some (snaps1, st1')
    /\ run st2 ticks = Some (snaps2, st2')
    /\ trendStrengthWindow (analysis st1') = lastN 20 (p1 ++ c')
    /\ trendStrengthWindow (analysis st2') = lastN 20 (p2 ++ c')
    /\ forall i m1 m2,
         nth_error snaps1 i = Some (Some m1) ->
         nth_error snaps2 i = Some (Some m2) ->
         (39 <= Z.min (len (priceHistory (store st1)) + Z.of_nat i + 1)
                  (maxSize (store st1)))%Z ->
         AvgTrendStrength m1 = AvgTrendStrength m2.
Proof.
  induction ticks as [|tick rest IH];
    intros st1 st2 p1 p2 c Heq Hpos Hcap Hw1 Hw2 Hc.
  - exists [], st1, [], st2, c. simpl.
    split; [reflexivity|]. split; [reflexivity|]. split; [exact Hw1|].
    split; [exact Hw2|]. intros [|i] m1 m2 H; discriminate.
  - assert (Hpos2 : (0 < maxSize (store st2))%Z) by now rewrite <- Heq.
    assert (Hcap2 : withinCapacity (store st2)) by now rewrite <- Heq.
    destruct (feed_spec st1 tick Hpos Hcap)
      as (md & E1 & Hmax & Hcap' & Hcase1).
    destruct (feed_spec st2 tick Hpos2 Hcap2)
      as (md2 & E2 & _ & _ & Hcase2).
    rewrite <- Heq, E1 in E2. injection E2 as <-.
    pose proof (AddTick_len _ _ _ E1) as Hlen.
    assert (HL : len (priceHistory md)
                 = Z.min (len (priceHistory (store st1)) + 1)
                     (maxSize (store st1))).
    { destruct Hcap as (Hp & _). rewrite Hlen.
      destruct (Z.ltb_spec (len (priceHistory (store st1)))
                  (maxSize (store st1))); lia. }
    destruct Hcase1 as [[Hlow F1]|[Hhigh (atr1 & _ & F1)]];
      destruct Hcase2 as [[Hlow2 F2]|[Hhigh2 (atr2 & _ & F2)]];
      try lia; cbv zeta in F1, F2.
    + pose proof (len_nonneg c) as Hc0.
      destruct (IH {| store := md; analysis := analysis st1 |}
                   {| store := md; analysis := analysis st2 |} p1 p2 c
                   eq_refl ltac:(cbn [store]; lia) Hcap' Hw1 Hw2
                   ltac:(cbn [store]; lia))
        as (snaps1 & st1' & snaps2 & st2' & c' & R1 & R2 & W1 & W2 & Havg).
      exists (None :: snaps1), st1', (None :: snaps2), st2', c'.
      cbn [run]. rewrite F1, F2, R1, R2.
      split; [reflexivity|]. split; [reflexivity|]. split; [exact W1|].
      split; [exact W2|].
      intros [|i] m1 m2 H1 H2 Hi; [discriminate|].
      cbn [nth_error] in H1, H2. apply (Havg i m1 m2 H1 H2).
      cbn [store]. rewrite Hmax. lia.
    + set (t := calculateTrendStrength (priceHistory md)) in *.
      assert (N1 : nextWindow (trendStrengthWindow (analysis st1)) t
                   = lastN 20 (p1 ++ (c ++ [t]))).
      { rewrite nextWindow_lastN
          by (rewrite Hw1, length_lastN; lia).
        now rewrite Hw1, lastN_lastN_app, <- app_assoc. }
      assert (N2 : nextWindow (trendStrengthWindow (analysis st2)) t
                   = lastN 20 (p2 ++ (c ++ [t]))).
      { rewrite nextWindow_lastN
          by (rewrite Hw2, length_lastN; lia).
        now rewrite Hw2, lastN_lastN_app, <- app_assoc. }
      rewrite N1 in F1. rewrite N2 in F2.
      match type of F1 with
      | _ = Some (_, {| store := _; analysis := ?a |}) => set (a1 := a) in *
      end.
      match type of F2 with
      | _ = Some (_, {| store := _; analysis := ?a |}) => set (a2 := a) in *
      end.
      assert (Hc' : (len (priceHistory md) <= len (c ++ [t]) + 19)%Z).
      { rewrite len_app. change (len [t]) with 1%Z. lia. }
      destruct (IH {| store := md; analysis := a1 |}
                   {| store := md; analysis := a2 |} p1 p2 (c ++ [t])
                   eq_refl ltac:(cbn [store]; lia) Hcap' eq_refl eq_refl Hc')
        as (snaps1 & st1' & snaps2 & st2' & c' & R1 & R2 & W1 & W2 & Havg).
      eexists (_ :: snaps1), st1', (_ :: snaps2), st2', c'.
      cbn [run]. rewrite F1, F2, R1, R2.
      split; [reflexivity|]. split; [reflexivity|]. split; [exact W1|].
      split; [exact W2|].
      intros [|i] m1 m2 H1 H2 Hi; cbn [nth_error] in H1, H2.
      * injection H1 as <-. injection H2 as <-.
        cbn [AvgTrendStrength storeMetrics].
        assert (H20 : (20 <= List.length (c ++ [t]))%nat).
        { rewrite length_app. simpl List.length. unfold len in *. lia. }
        now rewrite !(lastN_app_long 20 _ (c ++ [t]) H20).
      * apply (Havg i m1 m2 H1 H2). cbn [store]. rewrite Hmax. lia.
Qed.

End Replay.

Section ReplayClaims.
Import types market analyzer series pipeline scenario.

(** C6 (amended): for every tick sequence, processing it tick by tick
    (AddTick, then ProcessTick) from a new store and a new analyzer,
    calling Reset() and processing it again succeeds both times and gives,
    tick for tick, a snapshot in the second run exactly when the first run
    gave one, equal to it in RealizedVolatility, ATR, RelativeStrength,
    OrderImbalance, TrendStrength and MarketEfficiencyRatio.
    AvgTrendStrength is the mean of the analyzer's window of the last 20
    trend strengths, which Reset() does not clear: it can differ as long as
    values of the first run are in the window, and from the 39th tick on,
    the 20th snapshot of the second run, the two snapshots are equal. *)
Theorem replay_agrees_except_average (ticks : list TickData) :
  exists snaps1 st1 snaps2 st2,
    run initial ticks = Some (snaps1, st1)
    /\ run (reset st1) ticks = Some (snaps2, st2)
    /\ Forall2 agreeExceptAverage snaps1 snaps2
    /\ forall i m1 m2,
         (38 <= i)%nat ->
         nth_error snaps1 i = Some (Some m1) ->
         nth_error snaps2 i = Some (Some m2) ->
         m1 = m2.
Proof.
  assert (Hpos : (0 < maxSize (store initial))%Z) by reflexivity.
  assert (Hcap : withinCapacity (store initial))
    by (unfold withinCapacity, len; simpl; lia).
  assert (Hsync : synchronized (store initial))
    by (unfold synchronized, len; simpl; lia).
  destruct (run_agree ticks initial initial eq_refl Hpos Hcap Hsync)
    as (snaps1 & st1 & _ & _ & R1 & _ & _ & Hmax & _).
  assert (Heq : store initial = store (reset st1)).
  { unfold reset, Reset. simpl. rewrite Hmax. reflexivity. }
  destruct (run_agree ticks initial (reset st1) Heq Hpos Hcap Hsync)
    as (snaps1' & st1' & snaps2 & st2 & R1' & R2 & _ & _ & Hag).
  rewrite R1 in R1'. injection R1' as <- <-.
  exists snaps1, st1, snaps2, st2.
  split; [exact R1|]. split; [exact R2|]. split; [exact Hag|].
  destruct (run_replay ticks initial initial [] [] [] eq_refl Hpos Hcap
              eq_refl eq_refl)
    as (s1 & x1 & _ & _ & c1 & Q1 & _ & W1 & _);
    [unfold len; simpl; lia|].
  rewrite R1 in Q1. injection Q1 as <- <-.
  destruct (run_replay ticks initial (reset st1) [] c1 [] Heq Hpos Hcap
              eq_refl)
    as (s1 & x1 & s2 & x2 & _ & Q1 & Q2 & _ & _ & Havg);
    [cbn [reset analysis]; now rewrite W1, app_nil_r
    |unfold len; simpl; lia|].
  rewrite R1 in Q1. injection Q1 as <- <-.
  rewrite R2 in Q2. injection Q2 as <- <-.
  intros i m1 m2 Hi H1 H2.
  pose proof (Forall2_nth_error _ _ _ _ _ _ Hag H1 H2) as Ha.
  cbn [agreeExceptAverage] in Ha.
  destruct Ha as (Hrv & Hatr & Hrs & Hoi & Hts & Hmer).
  assert (Hav : AvgTrendStrength m1 = AvgTrendStrength m2).
  { apply (Havg i m1 m2 H1 H2).
    change (len (priceHistory (store initial))) with 0%Z.
    change (maxSize (store initial)) with 1000%Z. lia. }
  destruct m1, m2. cbn in *. congruence.
Qed.

(** C6 (as stated, refuted): thirty ticks at the prices 100, 101, ..., 129.
    The twentieth snapshot of the first run has an average trend strength
    of 0 (the window holds one value); after Reset() the twentieth
    snapshot of the second run has a positive one (the window still holds
    the eleven values of the first run, the last of them positive). *)
Lemma replay_average_differs :
  exists snaps1 st1 snaps2 st2 m1 m2,
    run initial risingTicks = Some (snaps1, st1)
    /\ run (reset st1) risingTicks = Some (snaps2, st2)
    /\ nth_error snaps1 19 = Some (Some m1)
    /\ nth_error snaps2 19 = Some (Some m2)
    /\ AvgTrendStrength m1 = 0
    /\ 0 < AvgTrendStrength m2
    /\ snaps1 <> snaps2.
Proof.
  set (q := map tickAt [100; 101; 102; 103; 104; 105; 106; 107; 108; 109;
                        110; 111; 112; 113; 114; 115; 116; 117; 118]).
  set (g := map tickAt [120; 121; 122; 123; 124; 125; 126; 127; 128]).
  assert (Hsplit : risingTicks = q ++ [tickAt 119] ++ g ++ [tickAt 129])
    by reflexivity.
  assert (Hq : len q = 19%Z) by reflexivity.
  assert (Hg : len g = 9%Z) by reflexivity.
  assert (Hpos : (0 < maxSize (store initial))%Z) by reflexivity.
  assert (Hcap : withinCapacity (store initial))
    by (unfold withinCapacity, len; simpl; lia).
  (* the first run *)
  destruct (run_quiet q initial Hpos Hcap)
    as (a19 & Ra19 & Ha19 & Hm19 & Hc19 & Hp19);
    [rewrite Hq; simpl; lia | simpl; lia |].
  simpl in Hm19. rewrite Hq in Hp19. simpl in Hp19.
  destruct (feed_mid a19 (tickAt 119))
    as (m1 & a20 & Fa20 & Hm20 & Hc20 & Hp20 & Hw20 & Havg1);
    [lia | assumption | lia | rewrite Ha19; unfold len; simpl; lia |].
  rewrite calculateTrendStrength_short in Hw20 by lia.
  rewrite Ha19 in Hw20. simpl in Hw20.
  destruct (run_grow g a20)
    as (sg & a29 & Ra29 & Hm29 & Hc29 & Hp29 & Hlw29 & Hs29);
    [lia | assumption | lia | lia | lia
    | rewrite Hw20, Hg; unfold len; simpl; lia |].
  rewrite Hw20, Hg in Hlw29. rewrite Hw20 in Hs29.
  destruct (feed_mid a29 (tickAt 129))
    as (m30 & a30 & Fa30 & Hm30 & Hc30 & Hp30 & Hw30 & _);
    [lia | assumption | lia | unfold len in *; simpl in *; lia |].
  assert (R1 : run initial risingTicks
               = Some (map (fun _ => None) q ++ [Some m1] ++ sg ++ [Some m30],
                       a30)).
  { rewrite Hsplit.
    apply (run_app _ _ _ _ a19); [exact Ra19|].
    apply (run_app _ _ _ _ a20); [now apply run_single|].
    apply (run_app _ _ _ _ a29); [exact Ra29|].
    now apply run_single. }
  (* the last price history of the first run is the rising prices *)
  assert (Hprices : priceHistory (store a30) = risingPrices).
  { destruct (run_store _ _ _ _ R1) as [E _]. simpl store in E.
    rewrite (AddTicks_integer_prices risingTicks (store a30)).
    - reflexivity.
    - discriminate.
    - exact E.
    - rewrite Hp30, Hp29, Hp20, Hp19, Hg. reflexivity.
    - unfold risingTicks, risingPrices. simpl.
      repeat constructor; eexists; reflexivity. }
  assert (Htrend : 0 < calculateTrendStrength (priceHistory (store a30))).
  { rewrite Hprices. apply trend_positive_increasing.
    - vm_compute. discriminate.
    - unfold risingPrices. repeat constructor; lra.
    - unfold risingPrices. repeat constructor; lra. }
  assert (Hsum30 : 0 < sumLoop (trendStrengthWindow (analysis a30))).
  { rewrite Hw30, sumLoop_snoc, Hs29. unfold sumLoop. simpl. lra. }
  assert (Hlen30 : len (trendStrengthWindow (analysis a30)) = 11%Z).
  { rewrite Hw30, len_app, Hlw29. reflexivity. }
  (* the second run *)
  assert (Hpos30 : (0 < maxSize (store a30))%Z) by lia.
  destruct (reset_ready a30 Hpos30) as (Hposr & Hcapr & _).
  destruct (run_quiet q (reset a30) Hposr Hcapr)
    as (b19 & Rb19 & Hb19 & Hmb19 & Hcb19 & Hpb19);
    [rewrite Hq; simpl; lia | simpl; lia |].
  simpl in Hmb19, Hb19. rewrite Hq in Hpb19. simpl in Hpb19.
  destruct (feed_mid b19 (tickAt 119))
    as (m2 & b20 & Fb20 & Hmb20 & Hcb20 & Hpb20 & Hwb20 & Havg2);
    [lia | assumption | lia | rewrite Hb19; lia |].
  rewrite calculateTrendStrength_short in Hwb20 by lia.
  rewrite Hb19 in Hwb20.
  destruct (run_total (g ++ [tickAt 129]) b20) as (sr & b30 & Rb30);
    [lia | assumption |].
  assert (R2 : run (reset a30) risingTicks
               = Some (map (fun _ => None) q ++ [Some m2] ++ sr, b30)).
  { rewrite Hsplit.
    apply (run_app _ _ _ _ b19); [exact Rb19|].
    apply (run_app _ _ _ _ b20); [now apply run_single|].
    exact Rb30. }
  assert (Hn : forall (m : MarketMetrics) rest,
            nth_error (map (fun _ : TickData => @None MarketMetrics) q
                       ++ [Some m] ++ rest) 19
            = Some (Some m)).
  { intros m rest. rewrite nth_error_app2 by (rewrite length_map; simpl; lia).
    reflexivity. }
  assert (Hzero : AvgTrendStrength m1 = 0).
  { rewrite Havg1, Hw20. unfold averageOf, len. simpl. lra. }
  assert (Hplus : 0 < AvgTrendStrength m2).
  { rewrite Havg2, Hwb20. unfold averageOf.
    rewrite len_app, Hlen30. simpl.
    rewrite sumLoop_snoc. lra. }
  exists (map (fun _ => None) q ++ [Some m1] ++ sg ++ [Some m30]), a30,
    (map (fun _ => None) q ++ [Some m2] ++ sr), b30, m1, m2.
  split; [exact R1|]. split; [exact R2|].
  split; [apply Hn|]. split; [apply Hn|].
  split; [exact Hzero|]. split; [exact Hplus|].
  intros Heq.
  apply (f_equal (fun l => nth_error l 19)) in Heq.
  rewrite !Hn in Heq. injection Heq as Heq. rewrite Heq in Hzero. lra.
Qed.

End ReplayClaims.

(** ** Worked examples of the precision inference *)

Section PrecisionExamples.
Import types market scenario.

Lemma roundHalfEven_IZR (z : Z) : fmt.roundHalfEven (IZR z) = z.
Proof.
  unfold fmt.roundHalfEven. cbv zeta. rewrite ZfloorZ.
  replace (Rltb (IZR z - IZR z) 0.5) with true
    by (symmetry; apply Rltb_true; lra).
  reflexivity.
Qed.

(** The length of the integer part of a price with at most six decimals:
    [scaled] is the price in millionths. *)
Lemma integerPartLen_scaled (x : R) (scaled : Z) :
  Rabs x * 1e6 = IZR scaled ->
  fmt.integerPartLen x
  = ((if Rltb x 0 then 1 else 0) + fmt.nbDigits (scaled / 1000000))%Z.
Proof.
  intros H. unfold fmt.integerPartLen. cbv zeta.
  now rewrite H, roundHalfEven_IZR.
Qed.

Example integerPartLen_100 : fmt.integerPartLen 100 = 3%Z.
Proof.
  rewrite (integerPartLen_scaled 100 100000000)
    by (rewrite Rabs_pos_eq; lra).
  replace (Rltb 100 0) with false by (symmetry; apply Rltb_false; lra).
  reflexivity.
Qed.

Example integerPartLen_43250_5 : fmt.integerPartLen 43250.5 = 5%Z.
Proof.
  rewrite (integerPartLen_scaled 43250.5 43250500000)
    by (rewrite Rabs_pos_eq; lra).
  replace (Rltb 43250.5 0) with false by (symmetry; apply Rltb_false; lra).
  reflexivity.
Qed.

Example integerPartLen_0_5 : fmt.integerPartLen 0.5 = 1%Z.
Proof.
  rewrite (integerPartLen_scaled 0.5 500000)
    by (rewrite Rabs_pos_eq; lra).
  replace (Rltb 0.5 0) with false by (symmetry; apply Rltb_false; lra).
  reflexivity.
Qed.


(** The first tick of a new store at price 100: three decimals. *)
Example first_tick_at_100 :
  AddTick NewMarketData (tickAt 100)
  = Some {|
      priceHistory := [100]; volumeHistory := [1];
      bidVolume := [1]; askVolume := [];
      timeStamps := [t0];
      highPrices := [100]; lowPrices := [100];
      maxSize := 1000; roundNum := 3; prevPrice := 100
    |}.
Proof.
  unfold AddTick, tickAt, NewMarketData.
  cbn [Price Volume IsAsk Timestamp roundNum prevPrice maxSize priceHistory
       volumeHistory timeStamps highPrices lowPrices askVolume bidVolume].
  rewrite integerPartLen_100.
  change (Z.max 1 (Z.min 8 (6 - 3))) with 3%Z.
  change (0 =? 0)%Z with true. cbv iota beta zeta.
  rewrite (round_IZR 3 100) by lia.
  reflexivity.
Qed.

(** Rounding 43250.57 to one decimal. *)
Example round_1_decimal : round 1 43250.57 = 43250.6.
Proof.
  unfold round, math.Pow10, math.Round. cbv zeta. simpl powerRZ.
  replace (Rleb 0 (43250.57 * (10 * 1))) with true
    by (symmetry; apply Rleb_true; lra).
  rewrite (Zfloor_eq 432506) by lra. lra.
Qed.

End PrecisionExamples.

(** * Further properties *)

(** ** The store: lengths, extremes, rounding, reset *)

Section StoreMore.
Import types market.

(** What a successful [AddTick] has done to each of the seven sequences. *)
Lemma AddTick_sequences (md : MarketData) (tick : TickData)
    (md' : MarketData) :
  AddTick md tick = Some md' ->
  let price := round (roundNum md') (Price tick) in
  let high :=
    if (len (highPrices md) =? 0)%Z || Rgtb price (lastOf (highPrices md))
    then price else lastOf (highPrices md) in
  let low :=
    if (len (lowPrices md) =? 0)%Z || Rltb price (lastOf (lowPrices md))
    then price else lastOf (lowPrices md) in
  maxSize md' = maxSize md
  /\ addToLimitedSlice (maxSize md) (priceHistory md) price
     = Some (priceHistory md')
  /\ addToLimitedSlice (maxSize md) (volumeHistory md) (Volume tick)
     = Some (volumeHistory md')
  /\ addToLimitedSlice (maxSize md) (timeStamps md) (Timestamp tick)
     = Some (timeStamps md')
  /\ addToLimitedSlice (maxSize md) (highPrices md) high
     = Some (highPrices md')
  /\ addToLimitedSlice (maxSize md) (lowPrices md) low
     = Some (lowPrices md')
  /\ (if IsAsk tick
      then addToLimitedSlice (maxSize md) (askVolume md) (Volume tick)
      else Some (askVolume md)) = Some (askVolume md')
  /\ (if IsAsk tick
      then Some (bidVolume md)
      else addToLimitedSlice (maxSize md) (bidVolume md) (Volume tick))
     = Some (bidVolume md').
Proof.
  unfold AddTick. cbv zeta.
  destruct (if (roundNum md =? 0)%Z then _ else _) as [rn pp].
  destruct (addToLimitedSlice _ (priceHistory md) _) eqn:Ep; [|discriminate].
  destruct (addToLimitedSlice _ (volumeHistory md) _) eqn:Ev; [|discriminate].
  destruct (addToLimitedSlice _ (timeStamps md) _) eqn:Et; [|discriminate].
  destruct (if (len (highPrices md) =? 0)%Z || _ then _ else _) eqn:Eh;
    [|discriminate].
  destruct (if (len (lowPrices md) =? 0)%Z || _ then _ else _) eqn:El;
    [|discriminate].
  destruct (if IsAsk tick then _ else Some (askVolume md)) eqn:Ea;
    [|discriminate].
  destruct (if IsAsk tick then Some (bidVolume md) else _) eqn:Eb;
    [|discriminate].
  intros [= <-]. simpl.
  split; [reflexivity|]. split; [exact Ep|].
  split; [reflexivity|]. split; [reflexivity|]. split.
  { destruct ((len (highPrices md) =? 0)%Z
              || Rgtb (round rn (Price tick)) (lastOf (highPrices md)));
      exact Eh. }
  split.
  { destruct ((len (lowPrices md) =? 0)%Z
              || Rltb (round rn (Price tick)) (lastOf (lowPrices md)));
      exact El. }
  split; first [exact Ea | exact Eb | reflexivity].
Qed.

(** A successful insertion ends with the value and is as long as the
    capacity allows. *)
Lemma addToLimitedSlice_shape {A : Type} (maxSize : Z) (s : list A)
    (value : A) (s' : list A) :
  addToLimitedSlice maxSize s value = Some s' ->
  (s' = s ++ [value] /\ (len s < maxSize)%Z)
  \/ (s' = tl s ++ [value] /\ s <> [] /\ (maxSize <= len s)%Z).
Proof.
  unfold addToLimitedSlice.
  destruct (Z.geb_spec (len s) maxSize) as [Hge|Hlt].
  - destruct s as [|oldest rest].
    + unfold slice, len. simpl. discriminate.
    + rewrite slice_from_1. intros [= <-]. right.
      split; [reflexivity|]. split; [discriminate|lia].
  - intros [= <-]. left. split; [reflexivity|lia].
Qed.

Lemma NewMarketData_ready :
  (0 < maxSize NewMarketData)%Z /\ withinCapacity NewMarketData.
Proof.
  split; [reflexivity|]. unfold withinCapacity, len. simpl. lia.
Qed.

Lemma min_step (a k m : Z) :
  (0 <= k)%Z -> (a <= m)%Z ->
  Z.min ((if (a <? m)%Z then a + 1 else a) + k) m = Z.min (a + (k + 1)) m.
Proof.
  intros Hk Ha. destruct (Z.ltb_spec a m); lia.
Qed.

(** The lengths of the seven sequences after any ticks. *)
Lemma AddTicks_lengths (ticks : list TickData) :
  forall md md' : MarketData,
  (0 < maxSize md)%Z ->
  withinCapacity md ->
  AddTicks md ticks = Some md' ->
  maxSize md' = maxSize md
  /\ len (priceHistory md')
     = Z.min (len (priceHistory md) + len ticks) (maxSize md)
  /\ len (volumeHistory md')
     = Z.min (len (volumeHistory md) + len ticks) (maxSize md)
  /\ len (timeStamps md')
     = Z.min (len (timeStamps md) + len ticks) (maxSize md)
  /\ len (highPrices md')
     = Z.min (len (highPrices md) + len ticks) (maxSize md)
  /\ len (lowPrices md')
     = Z.min (len (lowPrices md) + len ticks) (maxSize md)
  /\ len (askVolume md')
     = Z.min (len (askVolume md) + len (filter IsAsk ticks)) (maxSize md)
  /\ len (bidVolume md')
     = Z.min (len (bidVolume md)
              + len (filter (fun t => negb (IsAsk t)) ticks)) (maxSize md).
Proof.
  induction ticks as [|tick rest IH]; intros md md' Hpos Hcap E.
  - simpl in E. injection E as <-.
    destruct Hcap as (? & ? & ? & ? & ? & ? & ?).
    simpl filter. change (@len TickData []) with 0%Z.
    rewrite !Z.add_0_r. repeat split; lia.
  - simpl in E. destruct (AddTick md tick) as [md1|] eqn:E1; [|discriminate].
    destruct (AddTick_bounded md tick Hpos Hcap)
      as (md1' & E1' & Hmax1 & Hcap1 & _).
    rewrite E1 in E1'. injection E1' as <-.
    destruct (IH md1 md') as (Hm & Hp & Hv & Ht & Hh & Hl & Ha & Hb);
      [rewrite Hmax1; exact Hpos|assumption|assumption|].
    destruct (AddTick_sequences _ _ _ E1)
      as (_ & Sp & Sv & St & Sh & Sl & Sa & Sb).
    cbv zeta in Sp, Sh, Sl.
    apply addToLimitedSlice_len in Sp, Sv, St, Sh, Sl.
    destruct Hcap as (Cp & Cv & Ct & Ch & Cl & Cb & Ca).
    rewrite Hmax1 in Hm, Hp, Hv, Ht, Hh, Hl, Ha, Hb.
    rewrite len_cons_Z. pose proof (len_nonneg rest) as Hr.
    split; [exact Hm|].
    split; [rewrite Hp, Sp; now apply min_step|].
    split; [rewrite Hv, Sv; now apply min_step|].
    split; [rewrite Ht, St; now apply min_step|].
    split; [rewrite Hh, Sh; now apply min_step|].
    split; [rewrite Hl, Sl; now apply min_step|].
    simpl filter. destruct (IsAsk tick); simpl negb; cbv iota.
    + injection Sb as Sb. rewrite <- Sb in Hb.
      apply addToLimitedSlice_len in Sa.
      rewrite len_cons_Z.
      split; [|exact Hb]. rewrite Ha, Sa.
      apply min_step; [apply len_nonneg|assumption].
    + injection Sa as Sa. rewrite <- Sa in Ha.
      apply addToLimitedSlice_len in Sb.
      rewrite len_cons_Z.
      split; [exact Ha|]. rewrite Hb, Sb.
      apply min_step; [apply len_nonneg|assumption].
Qed.

(** X1: after any sequence of ticks on a new store, the price, volume,
    timestamp, high and low sequences all hold min(number of ticks, 1000)
    elements, the ask and bid volume sequences hold min(number of asks,
    1000) and min(number of bids, 1000), and HasMinimumData(n) is true
    exactly for n <= min(number of ticks, 1000). *)
Theorem history_lengths (ticks : list TickData) :
  exists md,
    AddTicks NewMarketData ticks = Some md
    /\ let n := Z.min (len ticks) 1000 in
       len (priceHistory md) = n
       /\ len (volumeHistory md) = n
       /\ len (timeStamps md) = n
       /\ len (highPrices md) = n
       /\ len (lowPrices md) = n
       /\ len (askVolume md) = Z.min (len (filter IsAsk ticks)) 1000
       /\ len (bidVolume md)
          = Z.min (len (filter (fun t => negb (IsAsk t)) ticks)) 1000
       /\ forall minTicks : Z,
            HasMinimumData md minTicks = (minTicks <=? n)%Z.
Proof.
  destruct NewMarketData_ready as [Hpos Hcap].
  destruct (AddTicks_bounded ticks NewMarketData Hpos Hcap)
    as (md & E & _ & _).
  destruct (AddTicks_lengths ticks NewMarketData md Hpos Hcap E)
    as (_ & Hp & Hv & Ht & Hh & Hl & Ha & Hb).
  exists md. split; [exact E|]. cbv zeta.
  change (maxSize NewMarketData) with 1000%Z in *.
  cbn [priceHistory volumeHistory timeStamps highPrices lowPrices askVolume
       bidVolume NewMarketData] in Hp, Hv, Ht, Hh, Hl, Ha, Hb.
  change (@len R []) with 0%Z in *.
  change (@len time.Time []) with 0%Z in *.
  rewrite Z.add_0_l in Hp, Hv, Ht, Hh, Hl, Ha, Hb.
  repeat (split; [assumption|]).
  intros minTicks. unfold HasMinimumData. rewrite Hp, Z.geb_leb.
  reflexivity.
Qed.

Lemma Sorted_snoc {A : Type} (P : A -> A -> Prop) (l : list A) (a d : A) :
  Sorted P l -> (l = [] \/ P (last l d) a) -> Sorted P (l ++ [a]).
Proof.
  induction l as [|x l IH]; intros Hs Hl; simpl.
  - repeat constructor.
  - apply Sorted_inv in Hs as [Hs Hhd].
    destruct Hl as [Hl|Hl]; [discriminate|].
    destruct l as [|y l].
    + simpl in *. repeat constructor. exact Hl.
    + constructor.
      * apply IH; [exact Hs|right; exact Hl].
      * simpl. constructor. now inversion Hhd.
Qed.

Lemma Sorted_tl {A : Type} (P : A -> A -> Prop) (l : list A) :
  Sorted P l -> Sorted P (tl l).
Proof.
  destruct l; intros H; [exact H|]. now apply Sorted_inv in H.
Qed.

Lemma last_tl {A : Type} (l : list A) (d : A) :
  tl l <> [] -> last (tl l) d = last l d.
Proof.
  destruct l as [|x [|y l]]; simpl; intros H; try contradiction; reflexivity.
Qed.

Lemma Forall2_tl {A B : Type} (P : A -> B -> Prop) (l1 : list A)
    (l2 : list B) :
  Forall2 P l1 l2 -> Forall2 P (tl l1) (tl l2).
Proof.
  destruct 1; simpl; [constructor|assumption].
Qed.

Lemma Forall2_snoc {A B : Type} (P : A -> B -> Prop) (l1 : list A)
    (l2 : list B) (a : A) (b : B) :
  Forall2 P l1 l2 -> P a b -> Forall2 P (l1 ++ [a]) (l2 ++ [b]).
Proof.
  intros H Hab. apply Forall2_app; [exact H|]. now repeat constructor.
Qed.

Lemma len_zero_nil {A : Type} (l : list A) : (len l =? 0)%Z = true -> l = [].
Proof.
  destruct l; [reflexivity|]. unfold len. simpl. discriminate.
Qed.

(** After an insertion of [v], a sequence stays sorted when [v] follows
    the last element, and stays index by index related to another
    sequence of the same length that has had an insertion too. *)
Lemma insertion_sorted (P : R -> R -> Prop) (maxSize : Z) (s s' : list R)
    (v : R) :
  addToLimitedSlice maxSize s v = Some s' ->
  Sorted P s -> (s = [] \/ P (lastOf s) v) -> Sorted P s'.
Proof.
  intros E Hs Hl.
  destruct (addToLimitedSlice_shape _ _ _ _ E) as [[-> _]|(-> & Hne & _)].
  - now apply (Sorted_snoc P s v 0).
  - apply (Sorted_snoc P (tl s) v 0); [now apply Sorted_tl|].
    destruct (tl s) eqn:Et; [now left|right].
    rewrite <- Et, last_tl by (rewrite Et; discriminate).
    destruct Hl as [Hl|Hl]; [contradiction|exact Hl].
Qed.

Lemma insertion_pointwise (P : R -> R -> Prop) (maxSize : Z)
    (s1 s1' s2 s2' : list R) (v1 v2 : R) :
  addToLimitedSlice maxSize s1 v1 = Some s1' ->
  addToLimitedSlice maxSize s2 v2 = Some s2' ->
  Forall2 P s1 s2 -> P v1 v2 -> Forall2 P s1' s2'.
Proof.
  intros E1 E2 H Hv.
  assert (Hlen : len s1 = len s2)
    by (unfold len; now rewrite (Forall2_length H)).
  destruct (addToLimitedSlice_shape _ _ _ _ E1) as [[-> L1]|(-> & _ & L1)];
    destruct (addToLimitedSlice_shape _ _ _ _ E2) as [[-> L2]|(-> & _ & L2)];
    try lia.
  - now apply Forall2_snoc.
  - apply Forall2_snoc; [now apply Forall2_tl|exact Hv].
Qed.

Lemma AddTick_extremes (md : MarketData) (tick : TickData)
    (md' : MarketData) :
  extremesKept md -> AddTick md tick = Some md' -> extremesKept md'.
Proof.
  intros (Hsh & Hsl & Hph & Hlp) E.
  destruct (AddTick_sequences _ _ _ E) as (_ & Sp & _ & _ & Sh & Sl & _).
  cbv zeta in Sp, Sh, Sl.
  set (price := round (roundNum md') (Price tick)) in *.
  assert (Hhigh : price
                  <= (if (len (highPrices md) =? 0)%Z
                         || Rgtb price (lastOf (highPrices md))
                      then price else lastOf (highPrices md))
                  /\ (highPrices md = []
                      \/ lastOf (highPrices md)
                         <= (if (len (highPrices md) =? 0)%Z
                                || Rgtb price (lastOf (highPrices md))
                             then price else lastOf (highPrices md)))).
  { destruct (len (highPrices md) =? 0)%Z eqn:E0.
    - simpl. split; [lra|left; now apply len_zero_nil].
    - simpl. destruct (Rgtb price (lastOf (highPrices md))) eqn:Eg.
      + apply Rgtb_true in Eg. split; [lra|right; lra].
      + apply Rgtb_false in Eg. split; [lra|right; lra]. }
  assert (Hlow : (if (len (lowPrices md) =? 0)%Z
                     || Rltb price (lastOf (lowPrices md))
                  then price else lastOf (lowPrices md))
                 <= price
                 /\ (lowPrices md = []
                     \/ lastOf (lowPrices md)
                        >= (if (len (lowPrices md) =? 0)%Z
                               || Rltb price (lastOf (lowPrices md))
                            then price else lastOf (lowPrices md)))).
  { destruct (len (lowPrices md) =? 0)%Z eqn:E0.
    - simpl. split; [lra|left; now apply len_zero_nil].
    - simpl. destruct (Rltb price (lastOf (lowPrices md))) eqn:Eg.
      + apply Rltb_true in Eg. split; [lra|right; lra].
      + apply Rltb_false in Eg. split; [lra|right; lra]. }
  destruct Hhigh as [Hh1 Hh2]. destruct Hlow as [Hl1 Hl2].
  unfold extremesKept. split; [|split; [|split]].
  - exact (insertion_sorted Rle _ _ _ _ Sh Hsh Hh2).
  - exact (insertion_sorted Rge _ _ _ _ Sl Hsl Hl2).
  - exact (insertion_pointwise Rle _ _ _ _ _ _ _ Sp Sh Hph Hh1).
  - exact (insertion_pointwise Rle _ _ _ _ _ _ _ Sl Sp Hlp Hl1).
Qed.

Lemma sorted_below_last (l : list R) :
  Sorted Rle l -> Forall (fun x => x <= last l 0) l.
Proof.
  intros H. apply Sorted_StronglySorted in H;
    [|intros x y z; apply Rle_trans].
  induction H as [|x l Hs IH Hx]; [constructor|].
  destruct l as [|y l].
  - simpl. constructor; [lra|constructor].
  - constructor.
    + change (last (x :: y :: l) 0) with (last (y :: l) 0).
      inversion Hx as [|? ? Hxy Hrest]; subst.
      inversion IH as [|? ? Hy _]; subst. lra.
    + exact IH.
Qed.

Lemma sorted_above_last (l : list R) :
  Sorted Rge l -> Forall (fun x => last l 0 <= x) l.
Proof.
  intros H. apply Sorted_StronglySorted in H;
    [|intros x y z; apply Rge_trans].
  induction H as [|x l Hs IH Hx]; [constructor|].
  destruct l as [|y l].
  - simpl. constructor; [lra|constructor].
  - constructor.
    + change (last (x :: y :: l) 0) with (last (y :: l) 0).
      inversion Hx as [|? ? Hxy Hrest]; subst.
      inversion IH as [|? ? Hy _]; subst. lra.
    + exact IH.
Qed.

Lemma pointwise_bound (P : R -> Prop) (b : R) (l1 l2 : list R) :
  Forall2 Rle l1 l2 -> Forall (fun x => x <= b) l2 ->
  Forall (fun x => x <= b) l1.
Proof.
  induction 1 as [|x y l1 l2 Hxy _ IH]; intros H; [constructor|].
  inversion H; subst. constructor; [lra|auto].
Qed.

Lemma pointwise_bound_below (b : R) (l1 l2 : list R) :
  Forall2 Rle l1 l2 -> Forall (fun x => b <= x) l1 ->
  Forall (fun x => b <= x) l2.
Proof.
  induction 1 as [|x y l1 l2 Hxy _ IH]; intros H; [constructor|].
  inversion H; subst. constructor; [lra|auto].
Qed.

(** X2: after any sequence of ticks on a new store, the running highs
    never fall and the running lows never rise along the history, each
    retained price lies between the low and the high of its index, and the
    latest low and high bound every retained price. *)
Theorem running_extremes (ticks : list TickData) :
  exists md,
    AddTicks NewMarketData ticks = Some md
    /\ Sorted Rle (highPrices md)
    /\ Sorted Rge (lowPrices md)
    /\ Forall2 Rle (priceHistory md) (highPrices md)
    /\ Forall2 Rle (lowPrices md) (priceHistory md)
    /\ Forall (fun p => lastOf (lowPrices md) <= p <= lastOf (highPrices md))
         (priceHistory md).
Proof.
  destruct NewMarketData_ready as [Hpos Hcap].
  destruct (AddTicks_bounded ticks NewMarketData Hpos Hcap)
    as (md & E & _ & _).
  assert (Hk : extremesKept md).
  { assert (H0 : extremesKept NewMarketData)
      by (unfold extremesKept; simpl; repeat constructor).
    clear Hpos Hcap. revert E H0. generalize NewMarketData.
    induction ticks as [|tick rest IH]; intros md0 E H0; simpl in E.
    - now injection E as <-.
    - destruct (AddTick md0 tick) as [md1|] eqn:E1; [|discriminate].
      apply (IH md1 E). now apply (AddTick_extremes md0 tick). }
  destruct Hk as (Hsh & Hsl & Hph & Hlp).
  exists md. repeat (split; [assumption|]).
  pose proof (pointwise_bound (fun _ => True) _ _ _ Hph
                (sorted_below_last _ Hsh)) as Hup.
  pose proof (pointwise_bound_below _ _ _ Hlp
                (sorted_above_last _ Hsl)) as Hdown.
  unfold lastOf. rewrite Forall_forall in *.
  intros p Hp. split; [now apply Hdown|now apply Hup].
Qed.

(** X3: whatever ticks a new store has taken, Reset gives back exactly the
    new store, a second Reset changes nothing, and the store then treats
    any further ticks as a new store does. *)
Theorem reset_gives_new_store (ticks : list TickData) :
  exists md,
    AddTicks NewMarketData ticks = Some md
    /\ Reset md = NewMarketData
    /\ Reset (Reset md) = Reset md
    /\ forall more, AddTicks (Reset md) more = AddTicks NewMarketData more.
Proof.
  destruct NewMarketData_ready as [Hpos Hcap].
  destruct (AddTicks_bounded ticks NewMarketData Hpos Hcap)
    as (md & E & Hmax & _).
  assert (HR : Reset md = NewMarketData)
    by (unfold Reset; rewrite Hmax; reflexivity).
  exists md. split; [exact E|]. split; [exact HR|]. split.
  - rewrite HR. reflexivity.
  - intros more. now rewrite HR.
Qed.

Lemma Round_error (y : R) : Rabs (math.Round y - y) <= 0.5.
Proof.
  unfold math.Round. destruct (Rleb 0 y).
  - pose proof (Zfloor_bound (y + 0.5)) as [H1 H2].
    apply Rabs_le. lra.
  - pose proof (Zfloor_bound (- y + 0.5)) as [H1 H2].
    apply Rabs_le. lra.
Qed.

Lemma Round_integer (y : R) : exists z : Z, math.Round y = IZR z.
Proof.
  unfold math.Round. destruct (Rleb 0 y).
  - eauto.
  - exists (- Zfloor (- y + 0.5))%Z. now rewrite opp_IZR.
Qed.

Lemma Pow10_pos (n : Z) : 0 < math.Pow10 n.
Proof. unfold math.Pow10. apply powerRZ_lt. lra. Qed.

Lemma round_error_bound (n : Z) (x : R) :
  Rabs (round n x - x) <= 0.5 / math.Pow10 n.
Proof.
  pose proof (Pow10_pos n) as Hs. unfold round. cbv zeta.
  set (s := math.Pow10 n) in *.
  replace (math.Round (x * s) / s - x)
    with ((math.Round (x * s) - x * s) / s) by (field; lra).
  unfold Rdiv. rewrite Rabs_mult, (Rabs_pos_eq (/ s))
    by (apply Rlt_le, Rinv_0_lt_compat, Hs).
  apply Rmult_le_compat_r; [apply Rlt_le, Rinv_0_lt_compat, Hs|].
  apply Round_error.
Qed.

(** X5: rounding at any precision n is idempotent, and it moves a number
    by at most half a unit of the last kept decimal, 0.5 / 10^n. *)
Theorem round_idempotent_and_close (n : Z) (x : R) :
  round n (round n x) = round n x
  /\ Rabs (round n x - x) <= 0.5 / math.Pow10 n.
Proof.
  pose proof (Pow10_pos n) as Hs. unfold round. cbv zeta.
  set (s := math.Pow10 n) in *. split.
  - destruct (Round_integer (x * s)) as [z ->].
    replace (IZR z / s * s) with (IZR z) by (field; lra).
    now rewrite Round_IZR.
  - apply round_error_bound.
Qed.

Lemma last_after_insertion (l : list R) (v : R) :
  (if (len (l ++ [v]) =? 0)%Z then 0 else lastOf (l ++ [v])) = v.
Proof.
  unfold lastOf. rewrite last_last, len_app.
  destruct (Z.eqb_spec (len l + len [v]) 0) as [H0|_]; [|reflexivity].
  pose proof (len_nonneg l). unfold len in H0 at 2. simpl in H0. lia.
Qed.

(** X4: the current price of a new or reset store is 0; after a tick on a
    store within its capacity whose precision is unset or between 1 and 8,
    the current price is the price of the tick rounded to the precision of
    the store, which is between 1 and 8 decimals. *)
Theorem current_price_follows_tick (md : MarketData) (tick : TickData) :
  (0 < maxSize md)%Z ->
  withinCapacity md ->
  (0 <= roundNum md <= 8)%Z ->
  GetCurrentPrice NewMarketData = 0
  /\ GetCurrentPrice (Reset md) = 0
  /\ exists md',
       AddTick md tick = Some md'
       /\ (1 <= roundNum md' <= 8)%Z
       /\ GetCurrentPrice md' = round (roundNum md') (Price tick).
Proof.
  intros Hpos Hcap Hr.
  split; [reflexivity|]. split; [reflexivity|].
  destruct (AddTick_bounded md tick Hpos Hcap)
    as (md' & E & _ & _ & Hr' & _).
  assert (Hp : (1 <= roundNum md' <= 8)%Z).
  { rewrite Hr'. destruct (Z.eqb_spec (roundNum md) 0); lia. }
  destruct (AddTick_sequences _ _ _ E) as (_ & Sp & _). cbv zeta in Sp.
  assert (Hcur : GetCurrentPrice md' = round (roundNum md') (Price tick)).
  { unfold GetCurrentPrice.
    destruct (addToLimitedSlice_shape _ _ _ _ Sp) as [[-> _]|(-> & _ & _)];
      apply last_after_insertion. }
  exists md'. split; [exact E|]. split; [exact Hp | exact Hcur].
Qed.

Lemma current_price_follows_tick_witness :
  (0 < maxSize NewMarketData)%Z
  /\ withinCapacity NewMarketData
  /\ (0 <= roundNum NewMarketData <= 8)%Z
  /\ exists md',
       AddTick NewMarketData
         {| Price := 43250.57; Volume := 2; IsAsk := true; Timestamp := 5%Z |}
       = Some md'
       /\ (1 <= roundNum md' <= 8)%Z
       /\ GetCurrentPrice md' = round (roundNum md') 43250.57.
Proof.
  destruct NewMarketData_ready as [Hpos Hcap].
  assert (Hr : (0 <= roundNum NewMarketData <= 8)%Z) by (simpl; lia).
  split; [exact Hpos|]. split; [exact Hcap|]. split; [exact Hr|].
  exact (proj2 (proj2 (current_price_follows_tick NewMarketData
                         {| Price := 43250.57; Volume := 2; IsAsk := true;
                            Timestamp := 5%Z |} Hpos Hcap Hr))).
Defined.

(** While nothing is dropped, the volume, timestamp and side sequences
    are the values of the ticks in their order of arrival. *)
Lemma AddTicks_contents (ticks : list TickData) :
  forall md md' : MarketData,
  (len (volumeHistory md) + len ticks <= maxSize md)%Z ->
  (len (timeStamps md) + len ticks <= maxSize md)%Z ->
  (len (askVolume md) + len ticks <= maxSize md)%Z ->
  (len (bidVolume md) + len ticks <= maxSize md)%Z ->
  AddTicks md ticks = Some md' ->
  volumeHistory md' = volumeHistory md ++ map Volume ticks
  /\ timeStamps md' = timeStamps md ++ map Timestamp ticks
  /\ askVolume md' = askVolume md ++ map Volume (filter IsAsk ticks)
  /\ bidVolume md'
     = bidVolume md
       ++ map Volume (filter (fun t => negb (IsAsk t)) ticks).
Proof.
  induction ticks as [|tick rest IH]; intros md md' Hv Ht Ha Hb E.
  - simpl in E. injection E as <-. simpl. now rewrite !app_nil_r.
  - simpl in E. destruct (AddTick md tick) as [md1|] eqn:E1; [|discriminate].
    rewrite len_cons_Z in *. pose proof (len_nonneg rest) as Hr.
    destruct (AddTick_sequences _ _ _ E1)
      as (Hmax & _ & Sv & St & _ & _ & Sa & Sb).
    rewrite addToLimitedSlice_below in Sv by lia.
    rewrite addToLimitedSlice_below in St by lia.
    injection Sv as Sv. injection St as St.
    assert (Hlen1 : len (volumeHistory md1) = (len (volumeHistory md) + 1)%Z
                    /\ len (timeStamps md1) = (len (timeStamps md) + 1)%Z)
      by (rewrite <- Sv, <- St, !len_app; unfold len; simpl; lia).
    destruct Hlen1 as [Lv Lt].
    destruct (IsAsk tick) eqn:Easks.
    + rewrite addToLimitedSlice_below in Sa by lia.
      injection Sa as Sa. injection Sb as Sb.
      destruct (IH md1 md') as (Rv & Rt & Ra & Rb); try assumption;
        try (rewrite Hmax; lia).
      * rewrite Hmax, <- Sa, len_app. unfold len at 2. simpl. lia.
      * rewrite Hmax, <- Sb. lia.
      * simpl. rewrite Easks. simpl.
        rewrite Rv, Rt, Ra, Rb, <- Sv, <- St, <- Sa, <- Sb, <- !app_assoc.
        auto.
    + rewrite addToLimitedSlice_below in Sb by lia.
      injection Sa as Sa. injection Sb as Sb.
      destruct (IH md1 md') as (Rv & Rt & Ra & Rb); try assumption;
        try (rewrite Hmax; lia).
      * rewrite Hmax, <- Sa. lia.
      * rewrite Hmax, <- Sb, len_app. unfold len at 2. simpl. lia.
      * simpl. rewrite Easks. simpl.
        rewrite Rv, Rt, Ra, Rb, <- Sv, <- St, <- Sa, <- Sb, <- !app_assoc.
        auto.
Qed.

Lemma volumes_by_side (ticks : list TickData) :
  sumLoop (map Volume (filter (fun t => negb (IsAsk t)) ticks))
  + sumLoop (map Volume (filter IsAsk ticks))
  = sumLoop (map Volume ticks).
Proof.
  rewrite !sumLoop_total.
  induction ticks as [|tick rest IH]; simpl; [lra|].
  destruct (IsAsk tick); simpl; lra.
Qed.

(** X6: up to 1000 ticks on a new store, the volume and timestamp
    sequences are the volumes and timestamps of the ticks in order, every
    volume is in exactly one of the ask and bid sequences according to the
    side of its tick, and the bid and ask totals add up to the total
    volume. *)
Theorem volumes_split_by_side (ticks : list TickData) :
  (len ticks <= 1000)%Z ->
  exists md,
    AddTicks NewMarketData ticks = Some md
    /\ volumeHistory md = map Volume ticks
    /\ timeStamps md = map Timestamp ticks
    /\ askVolume md = map Volume (filter IsAsk ticks)
    /\ bidVolume md = map Volume (filter (fun t => negb (IsAsk t)) ticks)
    /\ sumLoop (bidVolume md) + sumLoop (askVolume md)
       = sumLoop (volumeHistory md).
Proof.
  intros Hlen.
  destruct NewMarketData_ready as [Hpos Hcap].
  destruct (AddTicks_bounded ticks NewMarketData Hpos Hcap)
    as (md & E & _ & _).
  destruct (AddTicks_contents ticks NewMarketData md) as (Hv & Ht & Ha & Hb);
    try exact E; try (simpl; change (@len R []) with 0%Z;
                      change (@len time.Time []) with 0%Z; lia).
  simpl in Hv, Ht, Ha, Hb.
  exists md. split; [exact E|]. split; [exact Hv|]. split; [exact Ht|].
  split; [exact Ha|]. split; [exact Hb|].
  rewrite Hv, Ha, Hb. apply volumes_by_side.
Qed.

Lemma volumes_split_by_side_witness :
  (len [ {| Price := 100; Volume := 2; IsAsk := true; Timestamp := 1%Z |};
         {| Price := 101; Volume := 3; IsAsk := false; Timestamp := 2%Z |} ]
   <= 1000)%Z
  /\ exists md,
       AddTicks NewMarketData
         [ {| Price := 100; Volume := 2; IsAsk := true; Timestamp := 1%Z |};
           {| Price := 101; Volume := 3; IsAsk := false; Timestamp := 2%Z |} ]
       = Some md
       /\ askVolume md = [2]
       /\ bidVolume md = [3].
Proof.
  assert (H : (len [ {| Price := 100; Volume := 2; IsAsk := true;
                        Timestamp := 1%Z |};
                     {| Price := 101; Volume := 3; IsAsk := false;
                        Timestamp := 2%Z |} ] <= 1000)%Z)
    by (vm_compute; discriminate).
  split; [exact H|].
  destruct (volumes_split_by_side _ H) as (md & E & _ & _ & Ha & Hb & _).
  exists md. split; [exact E|]. split; [exact Ha|exact Hb].
Defined.

(** *** What an insertion keeps *)


Lemma addToLimitedSlice_inserted {A : Type} (maxSize : Z) (s : list A)
    (value : A) (s' : list A) :
  addToLimitedSlice maxSize s value = Some s' ->
  inserted maxSize s value s'.
Proof.
  intros H. split.
  - intros Hlt. rewrite addToLimitedSlice_below in H by exact Hlt.
    now injection H as <-.
  - intros Heq.
    destruct (addToLimitedSlice_shape _ _ _ _ H)
      as [[_ Hlt] | (-> & Hne & _)]; [lia|].
    destruct s as [|oldest rest]; [contradiction|].
    exists oldest, rest. split; reflexivity.
Qed.



(** C5: from a store within its positive capacity (the new store has the
    capacity 1000, which no function changes) every sequence of AddTick
    calls succeeds and leaves each of the seven sequences within the
    capacity; an insertion into a sequence at capacity removes exactly its
    oldest element, keeps the order of the others and appends the new
    value; and one AddTick makes exactly such an insertion into the price,
    volume, timestamp, high and low sequences and into the volume sequence
    of the side of its tick, and leaves the other side as it is. *)
Theorem histories_bounded_fifo (md : MarketData) (ticks : list TickData) :
  (0 < maxSize md)%Z ->
  withinCapacity md ->
  (exists md',
     AddTicks md ticks = Some md'
     /\ maxSize md' = maxSize md
     /\ (len (priceHistory md') <= maxSize md
         /\ len (volumeHistory md') <= maxSize md
         /\ len (timeStamps md') <= maxSize md
         /\ len (highPrices md') <= maxSize md
         /\ len (lowPrices md') <= maxSize md
         /\ len (bidVolume md') <= maxSize md
         /\ len (askVolume md') <= maxSize md)%Z)
  /\ (forall (A : Type) (s : list A) (value : A),
        len s = maxSize md ->
        exists oldest rest,
          s = oldest :: rest
          /\ addToLimitedSlice (maxSize md) s value = Some (rest ++ [value])
          /\ len (rest ++ [value]) = maxSize md)
  /\ (forall (tick : TickData) (md' : MarketData),
        AddTick md tick = Some md' ->
        let price := round (roundNum md') (Price tick) in
        let high :=
          if (len (highPrices md) =? 0)%Z
             || Rgtb price (lastOf (highPrices md))
          then price else lastOf (highPrices md) in
        let low :=
          if (len (lowPrices md) =? 0)%Z
             || Rltb price (lastOf (lowPrices md))
          then price else lastOf (lowPrices md) in
        inserted (maxSize md) (priceHistory md) price (priceHistory md')
        /\ inserted (maxSize md) (volumeHistory md) (Volume tick)
             (volumeHistory md')
        /\ inserted (maxSize md) (timeStamps md) (Timestamp tick)
             (timeStamps md')
        /\ inserted (maxSize md) (highPrices md) high (highPrices md')
        /\ inserted (maxSize md) (lowPrices md) low (lowPrices md')
        /\ (if IsAsk tick
            then inserted (maxSize md) (askVolume md) (Volume tick)
                   (askVolume md')
                 /\ bidVolume md' = bidVolume md
            else inserted (maxSize md) (bidVolume md) (Volume tick)
                   (bidVolume md')
                 /\ askVolume md' = askVolume md)).
Proof.
  intros Hpos Hcap.
  assert (Hfifo : forall (A : Type) (s : list A) (value : A),
            len s = maxSize md ->
            exists oldest rest,
              s = oldest :: rest
              /\ addToLimitedSlice (maxSize md) s value
                 = Some (rest ++ [value])
              /\ len (rest ++ [value]) = maxSize md).
  { intros A s value Hlen.
    destruct s as [|oldest rest]; [unfold len in Hlen; simpl in Hlen; lia|].
    exists oldest, rest. split; [reflexivity|]. split.
    - apply addToLimitedSlice_full. lia.
    - rewrite len_app, <- Hlen. unfold len. simpl. lia. }
  split; [|split].
  - destruct (AddTicks_bounded ticks md Hpos Hcap) as (md' & E & Hmax & Hcap').
    exists md'. unfold withinCapacity in Hcap'. rewrite Hmax in Hcap'. auto.
  - exact Hfifo.
  - intros tick md' E. cbv zeta.
    destruct (AddTick_sequences _ _ _ E)
      as (_ & Hp & Hv & Ht & Hh & Hl & Ha & Hb).
    split; [now apply addToLimitedSlice_inserted|].
    split; [now apply addToLimitedSlice_inserted|].
    split; [now apply addToLimitedSlice_inserted|].
    split; [now apply addToLimitedSlice_inserted|].
    split; [now apply addToLimitedSlice_inserted|].
    destruct (IsAsk tick).
    + split; [now apply addToLimitedSlice_inserted | congruence].
    + split; [now apply addToLimitedSlice_inserted | congruence].
Qed.

Lemma inserted_full_repeat {A : Type} (x value : A) (n : nat)
    (s' : list A) :
  inserted (Z.of_nat (S n)) (repeat x (S n)) value s' ->
  s' = repeat x n ++ [value].
Proof.
  intros [_ H]. destruct (H (len_repeat _ _)) as (oldest & rest & E & ->).
  cbn [repeat] in E. now injection E as _ <-.
Qed.

Lemma histories_bounded_fifo_witness :
  (0 < maxSize scenario.fullStore)%Z
  /\ withinCapacity scenario.fullStore
  /\ exists md',
       AddTick scenario.fullStore scenario.askAt101 = Some md'
       /\ priceHistory md' = repeat 100 999 ++ [round (roundNum md') 101]
       /\ volumeHistory md' = repeat 1 999 ++ [2]
       /\ timeStamps md' = repeat scenario.t0 999 ++ [scenario.t1]
       /\ askVolume md' = repeat 1 999 ++ [2]
       /\ bidVolume md' = repeat 1 1000
       /\ len (volumeHistory md') = 1000%Z.
Proof.
  assert (Hpos : (0 < maxSize scenario.fullStore)%Z) by reflexivity.
  assert (Hcap : withinCapacity scenario.fullStore).
  { unfold withinCapacity, scenario.fullStore.
    cbn [priceHistory volumeHistory timeStamps highPrices lowPrices
         bidVolume askVolume maxSize].
    rewrite !len_repeat. lia. }
  split; [exact Hpos|]. split; [exact Hcap|].
  destruct (histories_bounded_fifo scenario.fullStore [scenario.askAt101]
              Hpos Hcap) as ((md' & E & _) & _ & Hone).
  cbn [AddTicks] in E.
  destruct (AddTick scenario.fullStore scenario.askAt101) as [md1|] eqn:E1;
    [|discriminate].
  injection E as ->.
  exists md'. split; [reflexivity|].
  specialize (Hone scenario.askAt101 md' E1). cbv zeta in Hone.
  destruct Hone as (Hp & Hv & Ht & _ & _ & Hside).
  cbn [IsAsk scenario.askAt101] in Hside. destruct Hside as (Ha & Hb).
  unfold scenario.fullStore in Hp, Hv, Ht, Ha, Hb.
  cbn [priceHistory volumeHistory timeStamps askVolume bidVolume maxSize
       Price Volume Timestamp scenario.askAt101] in Hp, Hv, Ht, Ha, Hb.
  apply (inserted_full_repeat _ _ 999) in Hp, Hv, Ht, Ha.
  split; [exact Hp|]. split; [exact Hv|]. split; [exact Ht|].
  split; [exact Ha|]. split; [exact Hb|].
  rewrite Hv, len_app, len_repeat. reflexivity.
Defined.





End StoreMore.

(** ** The analyzer: ranges, edge cases and invariances *)

Section AnalyzerMore.
Import types market analyzer series scenario.

(** The path along consecutive prices is at least the net movement. *)
Lemma path_triangle (prices : list R) (i k : nat) :
  0 <= fold_left
         (fun pathLength j =>
            pathLength + Rabs (nth j prices 0 - nth (j - 1) prices 0))
         (seq (S i) k) 0
  /\ Rabs (nth (i + k) prices 0 - nth i prices 0)
     <= fold_left
          (fun pathLength j =>
             pathLength + Rabs (nth j prices 0 - nth (j - 1) prices 0))
          (seq (S i) k) 0.
Proof.
  induction k as [|k [IH0 IH]].
  - simpl. rewrite Nat.add_0_r.
    replace (nth i prices 0 - nth i prices 0) with 0 by lra.
    rewrite Rabs_R0. lra.
  - rewrite seq_S, fold_left_app. cbn [fold_left].
    replace (S i + k - 1)%nat with (i + k)%nat by lia.
    replace (S i + k)%nat with (i + S k)%nat by lia.
    pose proof (Rabs_pos (nth (i + S k) prices 0 - nth (i + k) prices 0)).
    split; [lra|].
    replace (nth (i + S k) prices 0 - nth i prices 0)
      with ((nth (i + S k) prices 0 - nth (i + k) prices 0)
            + (nth (i + k) prices 0 - nth i prices 0)) by lra.
    eapply Rle_trans; [apply Rabs_triang|]. lra.
Qed.

Lemma calculateMarketEfficiencyRatio_range (prices : list R) :
  0 <= calculateMarketEfficiencyRatio prices <= 1.
Proof.
  unfold calculateMarketEfficiencyRatio.
  destruct (Z.ltb_spec (len prices) 30) as [Hlt|Hge]; [lra|]. cbv zeta.
  set (n := List.length prices).
  assert (Hn : (30 <= n)%nat) by (unfold len in Hge; subst n; lia).
  destruct (path_triangle prices (n - 30) 29) as [H0 Ht].
  replace (S (n - 30)) with (n - 29)%nat in H0, Ht by lia.
  replace (n - 30 + 29)%nat with (n - 1)%nat in Ht by lia.
  set (path := fold_left _ (seq (n - 29) 29) 0) in *.
  destruct (Reqb path 0) eqn:E; [lra|].
  apply Reqb_false in E.
  pose proof (Rabs_pos (nth (n - 1) prices 0 - nth (n - 30) prices 0)).
  assert (Hp : 0 < path) by lra.
  split.
  - apply Rmult_le_pos; [assumption|].
    apply Rlt_le, Rinv_0_lt_compat, Hp.
  - apply (Rmult_le_reg_r path); [exact Hp|].
    unfold Rdiv. rewrite Rmult_assoc, Rinv_l by lra. lra.
Qed.

(** X7: over exact reals, for every price history the market efficiency
    ratio lies in [0,1]: the path along the last 30 prices is at least
    their net movement; the ratio is 0.5 when there are fewer than 30 prices
    or the path is 0.  In binary64 the upper bound is not kept: on the
    thirty prices 0.38, 0.43, ..., 1.83 the rounded path is shorter than
    the rounded net movement and the ratio is greater than 1. *)
Theorem efficiency_ratio_range (prices : list R) :
  0 <= calculateMarketEfficiencyRatio prices <= 1
  /\ ((len prices < 30)%Z -> calculateMarketEfficiencyRatio prices = 0.5)
  /\ (let n := List.length prices in
      fold_left
        (fun pathLength i =>
           pathLength + Rabs (nth i prices 0 - nth (i - 1) prices 0))
        (seq (n - 29) 29) 0 = 0 ->
      calculateMarketEfficiencyRatio prices = 0.5)
  /\ f64.strictlyIncreasing f64.risingByFiveCents = true
  /\ PrimFloat.ltb PrimFloat.one
       (f64.calculateMarketEfficiencyRatio f64.risingByFiveCents) = true.
Proof.
  split; [apply calculateMarketEfficiencyRatio_range|].
  unfold calculateMarketEfficiencyRatio.
  split; [|split; [|split]].
  - intros Hlt. destruct (Z.ltb_spec (len prices) 30); [reflexivity | lia].
  - cbv zeta. intros ->.
    replace (Reqb 0 0) with true by (symmetry; apply Reqb_true; lra).
    now destruct (len prices <? 30)%Z.
  - vm_compute. reflexivity.
  - vm_compute. reflexivity.
Qed.

Lemma sorted_adjacent (P : R -> R -> Prop) (l : list R) :
  Sorted P l ->
  forall j, (S j < List.length l)%nat -> P (nth j l 0) (nth (S j) l 0).
Proof.
  induction 1 as [|x l Hs IH Hhd]; intros j Hj; simpl in Hj; [lia|].
  destruct j as [|j].
  - destruct l as [|y l]; [simpl in Hj; lia|]. simpl. now inversion Hhd.
  - change (nth (S j) (x :: l) 0) with (nth j l 0).
    change (nth (S (S j)) (x :: l) 0) with (nth (S j) l 0).
    apply IH. lia.
Qed.

(** Along prices that never fall, the path is the net movement. *)
Lemma path_monotone (prices : list R) (i k : nat) :
  (forall j, (S j < List.length prices)%nat ->
             nth j prices 0 <= nth (S j) prices 0) ->
  (i + k < List.length prices)%nat ->
  fold_left
    (fun pathLength j =>
       pathLength + Rabs (nth j prices 0 - nth (j - 1) prices 0))
    (seq (S i) k) 0
  = nth (i + k) prices 0 - nth i prices 0.
Proof.
  intros Hm. induction k as [|k IH]; intros Hk.
  - simpl. rewrite Nat.add_0_r. lra.
  - rewrite seq_S, fold_left_app. cbn [fold_left].
    replace (S i + k - 1)%nat with (i + k)%nat by lia.
    replace (S i + k)%nat with (S (i + k)) by lia.
    replace (i + S k)%nat with (S (i + k)) by lia.
    rewrite IH by lia.
    rewrite Rabs_pos_eq; [lra|].
    specialize (Hm (i + k)%nat ltac:(lia)). lra.
Qed.

(** X8: over exact reals, on a history of at least 30 prices that never
    fall, whose last price differs from the price 29 ticks before, the
    market efficiency ratio is 1. *)
Theorem efficiency_ratio_of_rising_prices (prices : list R) :
  (30 <= len prices)%Z ->
  Sorted Rle prices ->
  nth (List.length prices - 1) prices 0
  <> nth (List.length prices - 30) prices 0 ->
  calculateMarketEfficiencyRatio prices = 1.
Proof.
  intros H30 Hs Hne. unfold calculateMarketEfficiencyRatio.
  destruct (Z.ltb_spec (len prices) 30) as [|_]; [lia|]. cbv zeta.
  set (n := List.length prices) in *.
  assert (Hn : (30 <= n)%nat) by (unfold len in H30; subst n; lia).
  pose proof (path_monotone prices (n - 30) 29
                (sorted_adjacent Rle prices Hs) ltac:(subst n; lia)) as Hp.
  replace (S (n - 30)) with (n - 29)%nat in Hp by lia.
  replace (n - 30 + 29)%nat with (n - 1)%nat in Hp by lia.
  rewrite Hp.
  assert (Hle : nth (n - 30) prices 0 <= nth (n - 1) prices 0).
  { pose proof (path_triangle prices (n - 30) 29) as [H0 _].
    replace (S (n - 30)) with (n - 29)%nat in H0 by lia.
    rewrite Hp in H0. lra. }
  rewrite Rabs_pos_eq by lra.
  replace (Reqb (nth (n - 1) prices 0 - nth (n - 30) prices 0) 0) with false
    by (symmetry; apply Reqb_false; lra).
  field. lra.
Qed.

Lemma efficiency_ratio_of_rising_prices_witness :
  (30 <= len risingPrices)%Z
  /\ Sorted Rle risingPrices
  /\ calculateMarketEfficiencyRatio risingPrices = 1.
Proof.
  assert (H30 : (30 <= len risingPrices)%Z) by (vm_compute; discriminate).
  assert (Hs : Sorted Rle risingPrices)
    by (unfold risingPrices; repeat constructor; lra).
  split; [exact H30|]. split; [exact Hs|].
  apply (efficiency_ratio_of_rising_prices risingPrices H30 Hs).
  unfold risingPrices. simpl. lra.
Defined.

Lemma trueRanges_nonneg (hs : list R) :
  forall ls cs : list R, Forall (fun v => 0 <= v) (trueRanges hs ls cs).
Proof.
  induction hs as [|h hs IH]; intros [|l ls] [|c cs]; simpl;
    try constructor; [|apply IH].
  eapply Rle_trans; [|apply Rmax_r].
  eapply Rle_trans; [|apply Rmax_l]. apply Rabs_pos.
Qed.

Lemma calculateATR_nonneg (a : Analyzer) (md : MarketData)
    (prices : list R) (atr : R) :
  calculateATR a md prices = Some atr ->
  (14 <= len (highPrices md))%Z ->
  (14 <= len (lowPrices md))%Z ->
  (14 <= len prices)%Z ->
  0 <= atr.
Proof.
  unfold calculateATR, GetHighPricesArray, GetLowPricesArray. cbv zeta.
  intros H Hh Hl Hp.
  destruct (Z.ltb_spec (len (highPrices md)) 14); [lia|].
  destruct (Z.ltb_spec (len (lowPrices md)) 14); [lia|].
  destruct (Z.ltb_spec (len prices) 14); [lia|].
  cbn [orb] in H.
  destruct (slice (highPrices md) _ _) as [hs|]; [|discriminate].
  destruct (slice (lowPrices md) _ _) as [ls|]; [|discriminate].
  destruct (slice prices _ _) as [cs|]; [|discriminate].
  injection H as <-.
  apply Rmult_le_pos; [|lra].
  rewrite sumLoop_total. apply total_nonneg, trueRanges_nonneg.
Qed.

(** X9: the ATR computation panics exactly when the store holds at least
    14 highs and 14 lows and it is given exactly 14 prices; with at least
    14 of each its value, a mean of true ranges, is never negative, and on
    no prices at all it is 0. *)
Theorem atr_panics_exactly_at_14_prices (a : Analyzer) (md : MarketData)
    (prices : list R) :
  (calculateATR a md prices = None <->
   len prices = 14%Z
   /\ (14 <= len (highPrices md))%Z /\ (14 <= len (lowPrices md))%Z)
  /\ (forall atr,
        calculateATR a md prices = Some atr ->
        (14 <= len (highPrices md))%Z ->
        (14 <= len (lowPrices md))%Z ->
        (14 <= len prices)%Z ->
        0 <= atr)
  /\ (prices = [] -> calculateATR a md prices = Some 0).
Proof.
  split; [|split; [intros atr; apply calculateATR_nonneg|]].
  - unfold calculateATR, GetHighPricesArray, GetLowPricesArray. cbv zeta.
    destruct (Z.ltb_spec (len (highPrices md)) 14) as [Hh|Hh];
      [|destruct (Z.ltb_spec (len (lowPrices md)) 14) as [Hl|Hl];
        [|destruct (Z.ltb_spec (len prices) 14) as [Hp|Hp]]];
      cbn [orb].
    1-3: split; [|lia];
      destruct (len prices >? 0)%Z eqn:E; [|discriminate];
      apply Z.gtb_lt in E;
      destruct (index_in_range prices (len prices - 1) ltac:(lia)) as [v ->];
      discriminate.
    rewrite (slice_in_range (highPrices md)) by lia.
    rewrite (slice_in_range (lowPrices md)) by lia.
    destruct (Z.eq_dec (len prices) 14) as [E|E].
    + assert (Hs : slice prices (len prices - 14 - 1) (len prices - 1) = None).
      { unfold slice. rewrite E. reflexivity. }
      rewrite Hs. split; [intros _; lia | reflexivity].
    + rewrite (slice_in_range prices) by lia.
      split; [discriminate | lia].
  - intros ->. unfold calculateATR. cbv zeta.
    change (@len R []) with 0%Z. cbn [Z.ltb Z.compare orb].
    rewrite !orb_true_r. reflexivity.
Qed.












Lemma returnsOf_rising (prices : list R) :
  Forall (fun p => 0 < p) prices ->
  Sorted Rlt prices ->
  Forall (fun r => 0 < r) (returnsOf prices).
Proof.
  induction prices as [|p0 [|p1 rest] IH]; intros Hpos Hs;
    [constructor | constructor |].
  change (returnsOf (p0 :: p1 :: rest))
    with ((p1 / p0 - 1) :: returnsOf (p1 :: rest)).
  inversion Hpos as [|? ? Hp0 Hpos']; subst.
  inversion Hs as [|? ? Hs' Hhd]; subst.
  inversion Hhd as [|? ? Hlt]; subst.
  constructor; [|apply IH; assumption].
  replace (p1 / p0 - 1) with ((p1 - p0) / p0) by (field; lra).
  apply Rdiv_lt_0_compat; lra.
Qed.

Lemma returnsOf_falling (prices : list R) :
  Forall (fun p => 0 < p) prices ->
  Sorted Rgt prices ->
  Forall (fun r => r < 0) (returnsOf prices).
Proof.
  induction prices as [|p0 [|p1 rest] IH]; intros Hpos Hs;
    [constructor | constructor |].
  change (returnsOf (p0 :: p1 :: rest))
    with ((p1 / p0 - 1) :: returnsOf (p1 :: rest)).
  inversion Hpos as [|? ? Hp0 Hpos']; subst.
  inversion Hs as [|? ? Hs' Hhd]; subst.
  inversion Hhd as [|? ? Hlt]; subst.
  constructor; [|apply IH; assumption].
  replace (p1 / p0 - 1) with (- ((p0 - p1) / p0)) by (field; lra).
  assert (0 < (p0 - p1) / p0) by (apply Rdiv_lt_0_compat; lra). lra.
Qed.

Lemma length_returnsOf (prices : list R) :
  List.length (returnsOf prices) = (List.length prices - 1)%nat.
Proof.
  induction prices as [|p0 [|p1 rest] IH]; [reflexivity | reflexivity |].
  change (returnsOf (p0 :: p1 :: rest))
    with ((p1 / p0 - 1) :: returnsOf (p1 :: rest)).
  simpl List.length in *. lia.
Qed.

Lemma gains_only (returns : list R) :
  Forall (fun r => 0 < r) returns ->
  forall gains losses,
  fold_left
    (fun '(gains, losses) ret =>
       if Rgtb ret 0 then (gains + ret, losses) else (gains, losses - ret))
    returns (gains, losses)
  = (gains + total returns, losses).
Proof.
  induction 1 as [|r l Hr _ IH]; intros gains losses; simpl.
  - f_equal. lra.
  - replace (Rgtb r 0) with true by (symmetry; apply Rgtb_true; lra).
    rewrite IH. f_equal. lra.
Qed.

Lemma losses_only (returns : list R) :
  Forall (fun r => r < 0) returns ->
  forall gains losses,
  fold_left
    (fun '(gains, losses) ret =>
       if Rgtb ret 0 then (gains + ret, losses) else (gains, losses - ret))
    returns (gains, losses)
  = (gains, losses - total returns).
Proof.
  induction 1 as [|r l Hr _ IH]; intros gains losses; simpl.
  - f_equal. lra.
  - replace (Rgtb r 0) with false by (symmetry; apply Rgtb_false; lra).
    rewrite IH. f_equal. lra.
Qed.

Lemma strength_window_nonempty (returns : list R) :
  (2 <= len returns)%Z ->
  skipn (Z.to_nat (len returns - Z.min 500 (len returns))) returns <> [].
Proof.
  intros H E. apply (f_equal (@List.length R)) in E.
  rewrite length_skipn in E. simpl in E. unfold len in *. lia.
Qed.

Lemma total_opp_pos (l : list R) :
  l <> [] -> Forall (fun r => r < 0) l -> total l < 0.
Proof.
  intros Hne H.
  assert (0 < total (map Ropp l)).
  { apply total_pos.
    - destruct l; [congruence | discriminate].
    - apply Forall_map. eapply Forall_impl; [|exact H]. simpl. intros; lra. }
  assert (E : total (map Ropp l) = - total l)
    by (clear; induction l; simpl; [lra | rewrite IHl; lra]).
  lra.
Qed.

Lemma strength_of_gains (returns : list R) :
  (2 <= len returns)%Z ->
  Forall (fun r => 0 < r) returns ->
  calculateRelativeStrength returns = 1.
Proof.
  intros H2 Hpos. unfold calculateRelativeStrength.
  destruct (Z.ltb_spec (len returns) 2) as [|_]; [lia|]. cbv zeta.
  pose proof (strength_window_nonempty returns H2) as Hne.
  set (w := skipn _ returns) in *.
  assert (Hw : Forall (fun r => 0 < r) w) by (apply Forall_skipn_keep, Hpos).
  unfold gainsAndLosses. rewrite (gains_only w Hw).
  pose proof (total_pos w Hne Hw).
  replace (0.0 + total w + 0.0) with (total w) by lra.
  replace (0.0 + total w) with (total w) by lra.
  replace (Reqb (total w) 0) with false
    by (symmetry; apply Reqb_false; lra).
  field. lra.
Qed.

Lemma strength_of_losses (returns : list R) :
  (2 <= len returns)%Z ->
  Forall (fun r => r < 0) returns ->
  calculateRelativeStrength returns = 0.
Proof.
  intros H2 Hneg. unfold calculateRelativeStrength.
  destruct (Z.ltb_spec (len returns) 2) as [|_]; [lia|]. cbv zeta.
  pose proof (strength_window_nonempty returns H2) as Hne.
  set (w := skipn _ returns) in *.
  assert (Hw : Forall (fun r => r < 0) w) by (apply Forall_skipn_keep, Hneg).
  unfold gainsAndLosses. rewrite (losses_only w Hw).
  pose proof (total_opp_pos w Hne Hw).
  replace (0.0 + (0.0 - total w)) with (- total w) by lra.
  replace (Reqb (- total w) 0) with false
    by (symmetry; apply Reqb_false; lra).
  replace 0.0 with 0 by lra.
  field. lra.
Qed.

(** X11: on at least three positive prices that strictly rise the
    relative strength of the returns is 1, on strictly falling ones it is
    0; either way metrics carrying that relative strength fail the buy
    conditions, whose band is [0.25, 0.75]. *)
Theorem one_sided_history_blocks_entry (prices : list R) :
  (3 <= len prices)%Z ->
  Forall (fun p => 0 < p) prices ->
  (Sorted Rlt prices -> calculateRelativeStrength (returnsOf prices) = 1)
  /\ (Sorted Rgt prices -> calculateRelativeStrength (returnsOf prices) = 0)
  /\ (Sorted Rlt prices \/ Sorted Rgt prices ->
      forall metrics,
        RelativeStrength metrics
        = calculateRelativeStrength (returnsOf prices) ->
        strategy.checkBuyConditions metrics = false).
Proof.
  intros H3 Hpos.
  assert (H2 : (2 <= len (returnsOf prices))%Z).
  { unfold len in *. rewrite length_returnsOf. lia. }
  assert (Hup : Sorted Rlt prices ->
                calculateRelativeStrength (returnsOf prices) = 1).
  { intros Hs. apply strength_of_gains; [exact H2|].
    now apply returnsOf_rising. }
  assert (Hdown : Sorted Rgt prices ->
                  calculateRelativeStrength (returnsOf prices) = 0).
  { intros Hs. apply strength_of_losses; [exact H2|].
    now apply returnsOf_falling. }
  split; [exact Hup|]. split; [exact Hdown|].
  intros [Hs|Hs] metrics Hm; unfold strategy.checkBuyConditions; cbv zeta;
    rewrite Hm.
  - rewrite (Hup Hs).
    replace (Rleb 1 0.75) with false by (symmetry; apply Rleb_false; lra).
    rewrite !andb_false_r. reflexivity.
  - rewrite (Hdown Hs).
    replace (Rgeb 0 0.25) with false by (symmetry; apply Rgeb_false; lra).
    rewrite !andb_false_r. reflexivity.
Qed.

Lemma one_sided_history_blocks_entry_witness :
  (3 <= len risingPrices)%Z
  /\ Forall (fun p => 0 < p) risingPrices
  /\ Sorted Rlt risingPrices
  /\ calculateRelativeStrength (returnsOf risingPrices) = 1.
Proof.
  assert (H3 : (3 <= len risingPrices)%Z) by (vm_compute; discriminate).
  assert (Hpos : Forall (fun p => 0 < p) risingPrices)
    by (unfold risingPrices; repeat constructor; lra).
  assert (Hs : Sorted Rlt risingPrices)
    by (unfold risingPrices; repeat constructor; lra).
  split; [exact H3|]. split; [exact Hpos|]. split; [exact Hs|].
  exact (proj1 (one_sided_history_blocks_entry risingPrices H3 Hpos) Hs).
Defined.

Lemma total_affine (a b : R) (xs : list R) :
  total (map (fun x => a + b * x) xs) = IZR (len xs) * a + b * total xs.
Proof.
  induction xs as [|x xs IH]; [unfold len; simpl; lra|].
  simpl map. simpl total. rewrite IH, len_cons. lra.
Qed.

Lemma dot_affine (a b : R) (xs : list R) :
  dot xs (map (fun x => a + b * x) xs) = a * total xs + b * dot xs xs.
Proof. induction xs as [|x xs IH]; simpl; [lra | rewrite IH; lra]. Qed.

Lemma dot_affine_affine (a b : R) (xs : list R) :
  dot (map (fun x => a + b * x) xs) (map (fun x => a + b * x) xs)
  = IZR (len xs) * a * a + 2 * a * b * total xs + b * b * dot xs xs.
Proof.
  induction xs as [|x xs IH]; [unfold len; simpl; lra|].
  simpl map. simpl dot. simpl total. rewrite IH, len_cons. lra.
Qed.

Lemma cov_indices_pos (n : nat) :
  (2 <= n)%nat -> 0 < cov (indices n) (indices n).
Proof.
  intros Hn.
  assert (A : Aligned 1 (indices n) (indices n)).
  { apply (sorted_aligned 1 Rlt Rlt); try apply indices_sorted; auto.
    intros; nra. }
  destruct (cov_aligned 1 _ _ A) as [_ P].
  rewrite length_indices in P. specialize (P Hn). lra.
Qed.

(** X12: given the indices 0..n-1 (n >= 2) and the values of a line
    a + b*i at them, the regression returns the slope b, the intercept a
    and the correlation 1, -1 or 0 according to the sign of b. *)
Theorem regression_recovers_line (n : nat) (a b : R) :
  (2 <= n)%nat ->
  linearRegression (indices n) (map (fun x => a + b * x) (indices n))
  = (b, a, if Rltb 0 b then 1 else if Rltb b 0 then - 1 else 0).
Proof.
  intros Hn.
  set (xs := indices n). set (ys := map (fun x => a + b * x) xs).
  assert (Hlen : List.length xs = List.length ys)
    by (subst ys; now rewrite length_map).
  assert (Hx : List.length xs = n) by apply length_indices.
  rewrite (linearRegression_cov xs ys Hlen) by lia.
  pose proof (cov_indices_pos n Hn) as HD. fold xs in HD.
  assert (Hnz : 0 < IZR (len xs))
    by (apply IZR_lt; unfold len; lia).
  assert (Hty : total ys = IZR (len xs) * a + b * total xs)
    by apply total_affine.
  assert (Hc : cov xs ys = b * cov xs xs).
  { unfold cov. subst ys. rewrite dot_affine, total_affine. ring. }
  assert (Hv : cov ys ys = b * b * cov xs xs).
  { unfold cov. replace (len ys) with (len xs) by (unfold len; lia).
    subst ys. rewrite dot_affine_affine, total_affine. ring. }
  assert (Hsq : sqrt (cov xs xs * cov ys ys) = Rabs b * cov xs xs).
  { rewrite Hv.
    replace (cov xs xs * (b * b * cov xs xs))
      with ((Rabs b * cov xs xs) * (Rabs b * cov xs xs)).
    - apply sqrt_square, Rmult_le_pos; [apply Rabs_pos | lra].
    - replace (b * b) with (Rabs b * Rabs b); [ring|].
      unfold Rabs. destruct (Rcase_abs b); ring. }
  rewrite Hsq, Hc, Hty.
  repeat apply (f_equal2 (@pair _ _)).
  - field. lra.
  - field. lra.
  - destruct (Rlt_dec 0 b) as [Hb|Hb].
    + replace (Rltb 0 b) with true by (symmetry; apply Rltb_true; lra).
      rewrite Rabs_pos_eq by lra.
      replace (Reqb (b * cov xs xs) 0) with false
        by (symmetry; apply Reqb_false; nra).
      field. lra.
    + replace (Rltb 0 b) with false by (symmetry; apply Rltb_false; lra).
      destruct (Rlt_dec b 0) as [Hb'|Hb'].
      * replace (Rltb b 0) with true by (symmetry; apply Rltb_true; lra).
        rewrite Rabs_left by lra.
        replace (Reqb (- b * cov xs xs) 0) with false
          by (symmetry; apply Reqb_false; nra).
        field. lra.
      * replace (Rltb b 0) with false by (symmetry; apply Rltb_false; lra).
        assert (b = 0) by lra. subst b.
        rewrite Rabs_R0, Rmult_0_l.
        replace (Reqb 0 0) with true by (symmetry; apply Reqb_true; lra).
        reflexivity.
Qed.

Lemma regression_recovers_line_witness :
  (2 <= 30)%nat
  /\ linearRegression (indices 30) (map (fun x => 100 + 1 * x) (indices 30))
     = (1, 100, if Rltb 0 1 then 1 else if Rltb 1 0 then - 1 else 0).
Proof.
  assert (Hn : (2 <= 30)%nat) by lia.
  split; [exact Hn|]. exact (regression_recovers_line 30 100 1 Hn).
Defined.

Lemma returnsOf_scale (k : R) (prices : list R) :
  k <> 0 -> returnsOf (map (Rmult k) prices) = returnsOf prices.
Proof.
  intros Hk. induction prices as [|p0 [|p1 rest] IH];
    [reflexivity | reflexivity |].
  change (returnsOf (map (Rmult k) (p0 :: p1 :: rest)))
    with ((k * p1 / (k * p0) - 1)
          :: returnsOf (map (Rmult k) (p1 :: rest))).
  change (returnsOf (p0 :: p1 :: rest))
    with ((p1 / p0 - 1) :: returnsOf (p1 :: rest)).
  rewrite IH. f_equal.
  unfold Rdiv. rewrite Rinv_mult.
  replace (k * p1 * (/ k * / p0)) with ((k * / k) * (p1 * / p0)) by ring.
  rewrite Rinv_r by exact Hk. ring.
Qed.

Lemma total_scale (k : R) (l : list R) :
  total (map (Rmult k) l) = k * total l.
Proof. induction l as [|v l IH]; simpl; [lra | rewrite IH; lra]. Qed.

Lemma dot_scale_r (k : R) (xs : list R) :
  forall ys, dot xs (map (Rmult k) ys) = k * dot xs ys.
Proof.
  induction xs as [|x xs IH]; intros [|y ys]; simpl; try lra.
  rewrite IH. lra.
Qed.

Lemma dot_scale_both (k : R) (ys : list R) :
  dot (map (Rmult k) ys) (map (Rmult k) ys) = k * k * dot ys ys.
Proof. induction ys as [|y ys IH]; simpl; [lra | rewrite IH; lra]. Qed.

Lemma len_map {A B : Type} (f : A -> B) (l : list A) :
  len (map f l) = len l.
Proof. unfold len. now rewrite length_map. Qed.

Lemma calculateTrendStrength_scale (k : R) (prices : list R) :
  0 < k ->
  calculateTrendStrength (map (Rmult k) prices)
  = calculateTrendStrength prices.
Proof.
  intros Hk. unfold calculateTrendStrength. rewrite len_map.
  destruct (Z.ltb_spec (len prices) 30) as [|H30]; [reflexivity|]. cbv zeta.
  rewrite skipn_map, length_map.
  pose proof (length_last30 prices H30) as Hw.
  set (w := skipn (Z.to_nat (len prices - 30)) prices) in *.
  rewrite Hw.
  rewrite (linearRegression_cov (indices 30) (map (Rmult k) w))
    by (rewrite ?length_map, length_indices; lia).
  rewrite (linearRegression_cov (indices 30) w)
    by (rewrite length_indices; lia).
  set (xs := indices 30).
  assert (Hc : cov xs (map (Rmult k) w) = k * cov xs w).
  { unfold cov. rewrite dot_scale_r, total_scale. ring. }
  assert (Hv : cov (map (Rmult k) w) (map (Rmult k) w) = k * k * cov w w).
  { unfold cov. rewrite len_map, dot_scale_both, total_scale. ring. }
  assert (Hs : sqrt (cov xs xs * (k * k * cov w w))
               = k * sqrt (cov xs xs * cov w w)).
  { replace (cov xs xs * (k * k * cov w w))
      with (k * k * (cov xs xs * cov w w)) by ring.
    rewrite sqrt_mult_alt by nra. rewrite sqrt_square by lra. reflexivity. }
  assert (Hm : stats.Mean (map (Rmult k) w) = k * stats.Mean w).
  { unfold stats.Mean, stats.Sum. rewrite !sumLoop_total, len_map.
    rewrite total_scale. unfold Rdiv. ring. }
  rewrite Hc, Hv, Hs, Hm.
  set (sq := sqrt (cov xs xs * cov w w)).
  assert (Hr : (if Reqb (k * sq) 0 then 0 else k * cov xs w / (k * sq))
               = (if Reqb sq 0 then 0 else cov xs w / sq)).
  { destruct (Req_dec sq 0) as [E|E].
    - rewrite E, Rmult_0_r.
      replace (Reqb 0 0) with true by (symmetry; apply Reqb_true; lra).
      reflexivity.
    - replace (Reqb (k * sq) 0) with false
        by (symmetry; apply Reqb_false; nra).
      replace (Reqb sq 0) with false by (symmetry; now apply Reqb_false).
      field. split; lra. }
  rewrite Hr.
  set (r := if Reqb sq 0 then 0 else cov xs w / sq).
  unfold Rdiv. rewrite Rinv_mult.
  replace (k * cov xs w * / cov xs xs * r * r
           * (30 * (/ k * / stats.Mean w)) * 100000)
    with ((k * / k)
          * (cov xs w * / cov xs xs * r * r * (30 * / stats.Mean w) * 100000))
    by ring.
  rewrite Rinv_r by lra. ring.
Qed.

Lemma nth_scale (k : R) (l : list R) (j : nat) :
  nth j (map (Rmult k) l) 0 = k * nth j l 0.
Proof.
  transitivity (nth j (map (Rmult k) l) (k * 0));
    [f_equal; lra | apply (map_nth (Rmult k))].
Qed.

Lemma path_scale (k : R) (prices : list R) (js : list nat) :
  0 < k ->
  forall acc,
  fold_left
    (fun pathLength j =>
       pathLength
       + Rabs (nth j (map (Rmult k) prices) 0
               - nth (j - 1) (map (Rmult k) prices) 0))
    js (k * acc)
  = k * fold_left
          (fun pathLength j =>
             pathLength + Rabs (nth j prices 0 - nth (j - 1) prices 0))
          js acc.
Proof.
  intros Hk. induction js as [|j js IH]; intros acc; [reflexivity|].
  cbn [fold_left]. rewrite <- IH. f_equal.
  rewrite !nth_scale, <- Rmult_minus_distr_l, Rabs_mult.
  rewrite (Rabs_pos_eq k) by lra. ring.
Qed.

Lemma efficiency_ratio_scale (k : R) (prices : list R) :
  0 < k ->
  calculateMarketEfficiencyRatio (map (Rmult k) prices)
  = calculateMarketEfficiencyRatio prices.
Proof.
  intros Hk. unfold calculateMarketEfficiencyRatio. rewrite len_map.
  destruct (len prices <? 30)%Z; [reflexivity|]. cbv zeta.
  rewrite length_map. set (n := List.length prices).
  pose proof (path_scale k prices (seq (n - 29) 29) Hk 0) as Hp.
  rewrite Rmult_0_r in Hp. rewrite Hp.
  set (path := fold_left _ (seq (n - 29) 29) 0).
  rewrite !nth_scale, <- Rmult_minus_distr_l, Rabs_mult.
  rewrite (Rabs_pos_eq k) by lra.
  destruct (Req_dec path 0) as [E|E].
  - rewrite E, Rmult_0_r.
    replace (Reqb 0 0) with true by (symmetry; apply Reqb_true; lra).
    reflexivity.
  - replace (Reqb (k * path) 0) with false
      by (symmetry; apply Reqb_false; nra).
    replace (Reqb path 0) with false by (symmetry; now apply Reqb_false).
    field. split; lra.
Qed.

(** X13: over exact reals, multiplying every price of a history without
    a zero price by one positive factor leaves the returns (and with them
    the volatility and the relative strength), the trend strength and the
    market efficiency ratio unchanged. *)
Theorem metrics_invariant_under_rescaling (k : R) (prices : list R) :
  0 < k ->
  Forall (fun p => p <> 0) prices ->
  let scaled := map (Rmult k) prices in
  returnsOf scaled = returnsOf prices
  /\ stats.StandardDeviation (returnsOf scaled)
     = stats.StandardDeviation (returnsOf prices)
  /\ calculateRelativeStrength (returnsOf scaled)
     = calculateRelativeStrength (returnsOf prices)
  /\ calculateTrendStrength scaled = calculateTrendStrength prices
  /\ calculateMarketEfficiencyRatio scaled
     = calculateMarketEfficiencyRatio prices.
Proof.
  intros Hk _ scaled. subst scaled.
  rewrite returnsOf_scale by lra.
  split; [reflexivity|]. split; [reflexivity|]. split; [reflexivity|].
  split; [now apply calculateTrendStrength_scale
         | now apply efficiency_ratio_scale].
Qed.

Lemma metrics_invariant_under_rescaling_witness :
  0 < 0.1
  /\ Forall (fun p => p <> 0) risingPrices
  /\ calculateTrendStrength (map (Rmult 0.1) risingPrices)
     = calculateTrendStrength risingPrices.
Proof.
  assert (Hk : 0 < 0.1) by lra.
  assert (Hp : Forall (fun p => p <> 0) risingPrices)
    by (unfold risingPrices; repeat constructor; lra).
  split; [exact Hk|]. split; [exact Hp|].
  pose proof (metrics_invariant_under_rescaling 0.1 risingPrices Hk Hp)
    as H.
  cbv zeta in H. apply H.
Defined.

(** X25: in binary64 the first return of a history that starts at the
    price 0 is an infinity, and the relative strength computed from the
    returns is NaN: it is neither at least 0 nor at most 1. *)
Theorem relative_strength_nan_at_zero_price :
  nth 0 (f64.returnsOf f64.startingAtZero) PrimFloat.zero
  = PrimFloat.infinity
  /\ PrimFloat.is_nan
       (f64.calculateRelativeStrength (f64.returnsOf f64.startingAtZero))
     = true
  /\ PrimFloat.leb PrimFloat.zero
       (f64.calculateRelativeStrength (f64.returnsOf f64.startingAtZero))
     = false
  /\ PrimFloat.leb
       (f64.calculateRelativeStrength (f64.returnsOf f64.startingAtZero))
       PrimFloat.one
     = false.
Proof. vm_compute. repeat split. Qed.

End AnalyzerMore.

(** ** The pipeline: what every snapshot satisfies *)

Section PipelineMore.
Import types market analyzer series pipeline scenario.

Lemma Forall_firstn_keep {A : Type} (P : A -> Prop) (n : nat) :
  forall l : list A, Forall P l -> Forall P (firstn n l).
Proof.
  induction n as [|n IH]; intros l H; [constructor|].
  destruct H; simpl; constructor; auto.
Qed.

Lemma addToLimitedSlice_Forall {A : Type} (P : A -> Prop) (maxSize : Z)
    (s : list A) (value : A) (s' : list A) :
  addToLimitedSlice maxSize s value = Some s' ->
  Forall P s -> P value -> Forall P s'.
Proof.
  unfold addToLimitedSlice, slice. intros H Hs Hv.
  destruct (len s >=? maxSize)%Z.
  - destruct ((0 <=? 1) && (1 <=? len s) && (len s <=? len s))%Z;
      [|discriminate].
    injection H as <-. apply Forall_app. split; [|now constructor].
    apply Forall_firstn_keep, (Forall_skipn_keep P (Z.to_nat 1)), Hs.
  - injection H as <-. apply Forall_app. split; [exact Hs | now constructor].
Qed.

Lemma AddTick_volumes_nonneg (md : MarketData) (tick : TickData)
    (md' : MarketData) :
  AddTick md tick = Some md' ->
  0 <= Volume tick ->
  Forall (fun v => 0 <= v) (bidVolume md) ->
  Forall (fun v => 0 <= v) (askVolume md) ->
  Forall (fun v => 0 <= v) (bidVolume md')
  /\ Forall (fun v => 0 <= v) (askVolume md').
Proof.
  intros H Hv Hb Ha.
  destruct (AddTick_volumes md tick md' H) as (Hask & Hbid & _).
  destruct (IsAsk tick).
  - injection Hbid as <-. split; [exact Hb|].
    eapply addToLimitedSlice_Forall; eauto.
  - injection Hask as <-. split; [|exact Ha].
    eapply addToLimitedSlice_Forall; eauto.
Qed.

(** One tick on a store whose price, high and low sequences have one
    length: the ATR is taken in the 14-period branch. *)
Lemma feed_atr (st : State) (tick : TickData) :
  (0 < maxSize (store st))%Z ->
  withinCapacity (store st) ->
  synchronized (store st) ->
  exists snap st',
    feed st tick = Some (snap, st')
    /\ AddTick (store st) tick = Some (store st')
    /\ (0 < maxSize (store st'))%Z
    /\ withinCapacity (store st')
    /\ synchronized (store st')
    /\ match snap with
       | None => (len (priceHistory (store st')) < 20)%Z
       | Some m =>
           (20 <= len (priceHistory (store st')))%Z
           /\ 0 <= ATR m
           /\ OrderImbalance m = calculateOrderImbalance (store st')
       end.
Proof.
  intros Hmax Hcap Hsync.
  destruct (feed_spec st tick Hmax Hcap)
    as (md' & Hadd & Hm & Hcap' & [[Hlt Hf] | [Hge (atr & Hatr & Hf)]]);
    cbv zeta in Hf; rewrite Hf; do 2 eexists; (split; [reflexivity|]);
    cbn [store analysis];
    pose proof (AddTick_synchronized _ _ _ Hsync Hadd) as Hsync';
    (split; [exact Hadd|]); (split; [lia|]); (split; [exact Hcap'|]);
    (split; [exact Hsync'|]).
  - exact Hlt.
  - split; [exact Hge|].
    destruct Hsync' as [Hh Hl].
    split; [|reflexivity].
    cbn [ATR storeMetrics]. apply (calculateATR_nonneg _ _ _ _ Hatr); lia.
Qed.

Lemma run_atr (ticks : list TickData) :
  forall st : State,
  (0 < maxSize (store st))%Z ->
  withinCapacity (store st) ->
  synchronized (store st) ->
  exists snaps st',
    run st ticks = Some (snaps, st')
    /\ List.length snaps = List.length ticks
    /\ Forall
         (fun snap =>
            match snap with
            | None => True
            | Some m => 0 <= ATR m
            end) snaps
    /\ (Forall (fun v => 0 <= v) (bidVolume (store st)) ->
        Forall (fun v => 0 <= v) (askVolume (store st)) ->
        Forall (fun t => 0 <= Volume t) ticks ->
        Forall
          (fun snap =>
             match snap with
             | None => True
             | Some m => 0 <= OrderImbalance m <= 1
             end) snaps).
Proof.
  induction ticks as [|tick ticks IH]; intros st Hmax Hcap Hsync.
  - exists [], st. split; [reflexivity|]. split; [reflexivity|].
    split; [constructor|]. intros _ _ _. constructor.
  - destruct (feed_atr st tick Hmax Hcap Hsync)
      as (snap & st1 & Hf & Hadd & Hmax1 & Hcap1 & Hsync1 & Hsnap).
    destruct (IH st1 Hmax1 Hcap1 Hsync1)
      as (snaps & st' & Hrun & Hlen & Hall & Hoi).
    exists (snap :: snaps), st'. cbn [run]. rewrite Hf, Hrun.
    split; [reflexivity|]. split; [simpl; now rewrite Hlen|]. split.
    + constructor; [|exact Hall].
      destruct snap as [m|]; [|exact I]. apply Hsnap.
    + intros Hb Ha Hvol. inversion Hvol as [|? ? Hv Hvol']; subst.
      destruct (AddTick_volumes_nonneg _ _ _ Hadd Hv Hb Ha) as [Hb1 Ha1].
      constructor; [|exact (Hoi Hb1 Ha1 Hvol')].
      destruct snap as [m|]; [|exact I].
      destruct Hsnap as (_ & _ & ->).
      now apply orderImbalanceOf_range.
Qed.

(** X15: a run of AddTick followed by ProcessTick from a new store and a
    new analyzer never panics and gives one result per tick: ProcessTick
    returns before the ATR computation while the store holds fewer than 20
    prices, so the case in which that computation panics is not met.  In
    every snapshot the ATR is not negative, and the order imbalance lies in
    [0,1] when no tick has a negative volume. *)
Theorem snapshot_ranges (ticks : list TickData) :
  exists snaps st',
    run initial ticks = Some (snaps, st')
    /\ List.length snaps = List.length ticks
    /\ Forall
         (fun snap =>
            match snap with
            | None => True
            | Some m => 0 <= ATR m
            end) snaps
    /\ (Forall (fun t => 0 <= Volume t) ticks ->
        Forall
          (fun snap =>
             match snap with
             | None => True
             | Some m => 0 <= OrderImbalance m <= 1
             end) snaps).
Proof.
  destruct (run_atr ticks initial)
    as (snaps & st' & Hrun & Hlen & Hatr & Hoi).
  - reflexivity.
  - unfold withinCapacity; cbn; unfold len; cbn; lia.
  - split; reflexivity.
  - exists snaps, st'. split; [exact Hrun|]. split; [exact Hlen|].
    split; [exact Hatr|]. apply Hoi; constructor.
Qed.

Lemma checkBuyConditions_needs_trend (metrics : MarketMetrics) :
  TrendStrength metrics < 5 -> strategy.checkBuyConditions metrics = false.
Proof.
  intros H. unfold strategy.checkBuyConditions. cbv zeta.
  replace (Rgeb (TrendStrength metrics) 5.0) with false
    by (symmetry; apply Rgeb_false; lra).
  rewrite !andb_false_r. reflexivity.
Qed.

(** X23: whatever the warmup threshold and the state of the analyzer, the
    snapshot that ProcessTick returns on a store with fewer than 30 prices
    has the trend strength 0 and fails the buy conditions, which ask for at
    least 5: a strategy without a position, called with it, emits no signal
    and stays as it is. *)
Theorem no_entry_below_30_prices (a : Analyzer) (md : MarketData)
    (tick : TickData) (metrics : MarketMetrics) (a' : Analyzer) :
  (len (priceHistory md) < 30)%Z ->
  ProcessTick a md tick = Some (Some metrics, a') ->
  TrendStrength metrics = 0
  /\ strategy.checkBuyConditions metrics = false
  /\ forall (s : strategy.Strategy) (price : R) (timestamp : time.Time),
       strategy.IsActiveTrade s = false ->
       strategy.GenerateSignal s price timestamp metrics = (None, s).
Proof.
  intros H30 E.
  assert (Ht : TrendStrength metrics = 0).
  { destruct (Z.lt_ge_cases (len (priceHistory md)) 20) as [Hlow|Hhigh].
    - rewrite (ProcessTick_low a md tick Hlow) in E. discriminate.
    - destruct (ProcessTick_high a md tick Hhigh) as (atr & _ & F).
      cbv zeta in F. rewrite F in E. injection E as <- _.
      cbn [TrendStrength storeMetrics]. unfold GetPriceArray.
      rewrite calculateTrendStrength_short by exact H30. lra. }
  assert (Hb : strategy.checkBuyConditions metrics = false)
    by (apply checkBuyConditions_needs_trend; rewrite Ht; lra).
  split; [exact Ht|]. split; [exact Hb|].
  intros s price timestamp Hs.
  unfold strategy.GenerateSignal, strategy.checkEntryConditions.
  unfold strategy.IsActiveTrade in Hs. now rewrite Hs, Hb.
Qed.

Lemma no_entry_below_30_prices_witness :
  (len (priceHistory twentyPrices) < 30)%Z
  /\ exists metrics a',
       ProcessTick NewAnalyzer twentyPrices (tickAt 100)
       = Some (Some metrics, a')
       /\ TrendStrength metrics = 0
       /\ strategy.checkBuyConditions metrics = false.
Proof.
  assert (H20 : len (priceHistory twentyPrices) = 20%Z)
    by (unfold twentyPrices; cbn [priceHistory]; apply len_repeat).
  assert (H30 : (len (priceHistory twentyPrices) < 30)%Z) by lia.
  split; [exact H30|].
  destruct (ProcessTick_high NewAnalyzer twentyPrices (tickAt 100)
              ltac:(lia)) as (atr & _ & F).
  cbv zeta in F. do 2 eexists. split; [exact F|].
  destruct (no_entry_below_30_prices _ _ _ _ _ H30 F) as (Ht & Hb & _).
  split; [exact Ht | exact Hb].
Defined.

End PipelineMore.

(** ** The manager: the tick callback and the lock of the store *)

Section ManagerMore.
Import types market pipeline manager scenario.

Lemma Lock_excludes_RLock (mu held : sync.RWMutex) :
  sync.Lock mu = Some held -> sync.RLock held = None.
Proof.
  unfold sync.Lock. destruct (_ || _); [discriminate|].
  intros H. injection H as <-. reflexivity.
Qed.

Lemma Lock_free :
  sync.Lock sync.free = Some {| sync.writer := true; sync.readers := 0 |}.
Proof. reflexivity. Qed.

Lemma tickCallback_blocks (mu held : sync.RWMutex) (m : Manager)
    (tick : TickData) :
  sync.Lock mu = Some held -> tickCallback held m tick = Blocks.
Proof.
  intros H. unfold tickCallback, manager.ProcessTick, reading.
  now rewrite (Lock_excludes_RLock _ _ H).
Qed.

Lemma onTick_with_callback (m : Manager) (tick : TickData) :
  callback m = true ->
  onTick m tick = Blocks
  \/ (onTick m tick = Panics /\ AddTick (market m) tick = None).
Proof.
  intros Hc. unfold onTick.
  destruct (sync.Lock (mutex m)) as [held|] eqn:El; [|now left].
  destruct (AddTick (market m) tick) as [md|]; [|now right].
  rewrite Hc, (tickCallback_blocks _ _ _ _ El). now left.
Qed.

Lemma onTick_blocks (m : Manager) (tick : TickData) :
  callback m = true ->
  (0 < maxSize (market m))%Z ->
  withinCapacity (market m) ->
  onTick m tick = Blocks.
Proof.
  intros Hc Hmax Hcap.
  destruct (onTick_with_callback m tick Hc) as [H | [_ H]]; [exact H|].
  destruct (AddTick_bounded (market m) tick Hmax Hcap) as (md & E & _).
  congruence.
Qed.

(** X20: with the callback that [setupCallbacks] sets, a tick given to the
    store of the manager does not come back.  [AddTick] holds the write
    lock of the store when it calls the callback; the callback calls
    [ProcessTick], whose first statement, [HasMinimumData(20)], asks for
    the read lock of the same mutex and waits for the writer, which is its
    own caller.  So no call of [AddTick] returns while the callback is set,
    whatever the manager and the tick; on a store within its capacity it
    blocks, and so does the first tick after [Initialize] and every tick
    sequence that is not empty: no snapshot is computed and no signal is
    generated. *)
Theorem manager_blocks_on_first_tick :
  (forall (m : Manager) (tick : TickData)
          (result : option Signal * Manager),
     callback m = true -> onTick m tick <> Returns result)
  /\ (forall (m : Manager) (tick : TickData),
        callback m = true ->
        (0 < maxSize (market m))%Z ->
        withinCapacity (market m) ->
        onTick m tick = Blocks)
  /\ callback Initialize = true
  /\ (forall tick : TickData, onTick Initialize tick = Blocks)
  /\ (forall (tick : TickData) (ticks : list TickData),
        onTicks Initialize (tick :: ticks) = Blocks).
Proof.
  assert (Hi : forall tick, onTick Initialize tick = Blocks).
  { intros tick. apply onTick_blocks; [reflexivity|..];
      apply NewMarketData_ready. }
  split.
  { intros m tick result Hc.
    destruct (onTick_with_callback m tick Hc) as [H | [H _]];
      rewrite H; discriminate. }
  split; [exact onTick_blocks|]. split; [reflexivity|].
  split; [exact Hi|].
  intros tick ticks. cbn [onTicks]. now rewrite Hi.
Qed.

(** X26: on a store without callback whose mutex is free, [AddTick]
    returns with the mutex free again, and [ProcessTick] on that store
    then reads it without waiting: the two calls in sequence do what
    [pipeline.feed] does, give the snapshot it gives and leave the store
    and the analyzer it leaves, and one of them panics where it has no
    result. *)
Theorem sequential_calls_are_feed (m : Manager) (tick : TickData) :
  callback m = false ->
  mutex m = sync.free ->
  match feed (stateOf m) tick with
  | Some (snapshot, st) =>
      exists m',
        onTick m tick = Returns (None, m')
        /\ market m' = store st
        /\ mutex m' = sync.free
        /\ analyzer m' = analyzer m
        /\ strategy m' = strategy m
        /\ manager.ProcessTick (mutex m') (analyzer m') (market m') tick
           = Returns (snapshot, analysis st)
  | None =>
      onTick m tick = Panics
      \/ exists m',
           onTick m tick = Returns (None, m')
           /\ manager.ProcessTick (mutex m') (analyzer m') (market m') tick
              = Panics
  end.
Proof.
  intros Hc Hm. unfold feed, onTick, stateOf. cbn [store analysis].
  rewrite Hm, Lock_free, Hc.
  destruct (AddTick (market m) tick) as [md|]; cbn; [|now left].
  destruct (analyzer.ProcessTick (analyzer m) md tick)
    as [[snapshot a]|] eqn:Ep; cbn.
  - eexists. split; [reflexivity|]. cbn.
    repeat (split; [reflexivity|]).
    unfold manager.ProcessTick, reading. cbn. now rewrite Ep.
  - right. eexists. split; [reflexivity|]. cbn.
    unfold manager.ProcessTick, reading. cbn. now rewrite Ep.
Qed.

Lemma sequential_calls_are_feed_witness :
  callback withoutCallback = false
  /\ mutex withoutCallback = sync.free
  /\ exists m',
       onTick withoutCallback (tickAt 100) = Returns (None, m')
       /\ mutex m' = sync.free
       /\ manager.ProcessTick (mutex m') (analyzer m') (market m')
            (tickAt 100)
          = Returns (None, analyzer.NewAnalyzer).
Proof.
  split; [reflexivity|]. split; [reflexivity|].
  pose proof (sequential_calls_are_feed withoutCallback (tickAt 100)
                eq_refl eq_refl) as H.
  destruct (feed_spec (stateOf withoutCallback) (tickAt 100))
    as (md' & Hadd & _ & _ & [[Hlt Hf] | [Hge _]]).
  - reflexivity.
  - apply NewMarketData_ready.
  - cbv zeta in Hf. rewrite Hf in H.
    destruct H as (m' & H1 & _ & H3 & _ & _ & H6).
    exists m'. split; [exact H1|]. split; [exact H3|]. exact H6.
  - exfalso.
    pose proof (AddTick_len _ _ _ Hadd) as Hl.
    revert Hge Hl. generalize (len (priceHistory md')).
    cbn. unfold len. cbn. intros; lia.
Defined.

End ManagerMore.

(** ** The strategy over a sequence of calls *)

Section StrategyMore.
Import types strategy scenario.
Local Open Scope string_scope.

(** A call either leaves the position as it is and emits nothing, or
    emits the next action and toggles the position. *)
Lemma GenerateSignal_step (s : Strategy) (price : R) (timestamp : time.Time)
    (metrics : MarketMetrics) :
  match fst (GenerateSignal s price timestamp metrics) with
  | None =>
      Active (activeTrade (snd (GenerateSignal s price timestamp metrics)))
      = Active (activeTrade s)
  | Some signal =>
      Action signal = nextAction s
      /\ Active (activeTrade (snd (GenerateSignal s price timestamp metrics)))
         = negb (Active (activeTrade s))
  end.
Proof.
  unfold nextAction.
  destruct (Active (activeTrade s)) eqn:Ha.
  - rewrite (GenerateSignal_open s price timestamp metrics Ha). cbv zeta.
    destruct (_ || _ || _ || _); cbn [fst snd activeTrade].
    + split; reflexivity.
    + destruct (Rgtb price (HighestPrice (activeTrade s)));
        destruct (Rltb price _); cbn; exact Ha.
  - unfold GenerateSignal, checkEntryConditions. rewrite Ha.
    destruct (checkBuyConditions metrics); cbn [fst snd activeTrade].
    + split; reflexivity.
    + exact Ha.
Qed.

Lemma alternates_flip (s : Strategy) :
  (if String.eqb (nextAction s) "BUY" then "CLOSE" else "BUY")
  = if Active (activeTrade s) then "BUY" else "CLOSE".
Proof. unfold nextAction. now destruct (Active (activeTrade s)). Qed.

Lemma GenerateSignals_alternate (calls : list Call) :
  forall s : Strategy,
  alternates (nextAction s) (actionsOf (fst (GenerateSignals s calls))).
Proof.
  induction calls as [|c calls IH]; intros s; [exact I|].
  cbn [GenerateSignals].
  pose proof (GenerateSignal_step s (callPrice c) (callTime c)
                (callMetrics c)) as Hstep.
  destruct (GenerateSignal s (callPrice c) (callTime c) (callMetrics c))
    as [signal s1].
  specialize (IH s1).
  destruct (GenerateSignals s1 calls) as [signals s2].
  cbn [fst snd] in *. unfold actionsOf in *. cbn [flat_map].
  destruct signal as [sig|]; cbn [app].
  - destruct Hstep as [Hact Hflip]. split; [exact Hact|].
    rewrite alternates_flip.
    unfold nextAction in IH. rewrite Hflip in IH.
    now destruct (Active (activeTrade s)).
  - unfold nextAction in *. now rewrite Hstep in IH.
Qed.

(** X16: over any sequence of calls the emitted actions alternate: a
    strategy with no position emits BUY first, one with a position CLOSE
    first, and after each signal the other action is next; a new strategy
    starts with BUY. *)
Theorem signals_alternate (calls : list Call) (s : Strategy) :
  alternates (nextAction s) (actionsOf (fst (GenerateSignals s calls)))
  /\ alternates "BUY" (actionsOf (fst (GenerateSignals NewStrategy calls)))
  /\ (forall price timestamp metrics signal,
        fst (GenerateSignal s price timestamp metrics) = Some signal ->
        Action signal = (if IsActiveTrade s then "CLOSE" else "BUY")
        /\ IsActiveTrade (snd (GenerateSignal s price timestamp metrics))
           = negb (IsActiveTrade s)).
Proof.
  split; [apply GenerateSignals_alternate|].
  split; [apply (GenerateSignals_alternate calls NewStrategy)|].
  intros price timestamp metrics signal H.
  pose proof (GenerateSignal_step s price timestamp metrics) as Hstep.
  rewrite H in Hstep. exact Hstep.
Qed.

Lemma exit_needs_profit (s : Strategy) (price : R) (timestamp : time.Time)
    (metrics : MarketMetrics) (signal : Signal) :
  Active (activeTrade s) = true ->
  0 < price ->
  fst (GenerateSignal s price timestamp metrics) = Some signal ->
  profitOf (EntryPrice (activeTrade s)) price >= 0.3 / 100
  /\ ProfitPercent signal
     = profitOf (EntryPrice (activeTrade s)) price * 100
  /\ SignalPrice signal = price.
Proof.
  intros Ha Hp H.
  rewrite (GenerateSignal_open s price timestamp metrics Ha) in H.
  cbv zeta in H.
  rewrite (stopLossHit_positive_price price metrics Hp) in H.
  rewrite (takeProfitHit_positive_price price metrics Hp) in H.
  cbn [orb] in H.
  destruct (timeExitDue _ _ _ _ || trendReversed _ _ _) eqn:E;
    cbn [fst] in H; [|discriminate].
  injection H as <-. cbn [ProfitPercent SignalPrice NewSellSignal].
  split; [|split; reflexivity].
  apply orb_true_iff in E. destruct E as [E|E].
  - unfold timeExitDue in E.
    apply andb_true_iff in E. destruct E as [_ E].
    apply andb_true_iff in E. destruct E as [_ E].
    now apply Rgeb_true in E.
  - unfold trendReversed in E.
    apply andb_true_iff in E. destruct E as [_ E].
    now apply Rgeb_true in E.
Qed.

(** X17: a position entered at a positive price is closed, at a positive
    price, only at a profit of at least 0.3 percent: the price is then at
    least 1.003 times the entry price; below that level no signal is
    emitted and the position stays open. *)
Theorem position_closes_only_in_profit (s : Strategy) (price : R)
    (timestamp : time.Time) (metrics : MarketMetrics) :
  Active (activeTrade s) = true ->
  0 < EntryPrice (activeTrade s) ->
  0 < price ->
  (forall signal,
     fst (GenerateSignal s price timestamp metrics) = Some signal ->
     0.3 <= ProfitPercent signal
     /\ 1.003 * EntryPrice (activeTrade s) <= price
     /\ SignalPrice signal = price)
  /\ (price < 1.003 * EntryPrice (activeTrade s) ->
      fst (GenerateSignal s price timestamp metrics) = None
      /\ IsActiveTrade (snd (GenerateSignal s price timestamp metrics))
         = true).
Proof.
  intros Ha He Hp.
  assert (Hprofit : forall signal,
            fst (GenerateSignal s price timestamp metrics) = Some signal ->
            1.003 * EntryPrice (activeTrade s) <= price
            /\ ProfitPercent signal
               = profitOf (EntryPrice (activeTrade s)) price * 100
            /\ profitOf (EntryPrice (activeTrade s)) price >= 0.3 / 100
            /\ SignalPrice signal = price).
  { intros signal H.
    destruct (exit_needs_profit s price timestamp metrics signal Ha Hp H)
      as (Hge & Hpp & Hsp).
    split; [|now repeat split].
    unfold profitOf in Hge.
    assert (Hq : 1.003 <= price / EntryPrice (activeTrade s)) by lra.
    apply (Rmult_le_compat_r (EntryPrice (activeTrade s))) in Hq; [|lra].
    unfold Rdiv in Hq. rewrite Rmult_assoc, Rinv_l, Rmult_1_r in Hq by lra.
    exact Hq. }
  split.
  - intros signal H. destruct (Hprofit signal H) as (H1 & H2 & H3 & H4).
    split; [rewrite H2; lra|]. split; assumption.
  - intros Hlt.
    pose proof (GenerateSignal_step s price timestamp metrics) as Hstep.
    destruct (fst (GenerateSignal s price timestamp metrics)) as [signal|]
      eqn:E.
    + destruct (Hprofit signal eq_refl) as (H1 & _). lra.
    + split; [reflexivity|]. unfold IsActiveTrade. now rewrite Hstep.
Qed.

Lemma position_closes_only_in_profit_witness :
  Active (activeTrade enteredAt100) = true
  /\ 0 < EntryPrice (activeTrade enteredAt100)
  /\ 0 < 100.2
  /\ 100.2 < 1.003 * EntryPrice (activeTrade enteredAt100)
  /\ fst (GenerateSignal enteredAt100 100.2 fiveHoursAfter_t0
            reversalMetrics) = None.
Proof.
  assert (Ha : Active (activeTrade enteredAt100) = true) by reflexivity.
  assert (He : 0 < EntryPrice (activeTrade enteredAt100)) by (simpl; lra).
  assert (Hp : 0 < 100.2) by lra.
  assert (Hlt : 100.2 < 1.003 * EntryPrice (activeTrade enteredAt100))
    by (simpl; lra).
  split; [exact Ha|]. split; [exact He|]. split; [exact Hp|].
  split; [exact Hlt|].
  exact (proj1 (proj2 (position_closes_only_in_profit enteredAt100 100.2
                         fiveHoursAfter_t0 reversalMetrics Ha He Hp) Hlt)).
Defined.

Lemma agreeExceptStopLoss_refl (t : TradeData) : agreeExceptStopLoss t t.
Proof. unfold agreeExceptStopLoss. now repeat split. Qed.

Lemma UpdateStopLoss_agree (s : Strategy) (newStopLoss : R) :
  agreeExceptStopLoss (activeTrade (UpdateStopLoss s newStopLoss))
    (activeTrade s).
Proof.
  unfold UpdateStopLoss.
  destruct (Active (activeTrade s) && Rgtb newStopLoss 0);
    [|apply agreeExceptStopLoss_refl].
  unfold agreeExceptStopLoss. cbn. now repeat split.
Qed.

Lemma GenerateSignal_agree (s1 s2 : Strategy) (price : R)
    (timestamp : time.Time) (metrics : MarketMetrics) :
  agreeExceptStopLoss (activeTrade s1) (activeTrade s2) ->
  fst (GenerateSignal s1 price timestamp metrics)
  = fst (GenerateSignal s2 price timestamp metrics)
  /\ agreeExceptStopLoss
       (activeTrade (snd (GenerateSignal s1 price timestamp metrics)))
       (activeTrade (snd (GenerateSignal s2 price timestamp metrics))).
Proof.
  destruct s1 as [[a1 d1 e1 et1 h1 l1 sl1 p1]].
  destruct s2 as [[a2 d2 e2 et2 h2 l2 sl2 p2]].
  unfold agreeExceptStopLoss. cbn [activeTrade Active Direction EntryPrice
    EntryTime HighestPrice LowestPrice CurrentPnL].
  intros (-> & -> & -> & -> & -> & -> & ->).
  unfold GenerateSignal, checkExitConditions, checkEntryConditions.
  cbn [activeTrade Active].
  destruct a2.
  - cbn [HighestPrice]. destruct (Rgtb price h2);
      cbn [setHighestPrice LowestPrice Active Direction EntryPrice EntryTime
           HighestPrice StopLoss CurrentPnL];
      destruct (Rltb price l2);
      cbn [setLowestPrice LowestPrice Active Direction EntryPrice EntryTime
           HighestPrice StopLoss CurrentPnL];
      destruct (checkSellConditions _ _ _ _ _ _) as [[[st r] sl] pr];
      destruct st; cbn; now repeat split.
  - destruct (checkBuyConditions metrics); cbn; now repeat split.
Qed.

Lemma GenerateSignals_agree (calls : list Call) :
  forall s1 s2 : Strategy,
  agreeExceptStopLoss (activeTrade s1) (activeTrade s2) ->
  fst (GenerateSignals s1 calls) = fst (GenerateSignals s2 calls)
  /\ agreeExceptStopLoss (activeTrade (snd (GenerateSignals s1 calls)))
       (activeTrade (snd (GenerateSignals s2 calls))).
Proof.
  induction calls as [|c calls IH]; intros s1 s2 H; [now split|].
  cbn [GenerateSignals].
  destruct (GenerateSignal_agree s1 s2 (callPrice c) (callTime c)
              (callMetrics c) H) as [Hsig Hs].
  destruct (GenerateSignal s1 _ _ _) as [sig1 s1'].
  destruct (GenerateSignal s2 _ _ _) as [sig2 s2'].
  cbn [fst snd] in Hsig, Hs. subst sig2.
  destruct (IH s1' s2' Hs) as [Hsigs Hs'].
  destruct (GenerateSignals s1' calls) as [sigs1 s1''].
  destruct (GenerateSignals s2' calls) as [sigs2 s2''].
  cbn [fst snd] in *. subst sigs2. now split.
Qed.

Lemma GenerateSignals_keep_StopLoss (calls : list Call) :
  forall s : Strategy,
  StopLoss (activeTrade (snd (GenerateSignals s calls)))
  = StopLoss (activeTrade s).
Proof.
  induction calls as [|c calls IH]; intros s; [reflexivity|].
  cbn [GenerateSignals].
  pose proof (GenerateSignal_keeps_StopLoss s (callPrice c) (callTime c)
                (callMetrics c)) as H.
  destruct (GenerateSignal s _ _ _) as [sig s1]. cbn [snd] in H.
  specialize (IH s1).
  destruct (GenerateSignals s1 calls) as [sigs s2]. cbn [snd] in *.
  congruence.
Qed.

(** X18: the stored stop-loss is written but never read: after
    UpdateStopLoss the strategy emits the same signals on every sequence of
    calls and ends in the same trade record up to the stored stop-loss, which
    keeps the value set; the update is dropped without a position or for a
    value that is not positive. *)
Theorem stored_stop_loss_is_never_read (s : Strategy) (newStopLoss : R)
    (calls : list Call) :
  fst (GenerateSignals (UpdateStopLoss s newStopLoss) calls)
  = fst (GenerateSignals s calls)
  /\ agreeExceptStopLoss
       (activeTrade (snd (GenerateSignals (UpdateStopLoss s newStopLoss)
                            calls)))
       (activeTrade (snd (GenerateSignals s calls)))
  /\ StopLoss
       (activeTrade (snd (GenerateSignals (UpdateStopLoss s newStopLoss)
                            calls)))
     = (if IsActiveTrade s && Rgtb newStopLoss 0
        then newStopLoss else StopLoss (activeTrade s))
  /\ (IsActiveTrade s = false \/ newStopLoss <= 0 ->
      UpdateStopLoss s newStopLoss = s).
Proof.
  destruct (GenerateSignals_agree calls (UpdateStopLoss s newStopLoss) s
              (UpdateStopLoss_agree s newStopLoss)) as [H1 H2].
  split; [exact H1|]. split; [exact H2|]. split.
  - rewrite GenerateSignals_keep_StopLoss.
    unfold UpdateStopLoss, IsActiveTrade.
    now destruct (Active (activeTrade s) && Rgtb newStopLoss 0).
  - unfold UpdateStopLoss, IsActiveTrade. intros [->|H]; [reflexivity|].
    replace (Rgtb newStopLoss 0) with false
      by (symmetry; apply Rgtb_false; lra).
    now rewrite andb_false_r.
Qed.

(** The record of an open position brackets its entry price. *)
Lemma GenerateSignal_bracket (s : Strategy) (price : R)
    (timestamp : time.Time) (metrics : MarketMetrics) :
  0 < price ->
  (Active (activeTrade s) = true ->
   0 < EntryPrice (activeTrade s)
   /\ LowestPrice (activeTrade s) <= EntryPrice (activeTrade s)
      <= HighestPrice (activeTrade s)) ->
  let s' := snd (GenerateSignal s price timestamp metrics) in
  Active (activeTrade s') = true ->
  0 < EntryPrice (activeTrade s')
  /\ LowestPrice (activeTrade s') <= EntryPrice (activeTrade s')
     <= HighestPrice (activeTrade s').
Proof.
  intros Hp Hinv s'. subst s'.
  destruct (Active (activeTrade s)) eqn:Ha.
  - specialize (Hinv eq_refl).
    rewrite (GenerateSignal_open s price timestamp metrics Ha). cbv zeta.
    destruct (_ || _ || _ || _); cbn [snd activeTrade].
    + destruct (Rgtb price _); destruct (Rltb price _); cbn; discriminate.
    + intros _.
      destruct (Rgtb price (HighestPrice (activeTrade s))) eqn:Eh;
        [apply Rgtb_true in Eh | apply Rgtb_false in Eh];
        cbn [setHighestPrice LowestPrice];
        (destruct (Rltb price (LowestPrice (activeTrade s))) eqn:El;
         [apply Rltb_true in El | apply Rltb_false in El]);
        cbn; lra.
  - intros H. unfold GenerateSignal, checkEntryConditions in *.
    rewrite Ha in *.
    destruct (checkBuyConditions metrics); cbn in *; [lra | congruence].
Qed.

Lemma GenerateSignals_bracket (calls : list Call) :
  forall s : Strategy,
  Forall (fun c => 0 < callPrice c) calls ->
  (Active (activeTrade s) = true ->
   0 < EntryPrice (activeTrade s)
   /\ LowestPrice (activeTrade s) <= EntryPrice (activeTrade s)
      <= HighestPrice (activeTrade s)) ->
  let s' := snd (GenerateSignals s calls) in
  Active (activeTrade s') = true ->
  0 < EntryPrice (activeTrade s')
  /\ LowestPrice (activeTrade s') <= EntryPrice (activeTrade s')
     <= HighestPrice (activeTrade s').
Proof.
  induction calls as [|c calls IH]; intros s Hpos Hinv; [exact Hinv|].
  inversion Hpos as [|? ? Hc Hpos']; subst.
  cbn [GenerateSignals].
  pose proof (GenerateSignal_bracket s (callPrice c) (callTime c)
                (callMetrics c) Hc Hinv) as H1. cbv zeta in H1.
  destruct (GenerateSignal s _ _ _) as [sig s1]. cbn [snd] in H1.
  specialize (IH s1 Hpos' H1). cbv zeta in IH.
  destruct (GenerateSignals s1 calls) as [sigs s2]. exact IH.
Qed.

(** X19: after any calls at positive prices on a new strategy, the record
    of an open position has its entry price between the lowest and the
    highest price seen, and the PnL that GetActiveTradeData reports, taken
    at the highest price, is not negative; without a position it is 0. *)
Theorem reported_pnl_is_never_negative (calls : list Call) :
  Forall (fun c => 0 < callPrice c) calls ->
  let s := snd (GenerateSignals NewStrategy calls) in
  let t := GetActiveTradeData s in
  Active t = IsActiveTrade s
  /\ (Active t = true ->
      0 < EntryPrice t
      /\ LowestPrice t <= EntryPrice t <= HighestPrice t
      /\ CurrentPnL t = (HighestPrice t / EntryPrice t - 1) * 100
      /\ 0 <= CurrentPnL t)
  /\ (Active t = false -> CurrentPnL t = 0).
Proof.
  intros Hpos s t.
  pose proof (GenerateSignals_bracket calls NewStrategy Hpos) as H.
  cbv zeta in H. fold s in H.
  assert (Hnew : Active (activeTrade NewStrategy) = true ->
                 0 < EntryPrice (activeTrade NewStrategy)
                 /\ LowestPrice (activeTrade NewStrategy)
                    <= EntryPrice (activeTrade NewStrategy)
                    <= HighestPrice (activeTrade NewStrategy))
    by (cbn; discriminate).
  specialize (H Hnew).
  subst t. unfold GetActiveTradeData, IsActiveTrade. cbv zeta.
  cbn [Active]. destruct (Active (activeTrade s)) eqn:Ha; cbn.
  - split; [reflexivity|]. split; [|discriminate]. intros _.
    destruct (H eq_refl) as (He & Hl & Hh).
    split; [exact He|]. split; [lra|]. split; [reflexivity|].
    apply Rmult_le_pos; [|lra].
    assert (1 <= HighestPrice (activeTrade s) / EntryPrice (activeTrade s));
      [|lra].
    apply (Rmult_le_reg_r (EntryPrice (activeTrade s))); [exact He|].
    unfold Rdiv. rewrite Rmult_assoc, Rinv_l by lra. lra.
  - split; [reflexivity|]. split; [discriminate | reflexivity].
Qed.

Lemma reported_pnl_is_never_negative_witness :
  let calls :=
    [ {| callPrice := 100; callTime := t0; callMetrics := entryMetrics |};
      {| callPrice := 102; callTime := t1; callMetrics := entryMetrics |} ] in
  Forall (fun c => 0 < callPrice c) calls
  /\ Active (GetActiveTradeData (snd (GenerateSignals NewStrategy calls)))
     = IsActiveTrade (snd (GenerateSignals NewStrategy calls)).
Proof.
  cbv zeta.
  assert (Hpos : Forall (fun c => 0 < callPrice c)
                   [ {| callPrice := 100; callTime := t0;
                        callMetrics := entryMetrics |};
                     {| callPrice := 102; callTime := t1;
                        callMetrics := entryMetrics |} ])
    by (repeat constructor; simpl; lra).
  split; [exact Hpos|].
  exact (proj1 (reported_pnl_is_never_negative _ Hpos)).
Defined.

Lemma Hours_monotone_bound (d : time.Duration) :
  (d <= 4 * time.Hour)%Z -> time.Hours d <= 4.
Proof.
  intros H. rewrite Hours_exact.
  apply IZR_le in H. rewrite mult_IZR in H. unfold time.Hour in H.
  rewrite !mult_IZR in H. lra.
Qed.

Lemma timeExitDue_early (entryTime : time.Time) (entryPrice price : R)
    (timestamp : time.Time) :
  (timestamp - entryTime <= 4 * time.Hour)%Z \/ entryTime = 0%Z ->
  timeExitDue entryTime entryPrice price timestamp = false.
Proof.
  unfold timeExitDue. intros [H| ->]; [|reflexivity].
  replace (Rgtb (time.Hours (time.Sub timestamp entryTime)) 4) with false.
  - cbn [andb]. apply andb_false_r.
  - symmetry. apply Rgtb_false, Hours_monotone_bound.
    unfold time.Sub. cbv zeta.
    destruct (Z.ltb_spec (timestamp - entryTime) time.minDuration);
      [unfold time.minDuration, time.Hour; lia|].
    destruct (Z.ltb_spec time.maxDuration (timestamp - entryTime));
      [unfold time.maxDuration, time.Hour in *; lia | exact H].
Qed.

(** X24: up to four hours after the entry, and for a position whose entry
    time is the zero time, a call at a positive price closes the position
    only on a trend reversal: with a trend strength of at least -7 it emits
    nothing, and any signal it emits has the reason trend_reversal. *)
Theorem early_close_only_on_trend_reversal (s : Strategy) (price : R)
    (timestamp : time.Time) (metrics : MarketMetrics) :
  Active (activeTrade s) = true ->
  0 < price ->
  (timestamp - EntryTime (activeTrade s) <= 4 * time.Hour)%Z
  \/ EntryTime (activeTrade s) = 0%Z ->
  (- 7 <= TrendStrength metrics ->
   fst (GenerateSignal s price timestamp metrics) = None)
  /\ (forall signal,
        fst (GenerateSignal s price timestamp metrics) = Some signal ->
        Reason signal = "trend_reversal"
        /\ TrendStrength metrics < - 7).
Proof.
  intros Ha Hp Ht.
  rewrite (GenerateSignal_open s price timestamp metrics Ha). cbv zeta.
  rewrite (stopLossHit_positive_price price metrics Hp).
  rewrite (takeProfitHit_positive_price price metrics Hp).
  rewrite (timeExitDue_early _ _ _ _ Ht). cbn [orb].
  split.
  - intros Htrend. unfold trendReversed.
    replace (Rltb (TrendStrength metrics) (- 7.0)) with false
      by (symmetry; apply Rltb_false; lra).
    reflexivity.
  - intros signal. destruct (trendReversed _ _ _) eqn:E; cbn [fst];
      [|discriminate].
    intros [= <-]. split; [reflexivity|].
    unfold trendReversed in E. apply andb_true_iff in E.
    destruct E as [E _]. apply Rltb_true in E. lra.
Qed.

Lemma early_close_only_on_trend_reversal_witness :
  Active (activeTrade enteredAt100) = true
  /\ 0 < 101
  /\ (t1 - EntryTime (activeTrade enteredAt100) <= 4 * time.Hour)%Z
  /\ fst (GenerateSignal enteredAt100 101 t1 entryMetrics) = None.
Proof.
  assert (Ha : Active (activeTrade enteredAt100) = true) by reflexivity.
  assert (Hp : 0 < 101) by lra.
  assert (Ht : (t1 - EntryTime (activeTrade enteredAt100)
                <= 4 * time.Hour)%Z) by (vm_compute; discriminate).
  split; [exact Ha|]. split; [exact Hp|]. split; [exact Ht|].
  apply (proj1 (early_close_only_on_trend_reversal enteredAt100 101 t1
                  entryMetrics Ha Hp (or_introl Ht))).
  simpl. lra.
Defined.

End StrategyMore.
